(** * ImagesDB: chunking, integrity, upload sessions and quota

    A shallow embedding of the core of the ImagesDB middleware
    ([src/services/chunking.ts], [src/services/upload.ts],
    [src/services/quota.ts] and the SDK-based [ArkivStorage]) together with
    the properties its specification states about it.

    Conventions.  A [Buffer] is a [list byte]; JavaScript numbers that the
    code only ever uses as integers are [Z]; a [Map<string, V>] is a
    [gmap string V]; a [Set<number>] is a [gset Z].  Everything the service
    reads or mutates (its own maps, the Arkiv network, the platform's UUID
    generator and clock) lives in one state record that is threaded through
    a small state-and-exception monad.

    What is taken from the platform and the Arkiv SDK rather than from the
    repository is modelled by its documented behaviour: SHA-256 by
    FIPS 180-4, base64 and JSON as lossless codecs, the SDK's queries as
    filters over the list of stored entities, and each RPC as a call that
    the network either answers or rejects.  [ArkivStorage] is modelled as
    it is once its constructor's [initializeClient] has resolved; logging
    is left out. *)

From Stdlib Require Import ZArith Lia List Ascii String.
From Stdlib Require Import Strings.Byte DecimalString.
From Stdlib Require Floats.PrimFloat Floats.SpecFloat Floats.FloatOps.
From stdpp Require Import base option list strings gmap pretty sorting.

Local Open Scope Z_scope.

(** ** Buffers *)

Abbreviation Buffer := (list byte).

(** [buffer.length] *)
Definition blen {A : Type} (l : list A) : Z := Z.of_nat (length l).

Definition byte_val (b : byte) : Z := Z.of_N (Byte.to_N b).

(** ** SHA-256 ([crypto.createHash('sha256')], FIPS 180-4) *)

Module SHA256.

Definition mask32 : Z := 4294967295.
Definition wrap (x : Z) : Z := Z.land x mask32.
Definition add32 (x y : Z) : Z := wrap (x + y).
Definition rotr (n x : Z) : Z :=
  Z.lor (Z.shiftr x n) (wrap (Z.shiftl x (32 - n))).

Definition Ch (x y z : Z) : Z :=
  Z.lxor (Z.land x y) (Z.land (Z.lxor x mask32) z).
Definition Maj (x y z : Z) : Z :=
  Z.lxor (Z.lxor (Z.land x y) (Z.land x z)) (Z.land y z).
Definition Sum0 (x : Z) : Z := Z.lxor (Z.lxor (rotr 2 x) (rotr 13 x)) (rotr 22 x).
Definition Sum1 (x : Z) : Z := Z.lxor (Z.lxor (rotr 6 x) (rotr 11 x)) (rotr 25 x).
Definition sig0 (x : Z) : Z := Z.lxor (Z.lxor (rotr 7 x) (rotr 18 x)) (Z.shiftr x 3).
Definition sig1 (x : Z) : Z := Z.lxor (Z.lxor (rotr 17 x) (rotr 19 x)) (Z.shiftr x 10).

(** Round constants: the fractional parts of the cube roots of the first
    sixty-four primes, 32 bits each. *)
Definition K : list Z :=
  [ 1116352408; 1899447441; 3049323471; 3921009573; 961987163; 1508970993;
    2453635748; 2870763221; 3624381080; 310598401; 607225278; 1426881987;
    1925078388; 2162078206; 2614888103; 3248222580; 3835390401; 4022224774;
    264347078; 604807628; 770255983; 1249150122; 1555081692; 1996064986;
    2554220882; 2821834349; 2952996808; 3210313671; 3336571891; 3584528711;
    113926993; 338241895; 666307205; 773529912; 1294757372; 1396182291;
    1695183700; 1986661051; 2177026350; 2456956037; 2730485921; 2820302411;
    3259730800; 3345764771; 3516065817; 3600352804; 4094571909; 275423344;
    430227734; 506948616; 659060556; 883997877; 958139571; 1322822218;
    1537002063; 1747873779; 1955562222; 2024104815; 2227730452; 2361852424;
    2428436474; 2756734187; 3204031479; 3329325298 ].

(** The eight working words. *)
Record regs : Type := Regs {
  ra : Z; rb : Z; rc : Z; rd : Z; re : Z; rf : Z; rg : Z; rh : Z
}.

(** Initial hash value: square roots of the first eight primes. *)
Definition init : regs :=
  Regs 1779033703 3144134277 1013904242 2773480762
       1359893119 2600822924 528734635 1541459225.

(** Padding: a one bit, zero bits up to 56 mod 64 bytes, then the bit
    length as a 64-bit big-endian number. *)
Definition be_bytes (n : nat) (x : Z) : list Z :=
  map (fun i => Z.land (Z.shiftr x (8 * Z.of_nat i)) 255) (rev (seq 0 n)).

Definition pad (msg : Buffer) : list Z :=
  let l := blen msg in
  map byte_val msg ++ 128 :: repeat 0 (Z.to_nat ((55 - l) mod 64))
    ++ be_bytes 8 (8 * l).

(** Big-endian 32-bit words of a byte sequence. *)
Fixpoint words (bs : list Z) : list Z :=
  match bs with
  | b0 :: b1 :: b2 :: b3 :: rest =>
      (Z.shiftl b0 24 + Z.shiftl b1 16 + Z.shiftl b2 8 + b3) :: words rest
  | _ => []
  end.

(** Message schedule.  [sched] keeps the words newest first, so that
    W(t-2), W(t-7), W(t-15) and W(t-16) sit at offsets 1, 6, 14 and 15. *)
Fixpoint extend (n : nat) (sched : list Z) : list Z :=
  match n with
  | O => sched
  | S n' =>
      let w := add32 (add32 (sig1 (nth 1 sched 0)) (nth 6 sched 0))
                     (add32 (sig0 (nth 14 sched 0)) (nth 15 sched 0)) in
      extend n' (w :: sched)
  end.

Definition schedule (block : list Z) : list Z :=
  rev (extend 48 (rev block)).

Definition round (r : regs) (kw : Z * Z) : regs :=
  let t1 := add32 (add32 (add32 (rh r) (Sum1 (re r)))
                         (add32 (Ch (re r) (rf r) (rg r)) (fst kw))) (snd kw) in
  let t2 := add32 (Sum0 (ra r)) (Maj (ra r) (rb r) (rc r)) in
  Regs (add32 t1 t2) (ra r) (rb r) (rc r) (add32 (rd r) t1) (re r) (rf r) (rg r).

Definition compress (h : regs) (block : list Z) : regs :=
  let r := fold_left round (combine K (schedule block)) h in
  Regs (add32 (ra h) (ra r)) (add32 (rb h) (rb r)) (add32 (rc h) (rc r))
       (add32 (rd h) (rd r)) (add32 (re h) (re r)) (add32 (rf h) (rf r))
       (add32 (rg h) (rg r)) (add32 (rh h) (rh r)).

(** One 16-word block per step; [fuel] bounds the number of blocks. *)
Fixpoint blocks (fuel : nat) (h : regs) (ws : list Z) : regs :=
  match fuel, ws with
  | S fuel', _ :: _ => blocks fuel' (compress h (firstn 16 ws)) (skipn 16 ws)
  | _, _ => h
  end.

Definition digest (msg : Buffer) : regs :=
  let ws := words (pad msg) in
  blocks (length ws) init ws.

(** [digest('hex')]: lowercase hexadecimal, most significant nibble first. *)
Definition hex_digit (n : Z) : ascii :=
  nth (Z.to_nat n) (list_ascii_of_string "0123456789abcdef") "0"%char.

Definition hex_word (w : Z) : list ascii :=
  map (fun i => hex_digit (Z.land (Z.shiftr w (4 * Z.of_nat i)) 15))
      (rev (seq 0 8)).

Definition hex (r : regs) : string :=
  string_of_list_ascii
    (hex_word (ra r) ++ hex_word (rb r) ++ hex_word (rc r) ++ hex_word (rd r)
     ++ hex_word (re r) ++ hex_word (rf r) ++ hex_word (rg r) ++ hex_word (rh r)).

Definition sha256_hex (msg : Buffer) : string := hex (digest msg).

End SHA256.

(** ** Configuration ([CONFIG] of [src/types.ts]) *)

Module CONFIG.
Definition MAX_FILE_SIZE : Z := 25 * 1024 * 1024.
Definition CHUNK_SIZE : Z := 64 * 1024.
Definition DEFAULT_BTL_DAYS : Z := 7.
Definition FREE_TIER_MAX_BYTES : Z := 100 * 1024 * 1024.
Definition FREE_TIER_MAX_UPLOADS_PER_DAY : Z := 10.
End CONFIG.

(** ** Data model ([src/types.ts]) *)

Module ChunkEntity.
Record t : Type := mk {
  id : string;
  media_id : string;
  chunk_index : Z;
  data : Buffer;
  checksum : string;
  created_at : Z;
  expiration_block : Z
}.
End ChunkEntity.

(** [Buffer.toString('base64')] and [Buffer.from(s, 'base64')] are the
    platform's lossless codec.  A base64 text is represented by the bytes
    it encodes. *)
Inductive Base64 : Type := base64 (bytes : Buffer).

Definition toBase64 (b : Buffer) : Base64 := base64 b.
Definition fromBase64 (s : Base64) : Buffer := let (b) := s in b.

Module MediaChunk.
Record t : Type := mk {
  media_id : string;
  chunk_index : Z;
  data : Base64;
  checksum : string;
  expiration_block : Z
}.
End MediaChunk.

Module MediaMetadata.
Record t : Type := mk {
  media_id : string;
  filename : string;
  content_type : string;
  file_size : Z;
  chunk_count : Z;
  checksum : string;
  created_at : Z;
  expiration_block : Z;
  btl_days : Z
}.
End MediaMetadata.

Module UploadSession.
Record t : Type := mk {
  media_id : string;
  idempotency_key : string;
  metadata : MediaMetadata.t;
  chunks_received : gset Z;
  completed : bool
}.
End UploadSession.

Module QuotaInfo.
Record t : Type := mk {
  used_bytes : Z;
  max_bytes : Z;
  uploads_today : Z;
  max_uploads_per_day : Z
}.
End QuotaInfo.

(** ** The Arkiv network, as seen through the SDK *)

Inductive AttrValue : Type := AStr (s : string) | ANum (n : Z).

Definition AttrValue_eqb (a b : AttrValue) : bool :=
  match a, b with
  | AStr s, AStr s' => String.eqb s s'
  | ANum n, ANum n' => n =? n'
  | _, _ => false
  end.

(** An entity payload is a byte string.  The bytes [jsonToPayload] produces
    for a metadata document are represented by the document itself;
    [JSON.parse] gives it back. *)
Inductive Payload : Type :=
| RawBytes (b : Buffer)
| JsonDoc (doc : MediaMetadata.t).

Module Entity.
Record t : Type := mk {
  owner : string;
  payload : option Payload;
  attributes : list (string * AttrValue);
  contentType : string;
  expiresAtBlock : Z
}.
End Entity.

(** ** State *)

Record Sys : Type := mkSys {
  (* platform: [crypto.randomUUID] and the clock *)
  uuid_source : nat -> string;
  uuid_count : nat;
  now_ms : Z;
  (* the Arkiv network: stored entities (oldest first), block timing, and
     for each coming RPC whether it is answered or rejected with an error *)
  entities : list Entity.t;
  rpc_faults : list (option string);
  block_height : Z;
  block_duration : Z;
  (* ArkivStorage, once [initializeClient] has run *)
  walletClient : option string;
  ownerAddress : option string;
  (* QuotaService *)
  userUsage : gmap string QuotaInfo.t;
  (* UploadService *)
  uploadSessions : gmap string UploadSession.t
}.

Definition set_uuid_count (n : nat) (s : Sys) : Sys :=
  mkSys (uuid_source s) n (now_ms s) (entities s) (rpc_faults s)
        (block_height s) (block_duration s) (walletClient s) (ownerAddress s)
        (userUsage s) (uploadSessions s).

Definition set_entities (es : list Entity.t) (s : Sys) : Sys :=
  mkSys (uuid_source s) (uuid_count s) (now_ms s) es (rpc_faults s)
        (block_height s) (block_duration s) (walletClient s) (ownerAddress s)
        (userUsage s) (uploadSessions s).

Definition set_rpc_faults (fs : list (option string)) (s : Sys) : Sys :=
  mkSys (uuid_source s) (uuid_count s) (now_ms s) (entities s) fs
        (block_height s) (block_duration s) (walletClient s) (ownerAddress s)
        (userUsage s) (uploadSessions s).

Definition set_time (now height duration : Z) (s : Sys) : Sys :=
  mkSys (uuid_source s) (uuid_count s) now (entities s) (rpc_faults s)
        height duration (walletClient s) (ownerAddress s)
        (userUsage s) (uploadSessions s).

Definition set_userUsage (u : gmap string QuotaInfo.t) (s : Sys) : Sys :=
  mkSys (uuid_source s) (uuid_count s) (now_ms s) (entities s) (rpc_faults s)
        (block_height s) (block_duration s) (walletClient s) (ownerAddress s)
        u (uploadSessions s).

Definition set_uploadSessions (m : gmap string UploadSession.t) (s : Sys) : Sys :=
  mkSys (uuid_source s) (uuid_count s) (now_ms s) (entities s) (rpc_faults s)
        (block_height s) (block_duration s) (walletClient s) (ownerAddress s)
        (userUsage s) m.

(** ** A state-and-exception monad

    A computation either returns a value or throws; in both cases the state
    it has reached is kept, as the heap is in JavaScript.  A thrown value is
    represented by the text that a template literal renders it to. *)

Inductive outcome (A : Type) : Type :=
| Ok (a : A)
| Thrown (e : string).
Arguments Ok {A} a.
Arguments Thrown {A} e.

Definition M (A : Type) : Type := Sys -> outcome A * Sys.

Definition ret {A} (a : A) : M A := fun s => (Ok a, s).
Definition throw {A} (e : string) : M A := fun s => (Thrown e, s).
Definition bind {A B} (m : M A) (k : A -> M B) : M B :=
  fun s => match m s with
           | (Ok a, s') => k a s'
           | (Thrown e, s') => (Thrown e, s')
           end.
Definition try_catch {A} (m : M A) (handler : string -> M A) : M A :=
  fun s => match m s with
           | (Ok a, s') => (Ok a, s')
           | (Thrown e, s') => handler e s'
           end.
Definition gets {A} (f : Sys -> A) : M A := fun s => (Ok (f s), s).
Definition modify (f : Sys -> Sys) : M unit := fun s => (Ok tt, f s).

Notation "'let!' x ':=' m 'in' k" := (bind m (fun x => k))
  (at level 10, x name, m at level 100, k at level 200).
Notation "'run!' m 'in' k" := (bind m (fun _ => k))
  (at level 10, m at level 100, k at level 200).

(** [new Error(msg)] rendered by a template literal. *)
Definition Error (msg : string) : string := ("Error: " ++ msg)%string.

(** ** Platform *)

Definition randomUUID : M string :=
  fun s => (Ok (uuid_source s (uuid_count s)), set_uuid_count (S (uuid_count s)) s).

(** [new Date()] and [Date.now()], in milliseconds. *)
Definition newDate : M Z := gets now_ms.

(** [Buffer.subarray(start, end)]: negative indices count from the end and
    both bounds are clamped to the buffer. *)
Definition clamp_index (len i : Z) : Z :=
  if i <? 0 then Z.max (len + i) 0 else Z.min i len.

Definition subarray (buf : Buffer) (start stop : Z) : Buffer :=
  let len := blen buf in
  let s := clamp_index len start in
  let e := clamp_index len stop in
  firstn (Z.to_nat (e - s)) (skipn (Z.to_nat s) buf).

(** [Array.prototype.sort(compare)]: a stable sort; [a] stays before [b]
    unless [compare a b] is positive. *)
Fixpoint sort_insert {A} (compare : A -> A -> Z) (a : A) (l : list A) : list A :=
  match l with
  | [] => [a]
  | b :: l' =>
      if compare a b <=? 0 then a :: b :: l'
      else b :: sort_insert compare a l'
  end.

Definition sort {A} (compare : A -> A -> Z) (l : list A) : list A :=
  foldr (sort_insert compare) [] l.

(** [Math.ceil(a / b)] on non-negative integers. *)
Definition ceil_div (a b : Z) : Z :=
  if a mod b =? 0 then a / b else a / b + 1.

(** ** ChunkingService ([src/services/chunking.ts]) *)

Module ChunkingService.

Definition generateMediaId : M string := randomUUID.

Definition calculateChecksum (data : Buffer) : string := SHA256.sha256_hex data.

(** The [for] loop of [chunkFile], started at offset [i].  [fuel] bounds
    the number of iterations. *)
Fixpoint chunkLoop (fuel : nat) (chunkSize : Z) (fileBuffer : Buffer)
    (media_id : string) (expiration_block : Z) (i : Z)
    : M (list ChunkEntity.t) :=
  match fuel with
  | O => ret []
  | S fuel' =>
      if i <? blen fileBuffer then
        let chunkData := subarray fileBuffer i (i + chunkSize) in
        let chunk_index := i / chunkSize in
        let! id := randomUUID in
        let! created_at := newDate in
        let chunk :=
          ChunkEntity.mk id media_id chunk_index chunkData
            (calculateChecksum chunkData) created_at expiration_block in
        let! rest := chunkLoop fuel' chunkSize fileBuffer media_id
                       expiration_block (i + chunkSize) in
        ret (chunk :: rest)
      else ret []
  end.

(** [chunkFile] for a chunk size [chunkSize]; with a positive chunk size
    the loop runs at most once per byte. *)
Definition chunkWith (chunkSize : Z) (fileBuffer : Buffer)
    (media_id : string) (expiration_block : Z) : M (list ChunkEntity.t) :=
  chunkLoop (length fileBuffer) chunkSize fileBuffer media_id expiration_block 0.

Definition chunkFile : Buffer -> string -> Z -> M (list ChunkEntity.t) :=
  chunkWith CONFIG.CHUNK_SIZE.

Definition createMetadata (media_id original_filename content_type : string)
    (fileBuffer : Buffer) (btl_days expiration_block : Z) : M MediaMetadata.t :=
  let chunk_count := ceil_div (blen fileBuffer) CONFIG.CHUNK_SIZE in
  let! created_at := newDate in
  ret (MediaMetadata.mk media_id original_filename content_type
         (blen fileBuffer) chunk_count (calculateChecksum fileBuffer)
         created_at expiration_block btl_days).

Definition reassembleFile (chunks : list ChunkEntity.t) : Buffer :=
  let sorted :=
    sort (fun a b => ChunkEntity.chunk_index a - ChunkEntity.chunk_index b)
         chunks in
  let buffers := map ChunkEntity.data sorted in
  concat buffers.

Definition validateFileIntegrity (originalChecksum : string)
    (reassembledBuffer : Buffer) : bool :=
  let reassembledChecksum := calculateChecksum reassembledBuffer in
  String.eqb originalChecksum reassembledChecksum.

End ChunkingService.

(** ** ArkivStorage (the SDK-based storage backend) *)

Module ArkivStorage.

Definition BLOCK_TIME_SECONDS : Z := 2.
Definition BLOCKS_PER_DAY : Z := 86400 / BLOCK_TIME_SECONDS.

(** *** The SDK calls the backend makes *)

(** One RPC: answered, or rejected with the error the network reports.
    [rpc_faults] says which for each coming call; past its end every call
    is answered. *)
Definition rpc : M unit :=
  fun s => (match head (rpc_faults s) with
            | Some (Some e) => Thrown e
            | _ => Ok tt
            end,
            set_rpc_faults (tail (rpc_faults s)) s).

(** [wallet.createEntity({payload, attributes, contentType, expiresIn})] *)
Definition createEntity (account : string) (payload : Payload)
    (attributes : list (string * AttrValue)) (contentType : string)
    (expiresIn : Z) : M unit :=
  run! rpc in
  modify (fun s =>
    set_entities
      (entities s ++
         [Entity.mk account (Some payload) attributes contentType
                    (block_height s + expiresIn / block_duration s)]) s).

(** [eq(key, value)] *)
Definition has_attribute (e : Entity.t) (cond : string * AttrValue) : bool :=
  existsb (fun a => String.eqb (fst a) (fst cond)
                    && AttrValue_eqb (snd a) (snd cond))
          (Entity.attributes e).

Definition matches (ownerAddress : string)
    (conds : list (string * AttrValue)) (e : Entity.t) : bool :=
  String.eqb (Entity.owner e) ownerAddress && forallb (has_attribute e) conds.

(** [buildQuery().ownedBy(owner).where(conds).limit(n).fetch()] *)
Definition fetch (ownerAddress : string) (conds : list (string * AttrValue))
    (limit : nat) : M (list Entity.t) :=
  run! rpc in
  gets (fun s => firstn limit (List.filter (matches ownerAddress conds) (entities s))).

(** [JSON.parse(Buffer.from(payload).toString('utf8'))] *)
Definition JSON_parse (p : Payload) : M MediaMetadata.t :=
  match p with
  | JsonDoc doc => ret doc
  | RawBytes _ => throw "SyntaxError: JSON Parse error"
  end.

(** [Number(v)] and [String(v)] on attribute values.  This backend writes
    [chunk_index] as a number; a string is read as the decimal numeral it
    spells, and as 0 when it spells none (where JavaScript has NaN). *)
Definition Number (v : AttrValue) : Z :=
  match v with
  | ANum n => n
  | AStr s => match NilEmpty.uint_of_string s with
              | Some u => Z.of_uint u
              | None => 0
              end
  end.

Definition String_ (v : AttrValue) : string :=
  match v with
  | ANum n => pretty n
  | AStr s => s
  end.

(** *** The class *)

Definition requireWalletClient : M string :=
  let! w := gets walletClient in
  match w with
  | None => throw (Error "Write operations not available - wallet client is not configured")
  | Some wallet => ret wallet
  end.

Definition requireOwnerAddress : M string :=
  let! o := gets ownerAddress in
  match o with
  | Some a => ret a
  | None => throw (Error "Owner address not configured; set ARKIV_PRIVATE_KEY or ARKIV_OWNER_ADDRESS")
  end.

(** The timing comes from the cache, the network or the fallback
    estimate; whichever it is, the call returns one and never throws.
    The model keeps the current timing in the state. *)
Definition getBlockTiming : M (Z * Z) :=
  gets (fun s => (block_height s, block_duration s)).

Definition getExpiresInSeconds (targetBlock : Z) : M Z :=
  let! timing := getBlockTiming in
  let currentBlock := fst timing in
  let target := Z.max targetBlock 0 in
  let deltaBlocks := Z.max (target - currentBlock) 0 in
  let expiresIn := deltaBlocks * snd timing in
  ret (Z.max expiresIn (snd timing)).

Definition entityAttribute (entity : Entity.t) (key : string) : option AttrValue :=
  snd <$> List.find (fun attr => String.eqb (fst attr) key) (Entity.attributes entity).

Definition storeChunk (chunk : ChunkEntity.t) : M unit :=
  let! wallet := requireWalletClient in
  try_catch
    (let! expiresIn := getExpiresInSeconds (ChunkEntity.expiration_block chunk) in
     let payload := RawBytes (ChunkEntity.data chunk) in
     createEntity wallet payload
       [ ("media_id", AStr (ChunkEntity.media_id chunk));
         ("type", AStr "image_chunk");
         ("chunk_index", ANum (ChunkEntity.chunk_index chunk + 1));
         ("checksum", AStr (ChunkEntity.checksum chunk)) ]%string
       "application/octet-stream" expiresIn)
    (fun error => throw error).

(** The body of the [map] in [getAllChunks].  The bytes of a metadata
    document are not modelled; no chunk entity carries one. *)
Definition chunk_of_entity (media_id : string) (entity : Entity.t) : MediaChunk.t :=
  let payload := match Entity.payload entity with
                 | Some (RawBytes b) => b
                 | Some (JsonDoc _) => []
                 | None => []
                 end in
  let chunkIndex := Number (default (ANum 0) (entityAttribute entity "chunk_index")) in
  let checksum := String_ (default (AStr EmptyString) (entityAttribute entity "checksum")) in
  MediaChunk.mk media_id chunkIndex (toBase64 payload) checksum
                (Entity.expiresAtBlock entity).

Definition getAllChunks (media_id : string) : M (list MediaChunk.t) :=
  try_catch
    (let! owner := try_catch (let! a := requireOwnerAddress in ret (Some a))
                             (fun _ => ret None) in
     match owner with
     | None => ret []
     | Some ownerAddress =>
         let! queryResult :=
           fetch ownerAddress
             [("type", AStr "image_chunk"); ("media_id", AStr media_id)]%string
             1000 in
         let chunks := map (chunk_of_entity media_id) queryResult in
         ret (sort (fun a b => MediaChunk.chunk_index a - MediaChunk.chunk_index b)
                   chunks)
     end)
    (fun error => throw error).

Definition storeMetadata (metadata : MediaMetadata.t) : M unit :=
  let! wallet := requireWalletClient in
  try_catch
    (let! expiresIn := getExpiresInSeconds (MediaMetadata.expiration_block metadata) in
     let payload :=
       JsonDoc (MediaMetadata.mk
                  (MediaMetadata.media_id metadata)
                  (MediaMetadata.filename metadata)
                  (MediaMetadata.content_type metadata)
                  (MediaMetadata.file_size metadata)
                  (MediaMetadata.chunk_count metadata)
                  (MediaMetadata.checksum metadata)
                  (MediaMetadata.created_at metadata)
                  (MediaMetadata.expiration_block metadata)
                  (MediaMetadata.btl_days metadata)) in
     createEntity wallet payload
       [ ("media_id", AStr (MediaMetadata.media_id metadata));
         ("type", AStr "image_metadata");
         ("filename", AStr (MediaMetadata.filename metadata));
         ("content_type", AStr (MediaMetadata.content_type metadata)) ]%string
       "application/json" expiresIn)
    (fun error => throw error).

Definition getMetadata (media_id : string) : M (option MediaMetadata.t) :=
  try_catch
    (let! owner := try_catch (let! a := requireOwnerAddress in ret (Some a))
                             (fun _ => ret None) in
     match owner with
     | None => ret None
     | Some ownerAddress =>
         let! queryResult :=
           fetch ownerAddress
             [("type", AStr "image_metadata"); ("media_id", AStr media_id)]%string
             1 in
         match queryResult with
         | [] => ret None
         | entity :: _ =>
             match Entity.payload entity with
             | None => ret None
             | Some payload =>
                 let! metadataJson := JSON_parse payload in
                 ret (Some (MediaMetadata.mk
                              (MediaMetadata.media_id metadataJson)
                              (MediaMetadata.filename metadataJson)
                              (MediaMetadata.content_type metadataJson)
                              (MediaMetadata.file_size metadataJson)
                              (MediaMetadata.chunk_count metadataJson)
                              (MediaMetadata.checksum metadataJson)
                              (MediaMetadata.created_at metadataJson)
                              (MediaMetadata.expiration_block metadataJson)
                              (MediaMetadata.btl_days metadataJson)))
             end
         end
     end)
    (fun _ => ret None).

Definition calculateExpirationBlock (btlDays : Z) : M Z :=
  let! now := newDate in
  let currentBlockEstimate := now / (BLOCK_TIME_SECONDS * 1000) in
  ret (currentBlockEstimate + btlDays * BLOCKS_PER_DAY).

End ArkivStorage.

(** ** QuotaService ([src/services/quota.ts]) *)

Inductive QuotaCheck : Type :=
| Allowed
| Denied (reason : string).

Module QuotaService.

Definition getUserQuota (userId : string) : M QuotaInfo.t :=
  let! usage := gets userUsage in
  match usage !! userId with
  | Some quota => ret quota
  | None =>
      let quota := QuotaInfo.mk 0 CONFIG.FREE_TIER_MAX_BYTES
                                0 CONFIG.FREE_TIER_MAX_UPLOADS_PER_DAY in
      run! modify (fun s => set_userUsage (<[userId := quota]> (userUsage s)) s) in
      ret quota
  end.

Definition checkQuota (userId : string) (fileSize : Z) : M QuotaCheck :=
  let! quota := getUserQuota userId in
  if QuotaInfo.used_bytes quota + fileSize >? QuotaInfo.max_bytes quota then
    ret (Denied ("Quota exceeded. Used: " ++ pretty (QuotaInfo.used_bytes quota)
                 ++ "/" ++ pretty (QuotaInfo.max_bytes quota) ++ " bytes"))
  else if QuotaInfo.uploads_today quota >=? QuotaInfo.max_uploads_per_day quota then
    ret (Denied ("Daily upload limit exceeded. Used: "
                 ++ pretty (QuotaInfo.uploads_today quota) ++ "/"
                 ++ pretty (QuotaInfo.max_uploads_per_day quota) ++ " uploads"))
  else ret Allowed.

Definition updateUsage (userId : string) (fileSize : Z) : M unit :=
  let! quota := getUserQuota userId in
  let quota' := QuotaInfo.mk (QuotaInfo.used_bytes quota + fileSize)
                             (QuotaInfo.max_bytes quota)
                             (QuotaInfo.uploads_today quota + 1)
                             (QuotaInfo.max_uploads_per_day quota) in
  modify (fun s => set_userUsage (<[userId := quota']> (userUsage s)) s).

Definition getQuotaInfo (userId : string) : M QuotaInfo.t := getUserQuota userId.

End QuotaService.

(** ** UploadService ([src/services/upload.ts]) *)

Inductive UploadResult : Type :=
| UploadOk (media_id : string)
| UploadFail (error : string).

Inductive MediaResult : Type :=
| MediaOk (buffer : Buffer) (metadata : MediaMetadata.t)
| MediaFail (error : string).

Record ChunkInfoEntry : Type := mkChunkInfoEntry {
  info_chunk_index : Z;
  info_size : Z;
  info_checksum : string;
  info_expiration_block : Z
}.

Record ChunkInfo : Type := mkChunkInfo {
  total_chunks : Z;
  info_file_size : Z;
  info_content_type : string;
  info_filename : string;
  info_entities : list ChunkInfoEntry
}.

Inductive ChunkInfoResult : Type :=
| ChunkInfoOk (chunks : ChunkInfo)
| ChunkInfoFail (error : string).

Module UploadService.

Definition isValidImageType (contentType : string) : bool :=
  existsb (String.eqb contentType) ["image/jpeg"; "image/png"]%string.

Definition findExistingSession (idempotencyKey : string)
    : M (option UploadSession.t) :=
  gets (fun s => uploadSessions s !! idempotencyKey).

(** [session.chunks_received.add(i)] and [session.completed = true]: the
    session object is the one held by [uploadSessions]. *)
Definition add_received (i : Z) (session : UploadSession.t) : UploadSession.t :=
  UploadSession.mk (UploadSession.media_id session)
                   (UploadSession.idempotency_key session)
                   (UploadSession.metadata session)
                   ({[ i ]} ∪ UploadSession.chunks_received session)
                   (UploadSession.completed session).

Definition set_completed (session : UploadSession.t) : UploadSession.t :=
  UploadSession.mk (UploadSession.media_id session)
                   (UploadSession.idempotency_key session)
                   (UploadSession.metadata session)
                   (UploadSession.chunks_received session)
                   true.

Definition update_session (idempotencyKey : string)
    (f : UploadSession.t -> UploadSession.t) : M unit :=
  modify (fun s => set_uploadSessions (alter f idempotencyKey (uploadSessions s)) s).

(** [for (const chunk of chunks) { await storeChunk(chunk); ... }] *)
Fixpoint storeChunks (idempotencyKey : string) (chunks : list ChunkEntity.t)
    : M unit :=
  match chunks with
  | [] => ret tt
  | chunk :: rest =>
      run! ArkivStorage.storeChunk chunk in
      run! update_session idempotencyKey
             (add_received (ChunkEntity.chunk_index chunk)) in
      storeChunks idempotencyKey rest
  end.

Definition initiateUpload (fileBuffer : Buffer)
    (filename contentType idempotencyKey userId : string) (btlDays : Z)
    : M UploadResult :=
  if blen fileBuffer >? CONFIG.MAX_FILE_SIZE then
    ret (UploadFail ("File too large. Max size: "
                     ++ pretty CONFIG.MAX_FILE_SIZE ++ " bytes"))
  else if negb (isValidImageType contentType) then
    ret (UploadFail "Only JPEG and PNG files are supported")
  else
    let! quotaCheck := QuotaService.checkQuota userId (blen fileBuffer) in
    match quotaCheck with
    | Denied reason => ret (UploadFail reason)
    | Allowed =>
        let! existingSession := findExistingSession idempotencyKey in
        match existingSession with
        | Some session => ret (UploadOk (UploadSession.media_id session))
        | None =>
            let! media_id := ChunkingService.generateMediaId in
            let! expiration_block := ArkivStorage.calculateExpirationBlock btlDays in
            let! metadata :=
              ChunkingService.createMetadata media_id filename contentType
                fileBuffer btlDays expiration_block in
            let session :=
              UploadSession.mk media_id idempotencyKey metadata ∅ false in
            run! modify (fun s =>
                   set_uploadSessions
                     (<[idempotencyKey := session]> (uploadSessions s)) s) in
            let! chunks :=
              ChunkingService.chunkFile fileBuffer media_id expiration_block in
            try_catch
              (run! storeChunks idempotencyKey chunks in
               run! ArkivStorage.storeMetadata metadata in
               run! update_session idempotencyKey set_completed in
               run! QuotaService.updateUsage userId (blen fileBuffer) in
               ret (UploadOk media_id))
              (fun error => ret (UploadFail ("Upload failed: " ++ error)))
        end
    end.

Definition getMedia (media_id : string) : M MediaResult :=
  try_catch
    (let! metadata := ArkivStorage.getMetadata media_id in
     match metadata with
     | None => ret (MediaFail "Media not found or expired")
     | Some metadata =>
         let! chunks := ArkivStorage.getAllChunks media_id in
         if blen chunks =? 0 then
           ret (MediaFail "Media chunks not found or incomplete")
         else
           let! now := newDate in
           let chunkEntities :=
             map (fun chunk =>
                    ChunkEntity.mk EmptyString (MediaChunk.media_id chunk)
                      (MediaChunk.chunk_index chunk)
                      (fromBase64 (MediaChunk.data chunk))
                      (MediaChunk.checksum chunk) now
                      (MediaChunk.expiration_block chunk))
                 chunks in
           let reassembledBuffer := ChunkingService.reassembleFile chunkEntities in
           if negb (ChunkingService.validateFileIntegrity
                      (MediaMetadata.checksum metadata) reassembledBuffer)
           then ret (MediaFail "File integrity check failed")
           else ret (MediaOk reassembledBuffer metadata)
     end)
    (fun error => ret (MediaFail ("Retrieval failed: " ++ error))).

Definition getUploadStatus (idempotencyKey : string) : M (option UploadSession.t) :=
  gets (fun s => uploadSessions s !! idempotencyKey).

Definition getChunkInfo (media_id : string) : M ChunkInfoResult :=
  try_catch
    (let! metadata := ArkivStorage.getMetadata media_id in
     match metadata with
     | None => ret (ChunkInfoFail "Media not found or expired")
     | Some metadata =>
         let! chunks := ArkivStorage.getAllChunks media_id in
         if blen chunks =? 0 then
           ret (ChunkInfoFail "Media chunks not found or incomplete")
         else
           let chunkInfo :=
             map (fun chunk =>
                    mkChunkInfoEntry (MediaChunk.chunk_index chunk)
                      (blen (fromBase64 (MediaChunk.data chunk)))
                      (MediaChunk.checksum chunk)
                      (MediaChunk.expiration_block chunk))
                 chunks in
           ret (ChunkInfoOk
                  (mkChunkInfo (MediaMetadata.chunk_count metadata)
                     (MediaMetadata.file_size metadata)
                     (MediaMetadata.content_type metadata)
                     (MediaMetadata.filename metadata)
                     chunkInfo))
     end)
    (fun error => ret (ChunkInfoFail ("Failed to get chunk info: " ++ error))).

End UploadService.

(** * Vocabulary of the specification *)

(** ** Chunking *)

(** The offsets, indices and windows that the loop of [chunkFile] visits. *)
Fixpoint slices (fuel : nat) (chunkSize : Z) (buf : Buffer) (i : Z)
    : list (Z * Buffer) :=
  match fuel with
  | O => []
  | S fuel' =>
      if i <? blen buf
      then (i / chunkSize, subarray buf i (i + chunkSize))
             :: slices fuel' chunkSize buf (i + chunkSize)
      else []
  end.

Definition index_and_data (c : ChunkEntity.t) : Z * Buffer :=
  (ChunkEntity.chunk_index c, ChunkEntity.data c).

(** What a chunk record says about the file, as opposed to when and under
    which record id it was produced. *)
Definition chunk_content (c : ChunkEntity.t) : Z * Buffer * string :=
  (ChunkEntity.chunk_index c, ChunkEntity.data c, ChunkEntity.checksum c).

Definition is_lower_hex (c : ascii) : bool :=
  existsb (Ascii.eqb c) (list_ascii_of_string "0123456789abcdef").

(** ** Quota *)

Definition fresh_quota : QuotaInfo.t :=
  QuotaInfo.mk 0 CONFIG.FREE_TIER_MAX_BYTES 0 CONFIG.FREE_TIER_MAX_UPLOADS_PER_DAY.

(** The record [getQuotaInfo] reports for a user in state [s]. *)
Definition quota_of (s : Sys) (userId : string) : QuotaInfo.t :=
  default fresh_quota (userUsage s !! userId).

(** The state after a user's record has been looked up: an unseen user has
    got the free-tier record. *)
Definition touch (userId : string) (s : Sys) : Sys :=
  set_userUsage
    (match userUsage s !! userId with
     | Some _ => userUsage s
     | None => <[userId := fresh_quota]> (userUsage s)
     end) s.

(** A user's record after one committed upload of [bytes] bytes. *)
Definition committed (q : QuotaInfo.t) (bytes : Z) : QuotaInfo.t :=
  QuotaInfo.mk (QuotaInfo.used_bytes q + bytes) (QuotaInfo.max_bytes q)
               (QuotaInfo.uploads_today q + 1) (QuotaInfo.max_uploads_per_day q).

(** ** What the backend persists *)

Definition expires_in (height duration targetBlock : Z) : Z :=
  Z.max (Z.max (Z.max targetBlock 0 - height) 0 * duration) duration.

(** The entity [storeChunk] creates for a chunk. *)
Definition stored_chunk (wallet : string) (height duration : Z)
    (c : ChunkEntity.t) : Entity.t :=
  Entity.mk wallet (Some (RawBytes (ChunkEntity.data c)))
    [ ("media_id", AStr (ChunkEntity.media_id c));
      ("type", AStr "image_chunk");
      ("chunk_index", ANum (ChunkEntity.chunk_index c + 1));
      ("checksum", AStr (ChunkEntity.checksum c)) ]%string
    "application/octet-stream"
    (height + expires_in height duration (ChunkEntity.expiration_block c) / duration).

(** The entity [storeMetadata] creates for a metadata record. *)
Definition stored_metadata (wallet : string) (height duration : Z)
    (md : MediaMetadata.t) : Entity.t :=
  Entity.mk wallet
    (Some (JsonDoc (MediaMetadata.mk
                      (MediaMetadata.media_id md) (MediaMetadata.filename md)
                      (MediaMetadata.content_type md) (MediaMetadata.file_size md)
                      (MediaMetadata.chunk_count md) (MediaMetadata.checksum md)
                      (MediaMetadata.created_at md)
                      (MediaMetadata.expiration_block md)
                      (MediaMetadata.btl_days md))))
    [ ("media_id", AStr (MediaMetadata.media_id md));
      ("type", AStr "image_metadata");
      ("filename", AStr (MediaMetadata.filename md));
      ("content_type", AStr (MediaMetadata.content_type md)) ]%string
    "application/json"
    (height + expires_in height duration (MediaMetadata.expiration_block md) / duration).


(** The [ChunkEntity] that [getMedia] rebuilds from a fetched chunk. *)
Definition entity_of_chunk (now : Z) (chunk : MediaChunk.t) : ChunkEntity.t :=
  ChunkEntity.mk EmptyString (MediaChunk.media_id chunk) (MediaChunk.chunk_index chunk)
    (fromBase64 (MediaChunk.data chunk)) (MediaChunk.checksum chunk) now
    (MediaChunk.expiration_block chunk).

(** ** Operations and events *)

(** The public operations of [UploadService]. *)
Inductive Op : Type :=
| InitiateUpload (fileBuffer : Buffer)
    (filename contentType idempotencyKey userId : string) (btlDays : Z)
| GetMedia (media_id : string)
| GetUploadStatus (idempotencyKey : string)
| GetChunkInfo (media_id : string).

(** The state an operation leaves behind. *)
Definition call (op : Op) (s : Sys) : Sys :=
  match op with
  | InitiateUpload fileBuffer filename contentType idempotencyKey userId btlDays =>
      snd (UploadService.initiateUpload fileBuffer filename contentType
             idempotencyKey userId btlDays s)
  | GetMedia media_id => snd (UploadService.getMedia media_id s)
  | GetUploadStatus idempotencyKey =>
      snd (UploadService.getUploadStatus idempotencyKey s)
  | GetChunkInfo media_id => snd (UploadService.getChunkInfo media_id s)
  end.

(** What can happen to the system: a call of the service, or something the
    environment does (an entity expires in the store, time passes and
    blocks are produced, the network changes its mind about coming RPCs). *)
Inductive Event : Type :=
| Call (op : Op)
| Expire (position : nat)
| Tick (now height duration : Z)
| Network (faults : list (option string)).

Definition happen (s : Sys) (ev : Event) : Sys :=
  match ev with
  | Call op => call op s
  | Expire position => set_entities (delete position (entities s)) s
  | Tick now height duration => set_time now height duration s
  | Network faults => set_rpc_faults faults s
  end.

Definition after (evs : list Event) (s : Sys) : Sys := foldl happen s evs.

(** ** A concrete deployment *)

Definition uuid_of (n : nat) : string := ("uuid-" ++ pretty n)%string.

(** A freshly started service with a configured wallet and an empty store. *)
Definition boot : Sys :=
  mkSys uuid_of 0 1700000000000 [] [] 850000000 2
        (Some "0xA11CE"%string) (Some "0xA11CE"%string) ∅ ∅.

(** The eight bytes of the PNG signature. *)
Definition tiny_png : Buffer := [x89; x50; x4e; x47; x0d; x0a; x1a; x0a].

(** ** ArkivMemoryStorage (the in-memory backend, [src/server.ts])

    The class keeps two maps and a block number that nothing advances.  Its
    methods are modelled by explicit state passing; only [storeChunk] can
    throw. *)

Module ArkivMemoryStorage.

Record t : Type := mk {
  chunks : gmap string ChunkEntity.t;
  metadata : gmap string MediaMetadata.t;
  currentBlock : Z
}.

(** [new ArkivMemoryStorage()] *)
Definition new : t := mk ∅ ∅ 1000000.

Definition getCurrentBlock (st : t) : Z := currentBlock st.

(** The template literal with the media id, an underscore and the chunk
    index in decimal. *)
Definition chunk_key (media_id : string) (chunk_index : Z) : string :=
  (media_id ++ "_" ++ pretty chunk_index)%string.

Definition storeChunk (chunk : ChunkEntity.t) (st : t) : outcome unit * t :=
  let key := chunk_key (ChunkEntity.media_id chunk) (ChunkEntity.chunk_index chunk) in
  match chunks st !! key with
  | Some existing =>
      if negb (String.eqb (ChunkEntity.checksum existing) (ChunkEntity.checksum chunk))
      then (Thrown (Error "Chunk checksum mismatch - data corruption detected"), st)
      else (Ok tt, st)
  | None =>
      (Ok tt, mk (<[key := chunk]> (chunks st)) (metadata st) (currentBlock st))
  end.

Definition getChunk (media_id : string) (chunk_index : Z) (st : t)
    : option ChunkEntity.t * t :=
  let key := chunk_key media_id chunk_index in
  match chunks st !! key with
  | None => (None, st)
  | Some chunk =>
      if ChunkEntity.expiration_block chunk <=? getCurrentBlock st
      then (None, mk (delete key (chunks st)) (metadata st) (currentBlock st))
      else (Some chunk, st)
  end.

Definition storeMetadata (meta : MediaMetadata.t) (st : t) : t :=
  mk (chunks st) (<[MediaMetadata.media_id meta := meta]> (metadata st))
     (currentBlock st).

Definition getMetadata (media_id : string) (st : t) : option MediaMetadata.t * t :=
  match metadata st !! media_id with
  | None => (None, st)
  | Some meta =>
      if MediaMetadata.expiration_block meta <=? getCurrentBlock st
      then (None, mk (chunks st) (delete media_id (metadata st)) (currentBlock st))
      else (Some meta, st)
  end.

(** The [for] loop of [getAllChunks], at index [i] with the chunks found so
    far; [fuel] bounds the number of iterations. *)
Fixpoint getAllChunks_loop (fuel : nat) (media_id : string) (chunk_count i : Z)
    (found : list ChunkEntity.t) (st : t) : list ChunkEntity.t * t :=
  match fuel with
  | O => (found, st)
  | S fuel' =>
      if i <? chunk_count then
        match getChunk media_id i st with
        | (None, st') => ([], st')
        | (Some chunk, st') =>
            getAllChunks_loop fuel' media_id chunk_count (i + 1) (found ++ [chunk]) st'
        end
      else (found, st)
  end.

Definition getAllChunks (media_id : string) (st : t) : list ChunkEntity.t * t :=
  match getMetadata media_id st with
  | (None, st') => ([], st')
  | (Some meta, st') =>
      getAllChunks_loop (Z.to_nat (MediaMetadata.chunk_count meta)) media_id
        (MediaMetadata.chunk_count meta) 0 [] st'
  end.

Definition calculateExpirationBlock (btl_days : Z) (st : t) : Z :=
  getCurrentBlock st + btl_days * 2880.

End ArkivMemoryStorage.

(** ** ImageDB, the JavaScript client ([public/sdk/imagedb-sdk.js]) *)

Module ImageDB.

(** What [validateFile] reads of a [File]. *)
Record File : Type := mkFile {
  size : Z;
  type : string;
  name : string
}.

(** The object [validateFile] returns; the last three fields are absent
    when no file was given. *)
Record Validation : Type := mkValidation {
  valid : bool;
  errors : list string;
  validated_size : option Z;
  validated_type : option string;
  validated_name : option string
}.

Definition validateFile (file : option File) : Validation :=
  match file with
  | None => mkValidation false ["No file provided"%string] None None None
  | Some file =>
      let errors := [] in
      let errors :=
        if size file >? 25 * 1024 * 1024
        then errors ++ ["File size exceeds 25MB limit"%string] else errors in
      let errors :=
        if negb (existsb (String.eqb (type file)) ["image/png"; "image/jpeg"]%string)
        then errors ++ ["Only PNG and JPEG files are supported"%string] else errors in
      mkValidation (length errors =? 0)%nat errors
        (Some (size file)) (Some (type file)) (Some (name file))
  end.

End ImageDB.

(** ** JavaScript numbers and strings, where the routes format them

    A JavaScript number is an IEEE 754 double, here the kernel's
    [PrimFloat.float].  [of_Z] is the double of an integer (exact below
    2^53); [toFixed] follows ECMA-262, [Number.prototype.toFixed]: the
    decimal numeral of the integer nearest to [x * 10^f], ties towards the
    larger, with a point before its last [f] digits.  From 10^21 on
    JavaScript falls back to exponent notation, which is not modelled:
    [toFixed] gives [None] there. *)

Module JSNumber.

Definition of_Z (n : Z) : PrimFloat.float :=
  FloatOps.SF2Prim (SpecFloat.binary_normalize FloatOps.prec FloatOps.emax n 0 false).

Definition digits_with_point (fractionDigits : nat) (n : Z) : string :=
  let m := pretty n in
  let k := String.length m in
  let m := if (k <=? fractionDigits)%nat
           then (string_of_list_ascii (repeat "0"%char (fractionDigits + 1 - k)) ++ m)%string
           else m in
  let k := String.length m in
  if (fractionDigits =? 0)%nat then m
  else (String.substring 0 (k - fractionDigits) m ++ "."
        ++ String.substring (k - fractionDigits) fractionDigits m)%string.

Definition toFixed (fractionDigits : nat) (x : PrimFloat.float) : option string :=
  match FloatOps.Prim2SF x with
  | SpecFloat.S754_nan => Some "NaN"%string
  | SpecFloat.S754_infinity false => Some "Infinity"%string
  | SpecFloat.S754_infinity true => Some "-Infinity"%string
  | SpecFloat.S754_zero _ => Some (digits_with_point fractionDigits 0)
  | SpecFloat.S754_finite negative mantissa exponent =>
      let num := Z.pos mantissa * 2 ^ Z.max exponent 0 in
      let den := 2 ^ Z.max (- exponent) 0 in
      if 10 ^ 21 * den <=? num then None
      else
        let n := (2 * 10 ^ Z.of_nat fractionDigits * num + den) / (2 * den) in
        Some ((if negative then "-" else "") ++ digits_with_point fractionDigits n)%string
  end.

End JSNumber.

(** [String.prototype.includes] *)
Fixpoint includes (needle haystack : string) : bool :=
  String.prefix needle haystack
  || match haystack with
     | EmptyString => false
     | String _ rest => includes needle rest
     end.

(** ** QuotaService, continued: [getUserId]

    The [headers] property of the request is read as a plain object from
    header names to strings; it may be missing. *)

Module QuotaService'.

Record Request : Type := mkRequest {
  headers : option (gmap string string)
}.

Definition getUserId (request : Request) : string :=
  match headers request with
  | None => "anonymous"
  | Some headers =>
      match headers !! "x-user-id"%string with
      | None => "anonymous"
      | Some value => if String.eqb value EmptyString then "anonymous" else value
      end
  end%string.

End QuotaService'.

(** ** The HTTP routes that read ([src/server.ts])

    The module holds two objects: [uploadService], whose state is a [Sys],
    and a [QuotaService] of its own, [quotaService], which is not the one
    inside [uploadService].  Logging and error reporting are left out. *)

Module Server.

Record t : Type := mk {
  uploadService : Sys;
  quotaService : gmap string QuotaInfo.t
}.

(** A method of [QuotaService] called on the module's [quotaService]: the
    [userUsage] that the method reads and writes is that object's map. *)
Definition on_quotaService {A} (method : M A) (st : t) : outcome A * t :=
  let s := uploadService st in
  let r := method (set_userUsage (quotaService st) s) in
  (fst r, mk (set_userUsage (userUsage s) (snd r)) (userUsage (snd r))).

(** A method of [UploadService] called on [uploadService]. *)
Definition on_uploadService {A} (method : M A) (st : t) : outcome A * t :=
  let r := method (uploadService st) in
  (fst r, mk (snd r) (quotaService st)).

Inductive Body : Type :=
| JsonError (error : string)
| JsonQuota (used_bytes max_bytes uploads_today max_uploads_per_day : Z)
    (usage_percentage : option string)
| JsonStatus (media_id : string) (completed : bool) (chunks_received total_chunks : Z)
| JsonChunks (media_id : string) (chunks : ChunkInfo)
| Bytes (buffer : Buffer) (headers : list (string * string)).

Record Response : Type := mkResponse {
  status : Z;
  body : Body
}.

(** [c.json(body, status)]; the status is 200 when none is given. *)
Definition json (body : Body) (status : Z) : Response := mkResponse status body.

Definition double_quote : string := String (ascii_of_nat 34) EmptyString.

(** [app.get('/media/:media_id', ...)].  A successful result of [getMedia]
    always carries its metadata, so the handler's answer for a result
    without metadata has no counterpart here. *)
Definition get_media (media_id : string) (st : t) : Response * t :=
  match on_uploadService (UploadService.getMedia media_id) st with
  | (Ok (MediaFail error), st') =>
      (json (JsonError error) (if includes "not found" error then 404 else 500), st')
  | (Ok (MediaOk buffer metadata), st') =>
      (mkResponse 200
         (Bytes buffer
            [ ("Content-Type", MediaMetadata.content_type metadata);
              ("Content-Length", pretty (MediaMetadata.file_size metadata));
              ("Content-Disposition",
               "inline; filename=" ++ double_quote ++ MediaMetadata.filename metadata
               ++ double_quote);
              ("Cache-Control", "public, max-age=86400") ]%string),
       st')
  | (Thrown _, st') => (json (JsonError "Internal server error") 500, st')
  end.

(** [app.get('/quota', ...)] *)
Definition get_quota (request : QuotaService'.Request) (st : t) : Response * t :=
  let userId := QuotaService'.getUserId request in
  match on_quotaService (QuotaService.getQuotaInfo userId) st with
  | (Ok quota, st') =>
      (json (JsonQuota (QuotaInfo.used_bytes quota) (QuotaInfo.max_bytes quota)
               (QuotaInfo.uploads_today quota) (QuotaInfo.max_uploads_per_day quota)
               (JSNumber.toFixed 2
                  (PrimFloat.mul
                     (PrimFloat.div (JSNumber.of_Z (QuotaInfo.used_bytes quota))
                                    (JSNumber.of_Z (QuotaInfo.max_bytes quota)))
                     (JSNumber.of_Z 100))))
            200,
       st')
  | (Thrown _, st') => (json (JsonError "Internal server error") 500, st')
  end.

(** [app.get('/status/:idempotency_key', ...)] *)
Definition get_status (idempotencyKey : string) (st : t) : Response * t :=
  match on_uploadService (UploadService.getUploadStatus idempotencyKey) st with
  | (Ok None, st') => (json (JsonError "Upload session not found") 404, st')
  | (Ok (Some session), st') =>
      (json (JsonStatus (UploadSession.media_id session)
               (UploadSession.completed session)
               (Z.of_nat (size (UploadSession.chunks_received session)))
               (MediaMetadata.chunk_count (UploadSession.metadata session)))
            200,
       st')
  | (Thrown _, st') => (json (JsonError "Internal server error") 500, st')
  end.

(** [app.get('/chunks/:media_id', ...)] *)
Definition get_chunks (media_id : string) (st : t) : Response * t :=
  match on_uploadService (UploadService.getChunkInfo media_id) st with
  | (Ok (ChunkInfoFail error), st') => (json (JsonError error) 404, st')
  | (Ok (ChunkInfoOk chunks), st') => (json (JsonChunks media_id chunks) 200, st')
  | (Thrown _, st') => (json (JsonError "Internal server error") 500, st')
  end.

End Server.

(** ** ArkivStorage, continued: the client set-up

    Strings are sequences of code units below 256.  The two SDK functions
    the set-up depends on are parameters: [privateKeyToAccount] gives the
    address of the account of a key, or nothing where the SDK throws;
    [createWalletClient] says whether the SDK builds the wallet client of
    an address or throws.  A wallet client is identified by its address. *)

Definition set_walletClient (w : option string) (s : Sys) : Sys :=
  mkSys (uuid_source s) (uuid_count s) (now_ms s) (entities s) (rpc_faults s)
        (block_height s) (block_duration s) w (ownerAddress s)
        (userUsage s) (uploadSessions s).

Definition set_ownerAddress (o : option string) (s : Sys) : Sys :=
  mkSys (uuid_source s) (uuid_count s) (now_ms s) (entities s) (rpc_faults s)
        (block_height s) (block_duration s) (walletClient s) o
        (userUsage s) (uploadSessions s).

Module ArkivStorageSetup.

(** White space and line terminators, as [String.prototype.trim] sees
    them: TAB, LF, VT, FF, CR, SP and NBSP. *)
Definition is_white_space (c : ascii) : bool :=
  let n := nat_of_ascii c in
  ((9 <=? n) && (n <=? 13) || (n =? 32) || (n =? 160))%nat.

Fixpoint trimStart (s : string) : string :=
  match s with
  | EmptyString => EmptyString
  | String c rest => if is_white_space c then trimStart rest else s
  end.

Fixpoint trimEnd (s : string) : string :=
  match s with
  | EmptyString => EmptyString
  | String c rest =>
      match trimEnd rest with
      | EmptyString => if is_white_space c then EmptyString else String c EmptyString
      | rest' => String c rest'
      end
  end.

Definition trim (s : string) : string := trimEnd (trimStart s).

Definition normalizePrivateKey (key : option string) : option string :=
  match key with
  | None => None
  | Some key =>
      if String.eqb key EmptyString then None
      else
        let trimmed := trim key in
        if String.eqb trimmed EmptyString then None
        else Some (if String.prefix "0x" trimmed then trimmed
                   else ("0x" ++ trimmed)%string)
  end.

(** [process.env], as far as the set-up reads it. *)
Record Env : Type := mkEnv {
  ARKIV_PRIVATE_KEY : option string;
  ARKIV_OWNER_ADDRESS : option string
}.

Section SDK.

Variable privateKeyToAccount : string -> option string.
Variable createWalletClient : string -> bool.

Definition initializeClient (env : Env) : M unit :=
  try_catch
    (run! try_catch ArkivStorage.rpc (fun _ => ret tt) in
     match normalizePrivateKey (ARKIV_PRIVATE_KEY env) with
     | Some privateKey =>
         match privateKeyToAccount privateKey with
         | None => modify (set_walletClient None)
         | Some address =>
             run! modify (set_ownerAddress (Some address)) in
             if createWalletClient address
             then modify (set_walletClient (Some address))
             else modify (set_walletClient None)
         end
     | None =>
         match ARKIV_OWNER_ADDRESS env with
         | Some address =>
             if String.eqb address EmptyString then ret tt
             else modify (set_ownerAddress (Some address))
         | None => ret tt
         end
     end)
    (fun error => throw error).

End SDK.

End ArkivStorageSetup.

(** ** Definitions used by the statements below *)

(** The next RPC is answered. *)
Definition answered (s : Sys) : Prop :=
  match head (rpc_faults s) with
  | Some (Some _) => False
  | _ => True
  end.

(** The part of the state that storing chunks does not touch. *)
Definition same_service (s s' : Sys) : Prop :=
  uuid_source s' = uuid_source s /\ uuid_count s' = uuid_count s
  /\ now_ms s' = now_ms s /\ block_height s' = block_height s
  /\ block_duration s' = block_duration s /\ walletClient s' = walletClient s
  /\ ownerAddress s' = ownerAddress s /\ userUsage s' = userUsage s.

(** The session stored under a key, as far as a replay can see it. *)
Definition session_of (s : Sys) (idempotencyKey media_id : string)
    (metadata : MediaMetadata.t) : Prop :=
  exists session,
    uploadSessions s !! idempotencyKey = Some session
    /\ UploadSession.media_id session = media_id
    /\ UploadSession.metadata session = metadata.

(** The expiration block and the metadata record that an upload started in
    state [s] computes, and the id it draws. *)
Definition upload_id (s : Sys) : string := uuid_source s (uuid_count s).

Definition upload_expiration (s : Sys) (btlDays : Z) : Z :=
  now_ms s / (ArkivStorage.BLOCK_TIME_SECONDS * 1000)
  + btlDays * ArkivStorage.BLOCKS_PER_DAY.

Definition upload_metadata (s : Sys) (fileBuffer : Buffer)
    (filename contentType : string) (btlDays : Z) : MediaMetadata.t :=
  MediaMetadata.mk (upload_id s) filename contentType (blen fileBuffer)
    (ceil_div (blen fileBuffer) CONFIG.CHUNK_SIZE)
    (ChunkingService.calculateChecksum fileBuffer)
    (now_ms s) (upload_expiration s btlDays) btlDays.

(** The checks that come before the session lookup. *)
Definition admitted (s : Sys) (fileBuffer : Buffer) (contentType userId : string)
    : Prop :=
  blen fileBuffer <= CONFIG.MAX_FILE_SIZE
  /\ UploadService.isValidImageType contentType = true
  /\ fst (QuotaService.checkQuota userId (blen fileBuffer) s) = Ok Allowed.

(** The state after one RPC. *)
Definition after_rpc (s : Sys) : Sys := set_rpc_faults (tail (rpc_faults s)) s.

(** The metadata record the store holds for a media id: the payload of the
    first matching entity, if it parses. *)
Definition metadata_in_store (ownerAddress media_id : string)
    (es : list Entity.t) : option MediaMetadata.t :=
  match List.filter
          (ArkivStorage.matches ownerAddress
             [("type", AStr "image_metadata"); ("media_id", AStr media_id)]%string) es with
  | [] => None
  | entity :: _ =>
      match Entity.payload entity with
      | Some (JsonDoc doc) => Some doc
      | _ => None
      end
  end.

(** The chunks the store returns for a media id, in ascending order of
    their persisted index. *)
Definition chunks_in_store (ownerAddress media_id : string)
    (es : list Entity.t) : list MediaChunk.t :=
  sort (fun a b => MediaChunk.chunk_index a - MediaChunk.chunk_index b)
    (map (ArkivStorage.chunk_of_entity media_id)
       (take 1000
          (List.filter
             (ArkivStorage.matches ownerAddress
                [("type", AStr "image_chunk"); ("media_id", AStr media_id)]%string) es))).

(** Reading never changes anything but the network's schedule. *)
Definition only_rpc (s s' : Sys) : Prop :=
  uuid_source s' = uuid_source s /\ uuid_count s' = uuid_count s
  /\ entities s' = entities s /\ walletClient s' = walletClient s
  /\ ownerAddress s' = ownerAddress s /\ userUsage s' = userUsage s
  /\ uploadSessions s' = uploadSessions s.

(** Nothing observable has changed except, possibly, the network's schedule
    and the materialisation of a user's free-tier record. *)
Definition quiet (s s' : Sys) : Prop :=
  uuid_source s' = uuid_source s /\ uuid_count s' = uuid_count s
  /\ entities s' = entities s /\ walletClient s' = walletClient s
  /\ ownerAddress s' = ownerAddress s /\ uploadSessions s' = uploadSessions s
  /\ forall u, quota_of s' u = quota_of s u.

(** No user's quota record has changed. *)
Definition quota_unchanged (s s' : Sys) : Prop :=
  forall u, quota_of s' u = quota_of s u.

(** The call was a completed first upload and has committed its usage: it
    was admitted under a key that had no session; every chunk of the file
    and then the metadata have been stored; the session is marked
    completed; the user's record has grown by the file's length and one
    upload, and no other record has changed. *)
Definition upload_committed (B : Buffer) (fn ct key u : string) (btl : Z)
    (s : Sys) (r : UploadResult) (s' : Sys) : Prop :=
  exists chunks wallet,
    r = UploadOk (upload_id s)
    /\ admitted s B ct u
    /\ uploadSessions s !! key = None
    /\ walletClient s = Some wallet
    /\ map index_and_data chunks = slices (length B) CONFIG.CHUNK_SIZE B 0
    /\ blen chunks = MediaMetadata.chunk_count (upload_metadata s B fn ct btl)
    /\ entities s'
       = entities s
         ++ map (stored_chunk wallet (block_height s) (block_duration s)) chunks
         ++ [stored_metadata wallet (block_height s) (block_duration s)
               (upload_metadata s B fn ct btl)]
    /\ (exists session, uploadSessions s' !! key = Some session
                        /\ UploadSession.completed session = true)
    /\ forall u',
         quota_of s' u'
         = if decide (u = u') then committed (quota_of s u') (blen B)
           else quota_of s u'.

(** The call returned an error, or replayed an existing session. *)
Definition failed_or_replayed (key : string) (s : Sys) (r : UploadResult) : Prop :=
  (exists e, r = UploadFail e)
  \/ exists session, uploadSessions s !! key = Some session
                     /\ r = UploadOk (UploadSession.media_id session).

(** The entity carries the media id. *)
Definition mentions (media_id : string) (e : Entity.t) : bool :=
  ArkivStorage.has_attribute e ("media_id"%string, AStr media_id).

Definition chunk_query (media_id : string) : list (string * AttrValue) :=
  [("type", AStr "image_chunk"); ("media_id", AStr media_id)]%string.

Definition metadata_query (media_id : string) : list (string * AttrValue) :=
  [("type", AStr "image_metadata"); ("media_id", AStr media_id)]%string.

Definition is_expiry (ev : Event) : bool :=
  match ev with Expire _ => true | _ => false end.



(** No entity of the store carries the id yet. *)
Definition unknown_id (media_id : string) (s : Sys) : Prop :=
  Forall (fun e => mentions media_id e = false) (entities s).

(** One upload of the PNG signature by the anonymous user. *)
Definition upload_tiny (key : string) (s : Sys) : outcome UploadResult * Sys :=
  UploadService.initiateUpload tiny_png "tiny.png" "image/png" key "anonymous" 7 s.

(** The service after nine such uploads under nine keys. *)
Definition after_nine_uploads : Sys :=
  foldl (fun s key => snd (upload_tiny key s)) boot
    ["k1"; "k2"; "k3"; "k4"; "k5"; "k6"; "k7"; "k8"; "k9"]%string.

(** A file one byte longer than a chunk, uploaded to the fresh service, and
    the store after its first chunk entity has expired. *)
Definition two_chunk_file : Buffer := repeat x41 (Z.to_nat (CONFIG.CHUNK_SIZE + 1)).

Definition after_two_chunk_upload : Sys :=
  snd (UploadService.initiateUpload two_chunk_file "big.png" "image/png" "big"
         "anonymous" 7 boot).

Definition first_chunk_expired : Sys := happen after_two_chunk_upload (Expire 0).

(** A session after the indices of the given chunks have been added. *)
Definition received (chunks : list ChunkEntity.t) (session : UploadSession.t)
    : UploadSession.t :=
  foldl (fun acc c => UploadService.add_received (ChunkEntity.chunk_index c) acc)
        session chunks.

(** The network calls a store loop has made: one for each chunk stored and
    one more for the call that failed, if one was made. *)
Definition calls_of_stores (k : nat) (r : outcome unit) (wallet : option string) : nat :=
  match r, wallet with
  | Thrown _, Some _ => S k
  | _, _ => k
  end.

(** The session a first upload leaves under its key when [k] chunks have
    been stored. *)
Definition session_after (s : Sys) (fileBuffer : Buffer)
    (filename contentType idempotencyKey : string) (btlDays : Z)
    (k : Z) (completed : bool) : UploadSession.t :=
  UploadSession.mk (upload_id s) idempotencyKey
    (upload_metadata s fileBuffer filename contentType btlDays)
    (list_to_set (seqZ 0 k)) completed.

(** The chunk that [getAllChunks] builds from the entity of a stored
    chunk. *)
Definition fetched_chunk (w : string) (h d : Z) (m : string) (c : ChunkEntity.t)
    : MediaChunk.t :=
  MediaChunk.mk m (ChunkEntity.chunk_index c + 1) (toBase64 (ChunkEntity.data c))
    (ChunkEntity.checksum c)
    (h + expires_in h d (ChunkEntity.expiration_block c) / d).

(** Storing chunks one after the other, as an uploader does; the loop stops
    at the first error. *)
Fixpoint memory_storeChunks (chunks : list ChunkEntity.t) (st : ArkivMemoryStorage.t)
    : outcome unit * ArkivMemoryStorage.t :=
  match chunks with
  | [] => (Ok tt, st)
  | chunk :: rest =>
      match ArkivMemoryStorage.storeChunk chunk st with
      | (Ok _, st') => memory_storeChunks rest st'
      | (Thrown e, st') => (Thrown e, st')
      end
  end.

(** The key a chunk is stored under. *)
Definition memory_key (c : ChunkEntity.t) : string :=
  ArkivMemoryStorage.chunk_key (ChunkEntity.media_id c) (ChunkEntity.chunk_index c).

(** A sequence of [storeChunk] calls, whatever each returns. *)
Definition memory_stores (chunks : list ChunkEntity.t) (st : ArkivMemoryStorage.t)
    : ArkivMemoryStorage.t :=
  foldl (fun st c => snd (ArkivMemoryStorage.storeChunk c st)) st chunks.

(** The chunk held under an index is there and has not expired. *)
Definition memory_live (st : ArkivMemoryStorage.t) (media_id : string) (i : Z)
    (c : ChunkEntity.t) : Prop :=
  ArkivMemoryStorage.chunks st !! ArkivMemoryStorage.chunk_key media_id i = Some c
  /\ ArkivMemoryStorage.currentBlock st < ChunkEntity.expiration_block c.

(** What can happen to the server between two requests: something happens
    to the upload service (one of its methods is called, for whatever
    route, or its store, clock or network changes), or one of the reading
    routes is requested. *)
Inductive ServerEvent : Type :=
| Backend (ev : Event)
| GET_media (media_id : string)
| GET_quota (request : QuotaService'.Request)
| GET_status (idempotencyKey : string)
| GET_chunks (media_id : string).

Definition server_step (st : Server.t) (ev : ServerEvent) : Server.t :=
  match ev with
  | Backend ev => Server.mk (happen (Server.uploadService st) ev) (Server.quotaService st)
  | GET_media media_id => snd (Server.get_media media_id st)
  | GET_quota request => snd (Server.get_quota request st)
  | GET_status idempotencyKey => snd (Server.get_status idempotencyKey st)
  | GET_chunks media_id => snd (Server.get_chunks media_id st)
  end.

Definition server_after (history : list ServerEvent) (st : Server.t) : Server.t :=
  foldl server_step st history.

(** Every record of the server's own quota service is the free-tier record
    of a user who has uploaded nothing. *)
Definition untouched (st : Server.t) : Prop :=
  forall u q, Server.quotaService st !! u = Some q -> q = fresh_quota.

(** [n] network calls were answered between [s] and [s']. *)
Definition network_calls (n : nat) (s s' : Sys) : Prop :=
  rpc_faults s' = drop n (rpc_faults s).

(** Does the character occur in the string? *)
Fixpoint has_char (c : ascii) (s : string) : bool :=
  match s with
  | EmptyString => false
  | String d s' => Ascii.eqb c d || has_char c s'
  end.

(** Two states of the backend hold the same for a media id. *)
Definition agree_on (m : string) (st st' : ArkivMemoryStorage.t) : Prop :=
  ArkivMemoryStorage.metadata st' !! m = ArkivMemoryStorage.metadata st !! m
  /\ ArkivMemoryStorage.currentBlock st' = ArkivMemoryStorage.currentBlock st
  /\ forall j, ArkivMemoryStorage.chunks st' !! ArkivMemoryStorage.chunk_key m j
               = ArkivMemoryStorage.chunks st !! ArkivMemoryStorage.chunk_key m j.

(** A write of the backend: a chunk or a metadata record. *)
Inductive MemoryWrite : Type :=
| WriteChunk (chunk : ChunkEntity.t)
| WriteMetadata (meta : MediaMetadata.t).

Definition written_media (w : MemoryWrite) : string :=
  match w with
  | WriteChunk chunk => ChunkEntity.media_id chunk
  | WriteMetadata meta => MediaMetadata.media_id meta
  end.

Definition memory_write (st : ArkivMemoryStorage.t) (w : MemoryWrite)
    : ArkivMemoryStorage.t :=
  match w with
  | WriteChunk chunk => snd (ArkivMemoryStorage.storeChunk chunk st)
  | WriteMetadata meta => ArkivMemoryStorage.storeMetadata meta st
  end.

(** What happens after the first upload in the examples below: a second
    user uploads a file, the clock moves on, and somebody asks for the
    status of the first upload. *)
Definition later_events : list Event :=
  [ Call (InitiateUpload tiny_png "other.png" "image/jpeg" "k2" "bob" 1);
    Tick 1700000360000 850000180 2;
    Call (GetUploadStatus "k1") ].


(** The network rejects the second of the coming calls. *)
Definition second_call_fails : Sys :=
  happen boot (Network [None; Some "Error: connection reset"%string]).

(** A deployment with an owner address but no private key. *)
Definition read_only : Sys :=
  mkSys uuid_of 0 1700000000000 [] [] 850000000 2
        None (Some "0xA11CE"%string) ∅ ∅.

(** The anonymous user has used up the daily uploads. *)
Definition at_daily_limit : Sys :=
  set_userUsage {[ "anonymous"%string := QuotaInfo.mk 80 CONFIG.FREE_TIER_MAX_BYTES 10 10 ]}
    boot.

(** The metadata of the PNG signature, stored in the in-memory backend for
    seven days ([1000000 + 7 * 2880]). *)
Definition memory_example_metadata : MediaMetadata.t :=
  MediaMetadata.mk "uuid-0" "tiny.png" "image/png" 8 1
    (ChunkingService.calculateChecksum tiny_png) 1700000000000 1020160 7.

(** A new [ArkivStorage], before its set-up has run. *)
Definition unconfigured : Sys :=
  mkSys uuid_of 0 1700000000000 [] [] 850000000 2 None None ∅ ∅.

(** An SDK for the examples: every key has an account, every account a
    wallet client. *)
Definition example_account (privateKey : string) : option string :=
  Some ("account-of-" ++ privateKey)%string.

(** A request without headers, and one that names a user. *)
Definition anonymous_request : QuotaService'.Request := QuotaService'.mkRequest None.

Definition request_of_bob : QuotaService'.Request :=
  QuotaService'.mkRequest (Some {[ "x-user-id"%string := "bob"%string ]}).

(** A server on which the anonymous user and bob have each uploaded a file
    and both have asked for their quota. *)
Definition server_history : list ServerEvent :=
  [ Backend (Call (InitiateUpload tiny_png "tiny.png" "image/png" "k1" "anonymous" 7));
    GET_quota anonymous_request;
    Backend (Call (InitiateUpload tiny_png "other.png" "image/jpeg" "k2" "bob" 1));
    GET_quota request_of_bob;
    GET_media "uuid-0" ].

(** A server whose store holds one upload and whose network will answer
    the next call and reject the one after. *)
Definition server_with_failing_chunk_query : Server.t :=
  Server.mk
    (happen (snd (upload_tiny "k1" boot)) (Network [None; Some "Error: timeout"%string]))
    ∅.

(** The PNG signature cut into chunks of three bytes. *)
Definition tiny_chunks : list ChunkEntity.t :=
  match fst (ChunkingService.chunkWith 3 tiny_png "uuid-0" 850302400 boot) with
  | Ok chunks => chunks
  | Thrown _ => []
  end.

(** The in-memory backend holding the PNG signature as one chunk with its
    metadata, and writes that belong to another file. *)
Definition memory_with_tiny : ArkivMemoryStorage.t :=
  ArkivMemoryStorage.storeMetadata memory_example_metadata
    (memory_stores
       (match fst (ChunkingService.chunkFile tiny_png "uuid-0" 1020160 boot) with
        | Ok chunks => chunks
        | Thrown _ => []
        end)
       ArkivMemoryStorage.new).

Definition writes_for_another_file : list MemoryWrite :=
  [ WriteChunk (ChunkEntity.mk "uuid-8" "uuid-9" 0 tiny_png
                  (ChunkingService.calculateChecksum tiny_png) 1700000000000 1020160);
    WriteMetadata (MediaMetadata.mk "uuid-9" "other.png" "image/png" 8 1
                     (ChunkingService.calculateChecksum tiny_png) 1700000000000
                     1020160 7) ].

(** * Properties *)

(** FIPS 180-4 test vectors: the empty message, "abc", and the 56-byte
    message that needs two blocks. *)
Example sha256_empty :
  SHA256.sha256_hex []
  = "e3b0c44298fc1c149afbf4c8996fb92427ae41e4649b934ca495991b7852b855"%string.
Proof. vm_compute. reflexivity. Qed.

Example sha256_abc :
  SHA256.sha256_hex (list_byte_of_string "abc")
  = "ba7816bf8f01cfea414140de5dae2223b00361a396177a9cb410ff61f20015ad"%string.
Proof. vm_compute. reflexivity. Qed.

Example sha256_two_blocks :
  SHA256.sha256_hex
    (list_byte_of_string "abcdbcdecdefdefgefghfghighijhijkijkljklmklmnlmnomnopnopq")
  = "248d6a61d20638b8e5c026930c3e6039a33ce45964ff2167f6ecedd419db06c1"%string.
Proof. vm_compute. reflexivity. Qed.

Lemma blen_nil {A} : blen (@nil A) = 0.
Proof. reflexivity. Qed.

Lemma blen_cons {A} (x : A) (l : list A) : blen (x :: l) = 1 + blen l.
Proof. unfold blen. simpl length. lia. Qed.

Lemma blen_nonneg {A} (l : list A) : 0 <= blen l.
Proof. unfold blen. lia. Qed.

Section Chunking.

Context (chunkSize : Z) (Hpos : 0 < chunkSize) (buf : Buffer).

Lemma subarray_window i :
  0 <= i <= blen buf ->
  subarray buf i (i + chunkSize)
  = take (Z.to_nat chunkSize) (drop (Z.to_nat i) buf).
Proof.
  intros Hi. unfold subarray, clamp_index.
  destruct (Z.ltb_spec i 0); [lia|].
  destruct (Z.ltb_spec (i + chunkSize) 0); [lia|].
  rewrite (Z.min_l i) by lia.
  destruct (Z.le_gt_cases (i + chunkSize) (blen buf)).
  - rewrite Z.min_l by lia. f_equal. lia.
  - rewrite Z.min_r by lia.
    rewrite !take_ge; [reflexivity | |]; rewrite length_drop; unfold blen in *; lia.
Qed.

Lemma slices_concat fuel i :
  0 <= i -> blen buf - i <= Z.of_nat fuel ->
  concat (map snd (slices fuel chunkSize buf i)) = drop (Z.to_nat i) buf.
Proof.
  revert i. induction fuel as [|fuel IH]; intros i Hi Hfuel; simpl.
  - symmetry. apply drop_ge. unfold blen in *. lia.
  - destruct (Z.ltb_spec i (blen buf)) as [Hlt|Hge]; simpl.
    + rewrite IH by lia. rewrite subarray_window by lia.
      replace (Z.to_nat (i + chunkSize)) with (Z.to_nat i + Z.to_nat chunkSize)%nat by lia.
      rewrite <- drop_drop. apply take_drop.
    + symmetry. apply drop_ge. unfold blen in *. lia.
Qed.

(** Every element of the sequence is the window that starts at its own
    offset, and that offset lies inside the buffer. *)
Lemma slices_lookup fuel i j x d :
  0 <= i ->
  slices fuel chunkSize buf i !! j = Some (x, d) ->
  let off := i + Z.of_nat j * chunkSize in
  x = off / chunkSize /\ off < blen buf
  /\ d = take (Z.to_nat chunkSize) (drop (Z.to_nat off) buf).
Proof.
  revert i j. induction fuel as [|fuel IH]; intros i j Hi; simpl; [done|].
  destruct (Z.ltb_spec i (blen buf)) as [Hlt|Hge]; [|done].
  destruct j as [|j]; simpl.
  - intros [= <- <-]. rewrite Z.add_0_r. split; [done|]. split; [done|].
    apply subarray_window. lia.
  - intros Hj. apply IH in Hj; [|lia].
    replace (i + Z.of_nat (S j) * chunkSize)
      with (i + chunkSize + Z.of_nat j * chunkSize) by lia.
    exact Hj.
Qed.

(** The number of windows, for a loop that has run to its end. *)
Lemma slices_length fuel i :
  0 <= i -> blen buf - i <= Z.of_nat fuel ->
  let n := blen (slices fuel chunkSize buf i) in
  (blen buf <= i -> n = 0)
  /\ (i < blen buf -> blen buf - i <= n * chunkSize < blen buf - i + chunkSize).
Proof.
  revert i. induction fuel as [|fuel IH]; intros i Hi Hfuel; simpl.
  - rewrite blen_nil. lia.
  - destruct (Z.ltb_spec i (blen buf)) as [Hlt|Hge].
    + specialize (IH (i + chunkSize) ltac:(lia) ltac:(lia)). simpl in IH.
      rewrite blen_cons. destruct IH as (Hz & Hb).
      split; [lia|]. intros _.
      destruct (Z.le_gt_cases (blen buf) (i + chunkSize)).
      * rewrite Hz by lia. lia.
      * specialize (Hb ltac:(lia)). lia.
    + rewrite blen_nil. lia.
Qed.

End Chunking.

Lemma ceil_div_unique a c n :
  0 < c -> 0 <= a -> a <= n * c < a + c -> n = ceil_div a c.
Proof.
  intros Hc Ha Hn. unfold ceil_div.
  pose proof (Z.div_mod a c ltac:(lia)) as Hdm.
  pose proof (Z.mod_pos_bound a c Hc) as Hm.
  destruct (Z.eqb_spec (a mod c) 0) as [E|E]; nia.
Qed.

(** [ceil_div a c] is the least number of windows of [c] bytes that cover
    [a] bytes. *)
Lemma ceil_div_spec a c :
  0 < c -> 0 <= a -> a <= ceil_div a c * c < a + c.
Proof.
  intros Hc Ha. unfold ceil_div.
  pose proof (Z.div_mod a c ltac:(lia)) as Hdm.
  pose proof (Z.mod_pos_bound a c Hc) as Hm.
  destruct (Z.eqb_spec (a mod c) 0) as [E|E]; nia.
Qed.

Lemma sort_adjacent {A} (compare : A -> A -> Z) (l : list A) :
  (forall j a b, l !! j = Some a -> l !! S j = Some b -> compare a b <= 0) ->
  sort compare l = l.
Proof.
  induction l as [|a l IH]; intros Hadj; [reflexivity|].
  unfold sort in *. simpl. rewrite IH.
  - destruct l as [|b l]; [reflexivity|]. simpl.
    specialize (Hadj 0%nat a b eq_refl eq_refl).
    destruct (Z.leb_spec (compare a b) 0); [reflexivity | lia].
  - intros j x y Hx Hy. exact (Hadj (S j) x y Hx Hy).
Qed.

Lemma set_uuid_count_same s : set_uuid_count (uuid_count s) s = s.
Proof. destruct s; reflexivity. Qed.

Arguments ChunkingService.calculateChecksum : simpl never.

(** With a positive chunk size the loop ends by itself: any two amounts of
    fuel that cover the bytes still to be visited give the same run. *)
Lemma chunkLoop_fuel chunkSize buf m e :
  0 < chunkSize ->
  forall fuel fuel' i s,
    0 <= i -> blen buf - i <= Z.of_nat fuel -> blen buf - i <= Z.of_nat fuel' ->
    ChunkingService.chunkLoop fuel chunkSize buf m e i s
    = ChunkingService.chunkLoop fuel' chunkSize buf m e i s.
Proof.
  intros Hpos. induction fuel as [|fuel IH]; intros fuel' i s Hi Hf Hf'.
  - destruct fuel' as [|fuel']; [reflexivity|]. simpl.
    destruct (Z.ltb_spec i (blen buf)); [lia | reflexivity].
  - simpl. destruct (Z.ltb_spec i (blen buf)) as [Hlt|Hge].
    + destruct fuel' as [|fuel']; [lia|]. simpl.
      destruct (Z.ltb_spec i (blen buf)); [|lia].
      unfold bind. destruct (randomUUID s) as [[id|err] s1]; [|reflexivity].
      destruct (newDate s1) as [[now|err] s2]; [|reflexivity].
      rewrite (IH fuel' (i + chunkSize) s2) by lia. reflexivity.
    + destruct fuel' as [|fuel']; [reflexivity|]. simpl.
      destruct (Z.ltb_spec i (blen buf)); [lia | reflexivity].
Qed.

(** What one run of the loop returns and what it leaves behind: the
    records follow [slices], and only the UUID generator has advanced. *)
Lemma chunkLoop_run fuel chunkSize buf m e i s :
  exists cs,
    ChunkingService.chunkLoop fuel chunkSize buf m e i s
    = (Ok cs, set_uuid_count (uuid_count s + length cs) s)
    /\ map index_and_data cs = slices fuel chunkSize buf i
    /\ Forall (fun c =>
                 ChunkEntity.media_id c = m
                 /\ ChunkEntity.expiration_block c = e
                 /\ ChunkEntity.checksum c
                    = ChunkingService.calculateChecksum (ChunkEntity.data c)) cs.
Proof.
  revert i s. induction fuel as [|fuel IH]; intros i s; simpl.
  - exists []. simpl. rewrite Nat.add_0_r, set_uuid_count_same. auto.
  - destruct (Z.ltb_spec i (blen buf)).
    + unfold bind at 1. unfold randomUUID at 1. unfold bind at 1. unfold newDate, gets at 1.
      unfold bind at 1.
      destruct (IH (i + chunkSize) (set_uuid_count (S (uuid_count s)) s))
        as (cs & Hrun & Hmap & Hall).
      rewrite Hrun. eexists. split; [|split].
      * unfold ret. f_equal. simpl. destruct s; unfold set_uuid_count; simpl.
        f_equal. lia.
      * simpl. rewrite Hmap. reflexivity.
      * constructor; [simpl; auto | exact Hall].
    + exists []. simpl. rewrite Nat.add_0_r, set_uuid_count_same. auto.
Qed.

Section ChunkFile.

Context (chunkSize : Z) (Hpos : 0 < chunkSize).
Context (buf : Buffer) (m : string) (e : Z) (s : Sys).

Lemma chunkWith_run :
  exists cs,
    ChunkingService.chunkWith chunkSize buf m e s
    = (Ok cs, set_uuid_count (uuid_count s + length cs) s)
    /\ map index_and_data cs = slices (length buf) chunkSize buf 0
    /\ Forall (fun c =>
                 ChunkEntity.media_id c = m
                 /\ ChunkEntity.expiration_block c = e
                 /\ ChunkEntity.checksum c
                    = ChunkingService.calculateChecksum (ChunkEntity.data c)) cs.
Proof. apply chunkLoop_run. Qed.

Lemma chunk_lookup cs j c :
  map index_and_data cs = slices (length buf) chunkSize buf 0 ->
  cs !! j = Some c ->
  ChunkEntity.chunk_index c = Z.of_nat j
  /\ Z.of_nat j * chunkSize < blen buf
  /\ ChunkEntity.data c
     = take (Z.to_nat chunkSize) (drop (Z.to_nat (Z.of_nat j * chunkSize)) buf).
Proof.
  intros Hmap Hj.
  assert (slices (length buf) chunkSize buf 0 !! j = Some (index_and_data c)) as Hs.
  { rewrite <- Hmap, list_lookup_fmap, Hj. reflexivity. }
  apply (slices_lookup chunkSize Hpos) in Hs; [|lia].
  cbv zeta in Hs. rewrite Z.add_0_l in Hs. unfold index_and_data in Hs.
  destruct Hs as (Hx & Hlt & Hd). rewrite Z.div_mul in Hx by lia. auto.
Qed.

Lemma chunk_count_bounds cs :
  map index_and_data cs = slices (length buf) chunkSize buf 0 ->
  blen buf <= blen cs * chunkSize < blen buf + chunkSize.
Proof.
  intros Hmap.
  assert (blen cs = blen (slices (length buf) chunkSize buf 0)) as ->.
  { rewrite <- Hmap. unfold blen. rewrite length_map. reflexivity. }
  pose proof (slices_length chunkSize Hpos buf (length buf) 0 ltac:(lia)) as H.
  simpl in H. destruct H as (Hz & Hb); [unfold blen; lia|].
  pose proof (blen_nonneg buf).
  destruct (Z.eq_dec (blen buf) 0) as [E|E].
  - rewrite Hz by lia. lia.
  - specialize (Hb ltac:(lia)). lia.
Qed.

Lemma chunk_data_length cs j c :
  map index_and_data cs = slices (length buf) chunkSize buf 0 ->
  cs !! j = Some c ->
  blen (ChunkEntity.data c) = Z.min chunkSize (blen buf - Z.of_nat j * chunkSize).
Proof.
  intros Hmap Hj. destruct (chunk_lookup cs j c Hmap Hj) as (_ & Hlt & ->).
  unfold blen in *. rewrite length_take, length_drop. lia.
Qed.

End ChunkFile.

Lemma hex_digit_lower n : is_lower_hex (SHA256.hex_digit n) = true.
Proof.
  unfold SHA256.hex_digit. generalize (Z.to_nat n). intros k.
  do 16 (destruct k as [|k]; [reflexivity|]). destruct k; reflexivity.
Qed.

Lemma hex_word_lower w :
  length (SHA256.hex_word w) = 8%nat
  /\ forallb is_lower_hex (SHA256.hex_word w) = true.
Proof.
  unfold SHA256.hex_word. split; [reflexivity|].
  cbn [seq rev app map forallb]. rewrite !hex_digit_lower. reflexivity.
Qed.

Lemma length_string_of_list_ascii (l : list ascii) :
  String.length (string_of_list_ascii l) = length l.
Proof. induction l as [|c l IH]; simpl; [reflexivity | now rewrite IH]. Qed.

Lemma sha256_hex_lowercase msg :
  String.length (SHA256.sha256_hex msg) = 64%nat
  /\ forallb is_lower_hex (list_ascii_of_string (SHA256.sha256_hex msg)) = true.
Proof.
  unfold SHA256.sha256_hex, SHA256.hex. generalize (SHA256.digest msg). intros r.
  rewrite length_string_of_list_ascii, list_ascii_of_string_of_list_ascii.
  rewrite !length_app, !forallb_app.
  destruct (hex_word_lower (SHA256.ra r)) as [-> ->].
  destruct (hex_word_lower (SHA256.rb r)) as [-> ->].
  destruct (hex_word_lower (SHA256.rc r)) as [-> ->].
  destruct (hex_word_lower (SHA256.rd r)) as [-> ->].
  destruct (hex_word_lower (SHA256.re r)) as [-> ->].
  destruct (hex_word_lower (SHA256.rf r)) as [-> ->].
  destruct (hex_word_lower (SHA256.rg r)) as [-> ->].
  destruct (hex_word_lower (SHA256.rh r)) as [-> ->].
  split; reflexivity.
Qed.

(** C1.  Round trip: for every buffer [B] with [0 < len(B) <= MAX_FILE_SIZE],
    [chunkFile] returns a chunk sequence and [reassembleFile] applied to it
    gives back exactly [B]. *)
Theorem C1_chunk_reassemble_roundtrip (B : Buffer) (media_id : string)
    (expiration_block : Z) (s : Sys) :
  0 < blen B <= CONFIG.MAX_FILE_SIZE ->
  exists chunks s',
    ChunkingService.chunkFile B media_id expiration_block s = (Ok chunks, s')
    /\ ChunkingService.reassembleFile chunks = B.
Proof.
  intros _.
  assert (0 < CONFIG.CHUNK_SIZE) as Hpos by reflexivity.
  destruct (chunkWith_run CONFIG.CHUNK_SIZE B media_id expiration_block s)
    as (cs & Hrun & Hmap & _).
  exists cs. eexists. split; [exact Hrun|].
  unfold ChunkingService.reassembleFile. rewrite sort_adjacent.
  - transitivity (concat (map snd (map index_and_data cs))).
    { rewrite map_map. reflexivity. }
    rewrite Hmap.
    rewrite (slices_concat _ Hpos); [reflexivity | lia | unfold blen; lia].
  - intros j a b Ha Hb.
    destruct (chunk_lookup _ Hpos _ _ _ _ Hmap Ha) as (-> & _).
    destruct (chunk_lookup _ Hpos _ _ _ _ Hmap Hb) as (-> & _). lia.
Qed.

(** C7.  Chunk count and sizes: for every buffer [B] and positive chunk size
    [C], chunking [B] returns exactly [ceil(len(B)/C)] chunks; every chunk
    but the last has exactly [C] bytes; the last has [len(B) mod C] bytes
    when that is not zero (and [C] bytes otherwise); and the [chunk_count]
    that [createMetadata] records for [B] is the number of chunks that
    [chunkFile] returns for [B]. *)
Theorem C7_chunk_count_and_sizes (B : Buffer) (C : Z) (media_id : string)
    (expiration_block : Z) (s : Sys) :
  0 < C ->
  exists chunks s',
    ChunkingService.chunkWith C B media_id expiration_block s = (Ok chunks, s')
    /\ blen chunks = ceil_div (blen B) C
    /\ blen B <= blen chunks * C < blen B + C
    /\ (forall j c, chunks !! j = Some c -> (S j < length chunks)%nat ->
                    blen (ChunkEntity.data c) = C)
    /\ (forall c, last chunks = Some c ->
                  blen (ChunkEntity.data c)
                  = if blen B mod C =? 0 then C else blen B mod C)
    /\ (forall filename content_type btl_days s0,
          exists metadata s0' chunks' s1,
            ChunkingService.createMetadata media_id filename content_type B
              btl_days expiration_block s0 = (Ok metadata, s0')
            /\ ChunkingService.chunkFile B media_id expiration_block s = (Ok chunks', s1)
            /\ MediaMetadata.chunk_count metadata
               = ceil_div (blen B) CONFIG.CHUNK_SIZE
            /\ MediaMetadata.chunk_count metadata = blen chunks').
Proof.
  intros Hpos.
  destruct (chunkWith_run C B media_id expiration_block s) as (cs & Hrun & Hmap & _).
  pose proof (chunk_count_bounds C Hpos B cs Hmap) as Hbounds.
  pose proof (blen_nonneg B) as HB.
  assert (blen cs = ceil_div (blen B) C) as Hcount
    by (apply ceil_div_unique; assumption).
  exists cs. eexists. split; [exact Hrun|].
  split; [exact Hcount|]. split; [exact Hbounds|]. split; [|split].
  - intros j c Hj Hnext.
    destruct (lookup_lt_is_Some_2 cs (S j) Hnext) as [d Hd].
    destruct (chunk_lookup C Hpos B cs (S j) d Hmap Hd) as (_ & Hlt & _).
    rewrite (chunk_data_length C Hpos B cs j c Hmap Hj). lia.
  - intros c Hlast. rewrite last_lookup in Hlast.
    assert (length cs <> 0)%nat as Hne by (destruct cs; [discriminate | simpl; lia]).
    rewrite (chunk_data_length C Hpos B cs _ c Hmap Hlast).
    destruct (chunk_lookup C Hpos B cs _ c Hmap Hlast) as (_ & Hlt & _).
    assert (Z.of_nat (Init.Nat.pred (length cs)) = blen cs - 1) as Hp
      by (unfold blen; lia).
    rewrite Hp in *.
    pose proof (Z.div_mod (blen B) C ltac:(lia)) as Hdm.
    pose proof (Z.mod_pos_bound (blen B) C Hpos) as Hm.
    unfold ceil_div in Hcount.
    destruct (Z.eqb_spec (blen B mod C) 0) as [E|E]; rewrite Hcount; lia.
  - intros filename content_type btl_days s0.
    assert (0 < CONFIG.CHUNK_SIZE) as Hcs by reflexivity.
    destruct (chunkWith_run CONFIG.CHUNK_SIZE B media_id expiration_block s)
      as (cs' & Hrun' & Hmap' & _).
    eexists. eexists. exists cs'. eexists.
    split; [reflexivity|]. split; [exact Hrun'|]. simpl. split; [reflexivity|].
    symmetry. apply ceil_div_unique; [assumption | assumption |].
    exact (chunk_count_bounds _ Hcs B cs' Hmap').
Qed.

(** C9.  Chunking is deterministic in what it says about the file: two runs
    of [chunkFile] on the same buffer, whenever and in whatever state they
    are made, return the same ordered sequence of indices, byte payloads and
    checksums, and every checksum is the SHA-256 of its payload written as
    64 lowercase hexadecimal digits. *)
Theorem C9_chunking_deterministic (B : Buffer) (media_id1 media_id2 : string)
    (expiration_block1 expiration_block2 : Z) (s1 s2 : Sys) :
  exists chunks1 s1' chunks2 s2',
    ChunkingService.chunkFile B media_id1 expiration_block1 s1 = (Ok chunks1, s1')
    /\ ChunkingService.chunkFile B media_id2 expiration_block2 s2 = (Ok chunks2, s2')
    /\ map chunk_content chunks1 = map chunk_content chunks2
    /\ Forall (fun c =>
                 ChunkEntity.checksum c = SHA256.sha256_hex (ChunkEntity.data c)
                 /\ String.length (ChunkEntity.checksum c) = 64%nat
                 /\ forallb is_lower_hex
                      (list_ascii_of_string (ChunkEntity.checksum c)) = true)
              chunks1.
Proof.
  destruct (chunkWith_run CONFIG.CHUNK_SIZE B media_id1 expiration_block1 s1)
    as (cs1 & Hrun1 & Hmap1 & Hall1).
  destruct (chunkWith_run CONFIG.CHUNK_SIZE B media_id2 expiration_block2 s2)
    as (cs2 & Hrun2 & Hmap2 & Hall2).
  exists cs1. eexists. exists cs2. eexists.
  split; [exact Hrun1|]. split; [exact Hrun2|]. split.
  - assert (forall cs m e,
              Forall (fun c => ChunkEntity.media_id c = m
                               /\ ChunkEntity.expiration_block c = e
                               /\ ChunkEntity.checksum c
                                  = ChunkingService.calculateChecksum (ChunkEntity.data c)) cs ->
              map chunk_content cs
              = map (fun p => (fst p, snd p, ChunkingService.calculateChecksum (snd p)))
                    (map index_and_data cs)) as Hview.
    { intros cs m e Hall. rewrite map_map. apply map_ext_Forall.
      eapply Forall_impl; [exact Hall|]. intros c (_ & _ & Hc).
      unfold chunk_content. simpl. rewrite Hc. reflexivity. }
    rewrite (Hview _ _ _ Hall1), (Hview _ _ _ Hall2), Hmap1, Hmap2. reflexivity.
  - eapply Forall_impl; [exact Hall1|]. intros c (_ & _ & Hc).
    rewrite Hc. unfold ChunkingService.calculateChecksum.
    split; [reflexivity|]. apply sha256_hex_lowercase.
Qed.

(** ** Quota *)

Lemma set_userUsage_same s : set_userUsage (userUsage s) s = s.
Proof. destruct s; reflexivity. Qed.

Lemma getUserQuota_run userId s :
  QuotaService.getUserQuota userId s = (Ok (quota_of s userId), touch userId s).
Proof.
  unfold QuotaService.getUserQuota, quota_of, touch, bind, gets, modify, ret.
  destruct (userUsage s !! userId) as [q|]; simpl.
  - rewrite set_userUsage_same. reflexivity.
  - reflexivity.
Qed.

Lemma quota_of_touch userId s u : quota_of (touch userId s) u = quota_of s u.
Proof.
  unfold quota_of, touch. simpl.
  destruct (userUsage s !! userId) as [q|] eqn:E; [reflexivity|].
  destruct (decide (userId = u)) as [->|Hne].
  - rewrite lookup_insert_eq, E. reflexivity.
  - rewrite lookup_insert_ne by exact Hne. reflexivity.
Qed.

(** The verdict of [checkQuota], as a function of the user's record. *)
Lemma checkQuota_run userId fileSize s :
  QuotaService.checkQuota userId fileSize s
  = (Ok (let q := quota_of s userId in
         if QuotaInfo.used_bytes q + fileSize >? QuotaInfo.max_bytes q then
           Denied ("Quota exceeded. Used: " ++ pretty (QuotaInfo.used_bytes q)
                   ++ "/" ++ pretty (QuotaInfo.max_bytes q) ++ " bytes")
         else if QuotaInfo.uploads_today q >=? QuotaInfo.max_uploads_per_day q then
           Denied ("Daily upload limit exceeded. Used: "
                   ++ pretty (QuotaInfo.uploads_today q) ++ "/"
                   ++ pretty (QuotaInfo.max_uploads_per_day q) ++ " uploads")
         else Allowed),
     touch userId s).
Proof.
  unfold QuotaService.checkQuota, bind. rewrite getUserQuota_run. cbv zeta.
  destruct (_ >? _); [reflexivity|]. destruct (_ >=? _); reflexivity.
Qed.

Lemma updateUsage_run userId fileSize s :
  QuotaService.updateUsage userId fileSize s
  = (Ok tt,
     set_userUsage (<[userId := committed (quota_of s userId) fileSize]>
                      (userUsage (touch userId s))) (touch userId s)).
Proof.
  unfold QuotaService.updateUsage, bind. rewrite getUserQuota_run. reflexivity.
Qed.

Lemma quota_of_updateUsage userId fileSize s u :
  quota_of (snd (QuotaService.updateUsage userId fileSize s)) u
  = if decide (userId = u) then committed (quota_of s u) fileSize else quota_of s u.
Proof.
  rewrite updateUsage_run. unfold quota_of at 1. simpl.
  destruct (decide (userId = u)) as [->|Hne].
  - rewrite lookup_insert_eq. reflexivity.
  - rewrite lookup_insert_ne by exact Hne.
    destruct (userUsage s !! userId) as [q|] eqn:E; [reflexivity|].
    rewrite lookup_insert_ne by exact Hne. reflexivity.
Qed.

(** C5.  [checkQuota] denies exactly when [used_bytes + incomingBytes >
    max_bytes] or [uploads_today >= max_uploads_per_day]; the byte quota is
    checked first, so its reason is the one returned when both are exceeded;
    a user ten bytes under the byte quota is denied eleven bytes and allowed
    ten; a user at the daily limit is denied whatever the size; and the
    check leaves every user's quota record, the stored entities and the
    sessions as they were. *)
Theorem C5_checkQuota_decision (s : Sys) (userId : string) (incomingBytes : Z) :
  let q := quota_of s userId in
  let over_bytes := QuotaInfo.max_bytes q < QuotaInfo.used_bytes q + incomingBytes in
  let over_count := QuotaInfo.max_uploads_per_day q <= QuotaInfo.uploads_today q in
  exists verdict s',
    QuotaService.checkQuota userId incomingBytes s = (Ok verdict, s')
    /\ (verdict = Allowed <-> ~ (over_bytes \/ over_count))
    /\ (over_bytes ->
        verdict = Denied ("Quota exceeded. Used: " ++ pretty (QuotaInfo.used_bytes q)
                          ++ "/" ++ pretty (QuotaInfo.max_bytes q) ++ " bytes"))
    /\ (~ over_bytes -> over_count ->
        verdict = Denied ("Daily upload limit exceeded. Used: "
                          ++ pretty (QuotaInfo.uploads_today q) ++ "/"
                          ++ pretty (QuotaInfo.max_uploads_per_day q) ++ " uploads"))
    /\ (QuotaInfo.used_bytes q = QuotaInfo.max_bytes q - 10 ->
        (incomingBytes = 11 -> verdict <> Allowed)
        /\ (incomingBytes = 10 -> ~ over_count -> verdict = Allowed))
    /\ (QuotaInfo.uploads_today q = QuotaInfo.max_uploads_per_day q ->
        verdict <> Allowed)
    /\ (forall u, quota_of s' u = quota_of s u)
    /\ entities s' = entities s
    /\ uploadSessions s' = uploadSessions s.
Proof.
  intros q over_bytes over_count. rewrite checkQuota_run. fold q.
  eexists. eexists. split; [reflexivity|]. cbv zeta.
  subst over_bytes over_count.
  assert (forall u, quota_of (touch userId s) u = quota_of s u) as Hsame
    by (intros u; apply quota_of_touch).
  destruct (Z.gtb_spec (QuotaInfo.used_bytes q + incomingBytes) (QuotaInfo.max_bytes q))
    as [Hb|Hb].
  - (* over the byte quota *)
    split; [split; [discriminate | intros H; exfalso; apply H; left; lia]|].
    split; [reflexivity|]. split; [intros H; exfalso; apply H; lia|].
    split; [intros Hu; split; [discriminate | intros; exfalso; lia]|].
    split; [discriminate|]. split; [exact Hsame|]. split; reflexivity.
  - destruct (Z.geb_spec (QuotaInfo.uploads_today q) (QuotaInfo.max_uploads_per_day q))
      as [Hc|Hc].
    + (* within the byte quota, at the daily limit *)
      split; [split; [discriminate | intros H; exfalso; apply H; right; lia]|].
      split; [intros; exfalso; lia|]. split; [reflexivity|].
      split; [intros _; split; [discriminate | intros _ H; exfalso; apply H; lia]|].
      split; [discriminate|]. split; [exact Hsame|]. split; reflexivity.
    + (* within both *)
      split; [split; [intros _ [H|H]; lia | reflexivity]|].
      split; [intros; exfalso; lia|]. split; [intros _ H; exfalso; lia|].
      split; [intros Hu; split; [intros ->; exfalso; lia | reflexivity]|].
      split; [intros; exfalso; lia|]. split; [exact Hsame|]. split; reflexivity.
Qed.

(** ** The storage backend *)

Lemma storeChunk_run chunk s :
  ArkivStorage.storeChunk chunk s
  = match walletClient s with
    | None =>
        (Thrown (Error "Write operations not available - wallet client is not configured"), s)
    | Some wallet =>
        match head (rpc_faults s) with
        | Some (Some e) => (Thrown e, set_rpc_faults (tail (rpc_faults s)) s)
        | _ =>
            (Ok tt,
             set_entities
               (entities s
                ++ [stored_chunk wallet (block_height s) (block_duration s) chunk])
               (set_rpc_faults (tail (rpc_faults s)) s))
        end
    end.
Proof.
  unfold ArkivStorage.storeChunk, ArkivStorage.requireWalletClient, bind, gets.
  destruct (walletClient s) as [wallet|]; [|reflexivity].
  unfold ret, try_catch, ArkivStorage.getExpiresInSeconds, ArkivStorage.getBlockTiming,
    ArkivStorage.createEntity, ArkivStorage.rpc, bind, gets, modify, ret, throw.
  cbn [fst snd].
  destruct (head (rpc_faults s)) as [[e|]|]; reflexivity.
Qed.

Lemma storeMetadata_run metadata s :
  ArkivStorage.storeMetadata metadata s
  = match walletClient s with
    | None =>
        (Thrown (Error "Write operations not available - wallet client is not configured"), s)
    | Some wallet =>
        match head (rpc_faults s) with
        | Some (Some e) => (Thrown e, set_rpc_faults (tail (rpc_faults s)) s)
        | _ =>
            (Ok tt,
             set_entities
               (entities s
                ++ [stored_metadata wallet (block_height s) (block_duration s) metadata])
               (set_rpc_faults (tail (rpc_faults s)) s))
        end
    end.
Proof.
  unfold ArkivStorage.storeMetadata, ArkivStorage.requireWalletClient, bind, gets.
  destruct (walletClient s) as [wallet|]; [|reflexivity].
  unfold ret, try_catch, ArkivStorage.getExpiresInSeconds, ArkivStorage.getBlockTiming,
    ArkivStorage.createEntity, ArkivStorage.rpc, bind, gets, modify, ret, throw.
  cbn [fst snd].
  destruct (head (rpc_faults s)) as [[e|]|]; reflexivity.
Qed.

(** The loop that stores the chunks: it stores a prefix of them, all of them
    exactly when it returns normally, and touches nothing but the store,
    the network and the session. *)
Lemma storeChunks_run key chunks : forall s r s',
  UploadService.storeChunks key chunks s = (r, s') ->
  exists k,
    (k <= length chunks)%nat
    /\ entities s'
       = entities s
         ++ map (stored_chunk (default EmptyString (walletClient s))
                   (block_height s) (block_duration s)) (take k chunks)
    /\ (r = Ok tt -> k = length chunks)
    /\ (forall e, r = Thrown e -> (k < length chunks)%nat)
    /\ same_service s s'
    /\ (forall m md, session_of s key m md -> session_of s' key m md).
Proof.
  induction chunks as [|c chunks IH]; intros s r s' Hrun.
  - injection Hrun as <- <-. exists 0%nat. rewrite app_nil_r.
    repeat split; try done.
  - simpl in Hrun. unfold bind at 1 in Hrun. rewrite storeChunk_run in Hrun.
    destruct (walletClient s) as [wallet|] eqn:Hw.
    2:{ injection Hrun as <- <-. exists 0%nat. simpl. rewrite app_nil_r.
        repeat split; try done; simpl; lia. }
    destruct (head (rpc_faults s)) as [[e|]|] eqn:Hf.
    1:{ injection Hrun as <- <-. exists 0%nat. simpl. rewrite app_nil_r.
        repeat split; try done; simpl; lia. }
    all: unfold bind at 1, UploadService.update_session, modify in Hrun.
    all: apply IH in Hrun.
    all: destruct Hrun as (k & Hk & Hent & Hok & Hthrown & Hsame & Hsess).
    all: exists (S k); simpl in *; rewrite Hw in *; simpl in *.
    all: split; [lia|]; split; [rewrite Hent, <- app_assoc; reflexivity|].
    all: split; [intros E; rewrite (Hok E); reflexivity|].
    all: split; [intros e0 E; specialize (Hthrown e0 E); lia|].
    all: split; [destruct Hsame as (?&?&?&?&?&?&?&?); repeat split; assumption|].
    all: intros m md (x & Hx & Hm & Hmd); apply Hsess; eexists;
      cbn [uploadSessions set_uploadSessions set_entities set_rpc_faults];
      rewrite lookup_alter_eq, Hx; simpl; split; [reflexivity|]; split; assumption.
Qed.

(** ** Uploads *)

Lemma initiateUpload_admitted B fn ct key u btl s :
  admitted s B ct u ->
  UploadService.initiateUpload B fn ct key u btl s
  = match uploadSessions s !! key with
    | Some session => (Ok (UploadOk (UploadSession.media_id session)), touch u s)
    | None =>
        let m := upload_id s in
        let eb := upload_expiration s btl in
        let md := upload_metadata s B fn ct btl in
        let s1 :=
          set_uploadSessions
            (<[key := UploadSession.mk m key md ∅ false]> (uploadSessions (touch u s)))
            (set_uuid_count (S (uuid_count s)) (touch u s)) in
        match ChunkingService.chunkFile B m eb s1 with
        | (Thrown e, s2) => (Thrown e, s2)
        | (Ok chunks, s2) =>
            match UploadService.storeChunks key chunks s2 with
            | (Thrown e, s3) => (Ok (UploadFail ("Upload failed: " ++ e)), s3)
            | (Ok _, s3) =>
                match ArkivStorage.storeMetadata md s3 with
                | (Thrown e, s4) => (Ok (UploadFail ("Upload failed: " ++ e)), s4)
                | (Ok _, s4) =>
                    (Ok (UploadOk m),
                     snd (QuotaService.updateUsage u (blen B)
                            (set_uploadSessions
                               (alter UploadService.set_completed key (uploadSessions s4))
                               s4)))
                end
            end
        end
    end.
Proof.
  intros (Hsize & Htype & Hquota).
  unfold UploadService.initiateUpload.
  destruct (Z.gtb_spec (blen B) CONFIG.MAX_FILE_SIZE); [lia|].
  rewrite Htype. cbn [negb].
  unfold bind at 1.
  pose proof (checkQuota_run u (blen B) s) as Hrun.
  destruct (QuotaService.checkQuota u (blen B) s) as [verdict s0].
  cbn [fst] in Hquota. subst verdict. injection Hrun as _ ->.
  unfold bind at 1, UploadService.findExistingSession, gets.
  cbn [uploadSessions touch set_userUsage].
  destruct (uploadSessions s !! key) as [session|]; [reflexivity|].
  unfold bind at 1, ChunkingService.generateMediaId, randomUUID.
  unfold bind at 1, ArkivStorage.calculateExpirationBlock.
  unfold bind at 1, newDate, gets, ret.
  unfold bind at 1, ChunkingService.createMetadata.
  unfold bind at 1, newDate, gets, ret.
  unfold bind at 1, modify.
  unfold bind at 1.
  cbv zeta.
  match goal with |- context [ChunkingService.chunkFile ?b ?m ?e ?s1] =>
    change (ChunkingService.chunkFile b m e s1)
      with (ChunkingService.chunkFile B (upload_id s) (upload_expiration s btl)
              (set_uploadSessions
                 (<[key := UploadSession.mk (upload_id s) key
                              (upload_metadata s B fn ct btl) ∅ false]>
                    (uploadSessions (touch u s)))
                 (set_uuid_count (S (uuid_count s)) (touch u s))))
  end.
  destruct (ChunkingService.chunkFile _ _ _ _) as [[chunks|e] s2]; [|reflexivity].
  unfold try_catch, bind at 1.
  destruct (UploadService.storeChunks key chunks s2) as [[[]|e] s3]; [|reflexivity].
  unfold bind at 1.
  change (ArkivStorage.storeMetadata _ s3)
    with (ArkivStorage.storeMetadata (upload_metadata s B fn ct btl) s3).
  destruct (ArkivStorage.storeMetadata _ s3) as [[[]|e] s4]; [|reflexivity].
  unfold bind at 1, UploadService.update_session, modify.
  unfold bind at 1.
  rewrite updateUsage_run. reflexivity.
Qed.

Lemma quota_of_ext s s' u : userUsage s' = userUsage s -> quota_of s' u = quota_of s u.
Proof. unfold quota_of. intros ->. reflexivity. Qed.

Lemma updateUsage_frame u n s :
  let s' := snd (QuotaService.updateUsage u n s) in
  entities s' = entities s /\ uploadSessions s' = uploadSessions s
  /\ uuid_source s' = uuid_source s /\ uuid_count s' = uuid_count s
  /\ walletClient s' = walletClient s /\ ownerAddress s' = ownerAddress s.
Proof. rewrite updateUsage_run. repeat split. Qed.

(** What a first upload under a key does, once it has passed the checks:
    it either commits (every chunk and the metadata stored, then the
    quota), or fails in storage having stored a prefix of the chunks and
    committed nothing. *)
Lemma initiateUpload_fresh B fn ct key u btl s r s' :
  admitted s B ct u ->
  uploadSessions s !! key = None ->
  UploadService.initiateUpload B fn ct key u btl s = (r, s') ->
  let m := upload_id s in
  let md := upload_metadata s B fn ct btl in
  let stored := stored_chunk (default EmptyString (walletClient s))
                  (block_height s) (block_duration s) in
  exists chunks k,
    map index_and_data chunks = slices (length B) CONFIG.CHUNK_SIZE B 0
    /\ Forall (fun c =>
                 ChunkEntity.media_id c = m
                 /\ ChunkEntity.expiration_block c = upload_expiration s btl
                 /\ ChunkEntity.checksum c
                    = ChunkingService.calculateChecksum (ChunkEntity.data c)) chunks
    /\ (k <= length chunks)%nat
    /\ session_of s' key m md
    /\ uuid_source s' = uuid_source s
    /\ uuid_count s' = S (uuid_count s + length chunks)
    /\ walletClient s' = walletClient s
    /\ ownerAddress s' = ownerAddress s
    /\ ((r = Ok (UploadOk m)
         /\ is_Some (walletClient s)
         /\ entities s'
            = entities s ++ map stored chunks
              ++ [stored_metadata (default EmptyString (walletClient s))
                    (block_height s) (block_duration s) md]
         /\ (forall u', quota_of s' u'
                        = if decide (u = u') then committed (quota_of s u') (blen B)
                          else quota_of s u')
         /\ exists session, uploadSessions s' !! key = Some session
                            /\ UploadSession.completed session = true)
        \/ (exists e, r = Ok (UploadFail ("Upload failed: " ++ e))
            /\ entities s' = entities s ++ map stored (take k chunks)
            /\ (forall u', quota_of s' u' = quota_of s u'))).
Proof.
  intros Hadm Hfresh Hrun m md stored.
  rewrite (initiateUpload_admitted _ _ _ _ _ _ _ Hadm), Hfresh in Hrun.
  cbv zeta in Hrun. fold m md in Hrun.
  match type of Hrun with context [ChunkingService.chunkFile ?b ?i ?e ?s1] =>
    destruct (chunkWith_run CONFIG.CHUNK_SIZE b i e s1) as (chunks & Hchunk & Hmap & Hall);
    unfold ChunkingService.chunkFile in Hrun; rewrite Hchunk in Hrun;
    set (s2 := set_uuid_count (uuid_count s1 + length chunks) s1) in *
  end.
  destruct (UploadService.storeChunks key chunks s2) as [r3 s3] eqn:Hstore.
  destruct (storeChunks_run key chunks s2 r3 s3 Hstore)
    as (k & Hk & Hent & Hok & Hthrown & Hsame & Hsess).
  destruct Hsame as (Hsrc & Hcnt & Hnow & Hbh & Hbd & Hw & Ho & Hu).
  assert (session_of s2 key m md) as Hs2.
  { eexists. subst s2. cbn [uploadSessions set_uuid_count set_uploadSessions].
    rewrite lookup_insert_eq. split; [reflexivity|]. split; reflexivity. }
  specialize (Hsess m md Hs2).
  assert (forall u', quota_of s3 u' = quota_of s u') as Hq3.
  { intros u'. rewrite (quota_of_ext _ _ _ Hu). subst s2.
    rewrite <- (quota_of_touch u s u'). apply quota_of_ext. reflexivity. }
  exists chunks, k.
  split; [exact Hmap|]. split; [exact Hall|]. split; [exact Hk|].
  destruct r3 as [[]|e].
  - rewrite storeMetadata_run, Hw in Hrun.
    change (walletClient s2) with (walletClient s) in *.
    change (block_height s2) with (block_height s) in *.
    change (block_duration s2) with (block_duration s) in *.
    change (ownerAddress s2) with (ownerAddress s) in *.
    change (uuid_source s2) with (uuid_source s) in *.
    change (entities s2) with (entities s) in *.
    change (uuid_count s2) with (S (uuid_count s) + length chunks)%nat in *.
    rewrite (Hok eq_refl), firstn_all in Hent.
    destruct (walletClient s) as [wallet|] eqn:Hwallet.
    2:{ injection Hrun as <- <-. repeat (split; [assumption || (simpl; lia)|]).
        right. eexists. split; [reflexivity|]. rewrite (Hok eq_refl), firstn_all.
        split; assumption. }
    destruct (head (rpc_faults s3)) as [[e|]|] eqn:Hf; injection Hrun as <- <-.
    1:{ split; [destruct Hsess as (x & ? & ? & ?); exists x; auto|].
        repeat (split; [assumption || (simpl; lia)|]).
        right. eexists. split; [reflexivity|]. rewrite (Hok eq_refl), firstn_all.
        split; [exact Hent|]. intros u'. rewrite <- Hq3. apply quota_of_ext. reflexivity. }
    all: match goal with |- context [QuotaService.updateUsage _ _ ?sx] =>
           assert (forall u', quota_of (snd (QuotaService.updateUsage u (blen B) sx)) u'
                              = if decide (u = u') then committed (quota_of s u') (blen B)
                                else quota_of s u') as Hq
             by (intros u'; rewrite quota_of_updateUsage;
                 destruct (decide (u = u')); [f_equal|]; rewrite <- Hq3;
                 apply quota_of_ext; reflexivity);
           destruct (updateUsage_frame u (blen B) sx) as (He & Hss & Hus & Huc & Hwc & Hoc);
           generalize dependent (snd (QuotaService.updateUsage u (blen B) sx))
         end.
    all: intros s' Hq He Hss Hus Huc Hwc Hoc.
    all: cbn [entities uploadSessions uuid_source uuid_count walletClient ownerAddress
              set_uploadSessions set_entities set_rpc_faults] in He, Hss, Hus, Huc, Hwc, Hoc.
    all: split;
      [destruct Hsess as (x & Hx & ? & ?); eexists; rewrite Hss, lookup_alter_eq, Hx;
       simpl; auto|].
    all: repeat (split; [congruence || lia|]).
    all: left; split; [reflexivity|]; split; [eauto|].
    all: split; [rewrite He, Hent, Hbh, Hbd, <- app_assoc; reflexivity|].
    all: split; [exact Hq|].
    all: destruct Hsess as (x & Hx & ? & ?); eexists; rewrite Hss, lookup_alter_eq, Hx;
      simpl; split; reflexivity.
  - injection Hrun as <- <-.
    change (walletClient s2) with (walletClient s) in *.
    change (block_height s2) with (block_height s) in *.
    change (block_duration s2) with (block_duration s) in *.
    change (ownerAddress s2) with (ownerAddress s) in *.
    change (uuid_source s2) with (uuid_source s) in *.
    change (entities s2) with (entities s) in *.
    change (uuid_count s2) with (S (uuid_count s) + length chunks)%nat in *.
    repeat (split; [assumption || (simpl; lia)|]).
    right. eexists. split; [reflexivity|]. split; assumption.
Qed.

(** ** Retrieval *)

Lemma metadata_eta (doc : MediaMetadata.t) :
  MediaMetadata.mk (MediaMetadata.media_id doc) (MediaMetadata.filename doc)
    (MediaMetadata.content_type doc) (MediaMetadata.file_size doc)
    (MediaMetadata.chunk_count doc) (MediaMetadata.checksum doc)
    (MediaMetadata.created_at doc) (MediaMetadata.expiration_block doc)
    (MediaMetadata.btl_days doc) = doc.
Proof. destruct doc; reflexivity. Qed.

Lemma getMetadata_run media_id s :
  ArkivStorage.getMetadata media_id s
  = match ownerAddress s with
    | None => (Ok None, s)
    | Some owner =>
        (match head (rpc_faults s) with
         | Some (Some _) => Ok None
         | _ => Ok (metadata_in_store owner media_id (entities s))
         end, after_rpc s)
    end.
Proof.
  unfold ArkivStorage.getMetadata, ArkivStorage.requireOwnerAddress, try_catch,
    bind, gets, ret, throw.
  destruct (ownerAddress s) as [owner|]; [|reflexivity].
  unfold ArkivStorage.fetch, ArkivStorage.rpc, bind, gets. cbn [fst snd].
  destruct (head (rpc_faults s)) as [[e|]|]; [reflexivity| |].
  all: unfold metadata_in_store, after_rpc;
    cbn [entities set_rpc_faults];
    destruct (List.filter _ (entities s)) as [|entity rest]; [reflexivity|];
    cbn [take]; destruct (Entity.payload entity) as [[b|doc]|]; try reflexivity;
    cbn [ArkivStorage.JSON_parse]; unfold ret; rewrite metadata_eta; reflexivity.
Qed.

Lemma getAllChunks_run media_id s :
  ArkivStorage.getAllChunks media_id s
  = match ownerAddress s with
    | None => (Ok [], s)
    | Some owner =>
        (match head (rpc_faults s) with
         | Some (Some e) => Thrown e
         | _ => Ok (chunks_in_store owner media_id (entities s))
         end, after_rpc s)
    end.
Proof.
  unfold ArkivStorage.getAllChunks, ArkivStorage.requireOwnerAddress, try_catch,
    bind, gets, ret, throw.
  destruct (ownerAddress s) as [owner|]; [|reflexivity].
  unfold ArkivStorage.fetch, ArkivStorage.rpc, bind, gets. cbn [fst snd].
  destruct (head (rpc_faults s)) as [[e|]|]; reflexivity.
Qed.

Lemma getMetadata_only_rpc media_id s :
  only_rpc s (snd (ArkivStorage.getMetadata media_id s)).
Proof.
  rewrite getMetadata_run. destruct (ownerAddress s); repeat split.
Qed.

Lemma getAllChunks_only_rpc media_id s :
  only_rpc s (snd (ArkivStorage.getAllChunks media_id s)).
Proof.
  rewrite getAllChunks_run. destruct (ownerAddress s); repeat split.
Qed.

Lemma only_rpc_trans s1 s2 s3 : only_rpc s1 s2 -> only_rpc s2 s3 -> only_rpc s1 s3.
Proof.
  unfold only_rpc. intros (?&?&?&?&?&?&?) (?&?&?&?&?&?&?). repeat split; congruence.
Qed.

(** [getMedia], step by step. *)
Lemma getMedia_run media_id s :
  UploadService.getMedia media_id s
  = match ArkivStorage.getMetadata media_id s with
    | (Thrown e, s1) => (Ok (MediaFail ("Retrieval failed: " ++ e)), s1)
    | (Ok None, s1) => (Ok (MediaFail "Media not found or expired"), s1)
    | (Ok (Some metadata), s1) =>
        match ArkivStorage.getAllChunks media_id s1 with
        | (Thrown e, s2) => (Ok (MediaFail ("Retrieval failed: " ++ e)), s2)
        | (Ok chunks, s2) =>
            if blen chunks =? 0 then
              (Ok (MediaFail "Media chunks not found or incomplete"), s2)
            else
              let buffer :=
                ChunkingService.reassembleFile (map (entity_of_chunk (now_ms s2)) chunks) in
              if ChunkingService.validateFileIntegrity
                   (MediaMetadata.checksum metadata) buffer
              then (Ok (MediaOk buffer metadata), s2)
              else (Ok (MediaFail "File integrity check failed"), s2)
        end
    end.
Proof.
  unfold UploadService.getMedia, try_catch, bind at 1.
  destruct (ArkivStorage.getMetadata media_id s) as [[[metadata|]|e] s1]; try reflexivity.
  unfold bind at 1.
  destruct (ArkivStorage.getAllChunks media_id s1) as [[chunks|e] s2]; [|reflexivity].
  destruct (blen chunks =? 0); [reflexivity|].
  unfold bind, newDate, gets, ret. cbv zeta.
  fold (entity_of_chunk (now_ms s2)).
  destruct (ChunkingService.validateFileIntegrity _ _); reflexivity.
Qed.

Lemma getMedia_only_rpc media_id s :
  only_rpc s (snd (UploadService.getMedia media_id s)).
Proof.
  rewrite getMedia_run.
  pose proof (getMetadata_only_rpc media_id s) as H1.
  destruct (ArkivStorage.getMetadata media_id s) as [[[metadata|]|e] s1]; try exact H1.
  pose proof (getAllChunks_only_rpc media_id s1) as H2.
  destruct (ArkivStorage.getAllChunks media_id s1) as [[chunks|e] s2];
    [|exact (only_rpc_trans _ _ _ H1 H2)].
  destruct (blen chunks =? 0); [exact (only_rpc_trans _ _ _ H1 H2)|].
  cbv zeta. destruct (ChunkingService.validateFileIntegrity _ _);
    exact (only_rpc_trans _ _ _ H1 H2).
Qed.

Lemma getChunkInfo_only_rpc media_id s :
  only_rpc s (snd (UploadService.getChunkInfo media_id s)).
Proof.
  unfold UploadService.getChunkInfo, try_catch, bind at 1.
  pose proof (getMetadata_only_rpc media_id s) as H1.
  destruct (ArkivStorage.getMetadata media_id s) as [[[metadata|]|e] s1]; try exact H1.
  unfold bind at 1.
  pose proof (getAllChunks_only_rpc media_id s1) as H2.
  destruct (ArkivStorage.getAllChunks media_id s1) as [[chunks|e] s2];
    [|exact (only_rpc_trans _ _ _ H1 H2)].
  destruct (blen chunks =? 0); exact (only_rpc_trans _ _ _ H1 H2).
Qed.

Lemma validateFileIntegrity_spec expected buffer :
  ChunkingService.validateFileIntegrity expected buffer = true
  <-> expected = SHA256.sha256_hex buffer.
Proof. unfold ChunkingService.validateFileIntegrity. apply String.eqb_eq. Qed.

(** C4.  Integrity check: whenever the metadata of a media id is found and
    the store returns chunks for it, [getMedia] compares the full SHA-256
    digest of the reassembled bytes with [metadata.checksum]; if they
    differ it fails with the integrity error (which is not the
    incomplete error) and returns no buffer; if they agree it returns the
    reassembled buffer and the metadata. *)
Theorem C4_integrity_failure_or_buffer (media_id : string) (s s1 s2 : Sys)
    (metadata : MediaMetadata.t) (chunks : list MediaChunk.t) :
  ArkivStorage.getMetadata media_id s = (Ok (Some metadata), s1) ->
  ArkivStorage.getAllChunks media_id s1 = (Ok chunks, s2) ->
  chunks <> [] ->
  let buffer :=
    ChunkingService.reassembleFile (map (entity_of_chunk (now_ms s2)) chunks) in
  (SHA256.sha256_hex buffer <> MediaMetadata.checksum metadata ->
   UploadService.getMedia media_id s
   = (Ok (MediaFail "File integrity check failed"), s2))
  /\ (SHA256.sha256_hex buffer = MediaMetadata.checksum metadata ->
      UploadService.getMedia media_id s = (Ok (MediaOk buffer metadata), s2))
  /\ MediaFail "File integrity check failed"
     <> MediaFail "Media chunks not found or incomplete"
  /\ (forall expected b,
        ChunkingService.validateFileIntegrity expected b = true
        <-> expected = SHA256.sha256_hex b).
Proof.
  intros Hmeta Hchunks Hne buffer.
  assert ((blen chunks =? 0) = false) as Hlen.
  { destruct chunks; [congruence|]. rewrite blen_cons. pose proof (blen_nonneg chunks). lia. }
  split; [|split; [|split]].
  - intros Hbad. rewrite getMedia_run, Hmeta, Hchunks, Hlen. cbv zeta. fold buffer.
    destruct (ChunkingService.validateFileIntegrity _ buffer) eqn:E; [|reflexivity].
    apply validateFileIntegrity_spec in E. congruence.
  - intros Hgood. rewrite getMedia_run, Hmeta, Hchunks, Hlen. cbv zeta. fold buffer.
    destruct (ChunkingService.validateFileIntegrity _ buffer) eqn:E; [reflexivity|].
    symmetry in Hgood. apply validateFileIntegrity_spec in Hgood. congruence.
  - discriminate.
  - apply validateFileIntegrity_spec.
Qed.

(** ** Every way an upload can end *)

Lemma quiet_refl s : quiet s s.
Proof. repeat split. Qed.

Lemma quiet_touch u s : quiet s (touch u s).
Proof. repeat split. apply quota_of_touch. Qed.

Lemma admitted_dec s B ct u : admitted s B ct u \/ ~ admitted s B ct u.
Proof.
  unfold admitted.
  destruct (Z.le_gt_cases (blen B) CONFIG.MAX_FILE_SIZE); [|right; lia].
  destruct (UploadService.isValidImageType ct); [|right; intros (_ & ? & _); discriminate].
  rewrite checkQuota_run. cbn [fst].
  destruct (_ >? _); [right; intros (_ & _ & ?); discriminate|].
  destruct (_ >=? _); [right; intros (_ & _ & ?); discriminate|].
  left. auto.
Qed.

(** A call that fails a check is answered with an error and changes
    nothing. *)
Lemma initiateUpload_rejected B fn ct key u btl s :
  ~ admitted s B ct u ->
  exists e s',
    UploadService.initiateUpload B fn ct key u btl s = (Ok (UploadFail e), s')
    /\ quiet s s'.
Proof.
  intros Hno. unfold UploadService.initiateUpload.
  destruct (Z.gtb_spec (blen B) CONFIG.MAX_FILE_SIZE) as [Hbig|Hsize].
  { eexists. eexists. split; [reflexivity | apply quiet_refl]. }
  destruct (UploadService.isValidImageType ct) eqn:Htype; cbn [negb].
  2:{ eexists. eexists. split; [reflexivity | apply quiet_refl]. }
  unfold bind at 1. rewrite checkQuota_run. cbv zeta.
  destruct (_ >? _) eqn:Hbytes.
  { eexists. eexists. split; [reflexivity | apply quiet_touch]. }
  destruct (_ >=? _) eqn:Hcount.
  { eexists. eexists. split; [reflexivity | apply quiet_touch]. }
  exfalso. apply Hno. unfold admitted. rewrite checkQuota_run. cbv zeta.
  rewrite Hbytes, Hcount. repeat split; [lia | assumption].
Qed.

(** A call whose key already has a session returns that session's id and
    changes nothing, whatever the session's progress. *)
Lemma initiateUpload_replay B fn ct key u btl s session :
  admitted s B ct u ->
  uploadSessions s !! key = Some session ->
  UploadService.initiateUpload B fn ct key u btl s
  = (Ok (UploadOk (UploadSession.media_id session)), touch u s).
Proof.
  intros Hadm Hsession. rewrite (initiateUpload_admitted _ _ _ _ _ _ _ Hadm), Hsession.
  reflexivity.
Qed.

(** Every call of [initiateUpload] returns a result, and either commits or
    leaves the quota alone. *)
Lemma initiateUpload_outcome B fn ct key u btl s :
  exists r s',
    UploadService.initiateUpload B fn ct key u btl s = (Ok r, s')
    /\ (upload_committed B fn ct key u btl s r s'
        \/ (quota_unchanged s s' /\ failed_or_replayed key s r))
    /\ (~ admitted s B ct u -> exists e, r = UploadFail e).
Proof.
  destruct (admitted_dec s B ct u) as [Hadm|Hno].
  - destruct (uploadSessions s !! key) as [session|] eqn:Hkey.
    + rewrite (initiateUpload_replay _ _ _ _ _ _ _ _ Hadm Hkey).
      eexists. eexists. split; [reflexivity|]. split; [|tauto].
      right. split; [intros u'; apply quota_of_touch|]. right. exists session. auto.
    + destruct (UploadService.initiateUpload B fn ct key u btl s) as [r s'] eqn:Hrun.
      destruct (initiateUpload_fresh _ _ _ _ _ _ _ _ _ Hadm Hkey Hrun)
        as (chunks & k & Hmap & Hall & Hk & Hsess & _ & _ & _ & _ & Hcase).
      destruct Hcase as [(-> & [wallet Hw] & Hent & Hq & Hdone)|(e & -> & Hent & Hq)].
      * eexists. eexists. split; [reflexivity|]. split; [|tauto].
        left. exists chunks, wallet. rewrite Hw in Hent. cbn [default] in Hent.
        do 5 (split; [assumption || reflexivity|]).
        split; [|split; [exact Hent|split; [exact Hdone|exact Hq]]].
        cbn [upload_metadata MediaMetadata.chunk_count].
        apply ceil_div_unique; [reflexivity | apply blen_nonneg |].
        apply (chunk_count_bounds CONFIG.CHUNK_SIZE eq_refl B chunks Hmap).
      * eexists. eexists. split; [reflexivity|]. split; [|tauto].
        right. split; [exact Hq|]. left. eauto.
  - destruct (initiateUpload_rejected B fn ct key u btl s Hno) as (e & s' & -> & Hquiet).
    eexists. eexists. split; [reflexivity|]. split; [|eauto].
    right. split; [intros u'; apply Hquiet|]. left. eauto.
Qed.

(** The operations that only read leave the quota alone. *)
Lemma reads_leave_quota op s :
  match op with
  | InitiateUpload _ _ _ _ _ _ => True
  | _ => quota_unchanged s (call op s)
  end.
Proof.
  destruct op as [B fn ct key u btl|media_id|key|media_id]; cbn [call].
  - exact I.
  - intros u. apply quota_of_ext. apply (getMedia_only_rpc media_id s).
  - intros u. reflexivity.
  - intros u. apply quota_of_ext. apply (getChunkInfo_only_rpc media_id s).
Qed.

(** C6.  Quota is committed only by completed uploads.  Across every
    operation of the service each user's [used_bytes] and [uploads_today]
    never decrease.  A call of [initiateUpload] always returns a result, and
    either it commits -- it was admitted under a key with no session, every
    chunk of the file and then the metadata have been stored, the session is
    marked completed, and the user's [used_bytes] has grown by the file's
    length and [uploads_today] by one, other users being untouched -- or it
    leaves every quota record as it was; the latter is the case whenever
    the call returns an error (failed validation, quota denial, storage
    failure partway) and whenever the key already had a session.  The
    other operations never change a quota record. *)
Theorem C6_quota_commit_only_on_completion (op : Op) (s : Sys) :
  (forall u,
     QuotaInfo.used_bytes (quota_of s u) <= QuotaInfo.used_bytes (quota_of (call op s) u)
     /\ QuotaInfo.uploads_today (quota_of s u)
        <= QuotaInfo.uploads_today (quota_of (call op s) u))
  /\ match op with
     | InitiateUpload B fn ct key u btl =>
         exists r s',
           UploadService.initiateUpload B fn ct key u btl s = (Ok r, s')
           /\ (upload_committed B fn ct key u btl s r s'
               \/ (quota_unchanged s s' /\ failed_or_replayed key s r))
           /\ (~ admitted s B ct u -> exists e, r = UploadFail e)
           /\ ((exists e, r = UploadFail e) -> quota_unchanged s s')
           /\ (is_Some (uploadSessions s !! key) -> quota_unchanged s s')
     | _ => quota_unchanged s (call op s)
     end.
Proof.
  split.
  - intros u0. pose proof (reads_leave_quota op s) as Hread.
    destruct op as [B fn ct key u btl|media_id|key|media_id].
    2,3,4: rewrite (Hread u0); lia.
    cbn [call].
    destruct (initiateUpload_outcome B fn ct key u btl s) as (r & s' & -> & Hcase & _).
    cbn [snd].
    destruct Hcase as [(chunks & wallet & _ & _ & _ & _ & _ & _ & _ & _ & Hq)|(Hq & _)];
      rewrite Hq; [|lia].
    destruct (decide (u = u0)); [|lia].
    unfold committed. cbn [QuotaInfo.used_bytes QuotaInfo.uploads_today].
    pose proof (blen_nonneg B). lia.
  - pose proof (reads_leave_quota op s) as Hread.
    destruct op as [B fn ct key u btl|media_id|key|media_id]; try exact Hread.
    destruct (initiateUpload_outcome B fn ct key u btl s) as (r & s' & Hrun & Hcase & Hrej).
    exists r, s'. split; [exact Hrun|]. split; [exact Hcase|]. split; [exact Hrej|].
    split.
    + intros (e & ->).
      destruct Hcase as [(chunks & wallet & Hr & _)|(Hq & _)]; [discriminate | exact Hq].
    + intros (session & Hkey).
      destruct Hcase as [(chunks & wallet & _ & _ & Hnone & _)|(Hq & _)];
        [congruence | exact Hq].
Qed.

(** A successful call was admitted. *)
Lemma success_admitted B fn ct key u btl s m s' :
  UploadService.initiateUpload B fn ct key u btl s = (Ok (UploadOk m), s') ->
  admitted s B ct u.
Proof.
  intros Hrun. destruct (admitted_dec s B ct u) as [H|H]; [exact H|].
  destruct (initiateUpload_rejected B fn ct key u btl s H) as (e & s0 & Hrej & _).
  congruence.
Qed.

(** C3 (as amended).  Replaying an upload.  When a first call under a fresh
    idempotency key succeeds and the quota check -- which runs before the
    session lookup -- still admits the file, a second call with the same
    key and file returns the same media id, stores nothing, and leaves the
    user's [uploads_today] exactly one above (and [used_bytes] exactly the
    file's length above) what they were before the first call.  More
    generally a call under a key that already has a session, completed or
    not, that passes the size, type and quota checks returns that
    session's media id and changes neither quota, store nor sessions. *)
Theorem C3_replay_returns_same_media_id (B : Buffer) (fn ct key u : string)
    (btl : Z) (s s1 : Sys) (m : string) :
  uploadSessions s !! key = None ->
  UploadService.initiateUpload B fn ct key u btl s = (Ok (UploadOk m), s1) ->
  fst (QuotaService.checkQuota u (blen B) s1) = Ok Allowed ->
  (exists s2,
     UploadService.initiateUpload B fn ct key u btl s1 = (Ok (UploadOk m), s2)
     /\ QuotaInfo.uploads_today (quota_of s2 u)
        = QuotaInfo.uploads_today (quota_of s u) + 1
     /\ QuotaInfo.used_bytes (quota_of s2 u)
        = QuotaInfo.used_bytes (quota_of s u) + blen B
     /\ entities s2 = entities s1
     /\ uploadSessions s2 = uploadSessions s1)
  /\ (forall s0 session B' fn' ct' u' btl',
        uploadSessions s0 !! key = Some session ->
        admitted s0 B' ct' u' ->
        exists s0',
          UploadService.initiateUpload B' fn' ct' key u' btl' s0
          = (Ok (UploadOk (UploadSession.media_id session)), s0')
          /\ quiet s0 s0').
Proof.
  intros Hfresh Hfirst Hquota. split.
  - pose proof (success_admitted _ _ _ _ _ _ _ _ _ Hfirst) as Hadm.
    destruct (initiateUpload_fresh _ _ _ _ _ _ _ _ _ Hadm Hfresh Hfirst)
      as (chunks & k & _ & _ & _ & (session & Hsession & Hid & _) & _ & _ & _ & _ & Hcase).
    destruct Hcase as [(Hm & _ & _ & Hq & _)|(e & He & _)]; [|discriminate].
    injection Hm as ->.
    assert (admitted s1 B ct u) as Hadm1.
    { destruct Hadm as (? & ? & _). repeat split; assumption. }
    rewrite (initiateUpload_replay _ _ _ _ _ _ _ _ Hadm1 Hsession), Hid.
    eexists. split; [reflexivity|].
    rewrite quota_of_touch, Hq. destruct (decide (u = u)); [|congruence].
    repeat split.
  - intros s0 session B' fn' ct' u' btl' Hsession Hadm.
    rewrite (initiateUpload_replay _ _ _ _ _ _ _ _ Hadm Hsession).
    eexists. split; [reflexivity | apply quiet_touch].
Qed.

Lemma seqZ_succ_shift n : map (fun i => i + 1) (seqZ 0 n) = seqZ 1 n.
Proof.
  change (seqZ 1 n) with (seqZ (1 + 0) n). rewrite <- fmap_add_seqZ.
  apply map_ext. intros i. lia.
Qed.


(** ** What later events can do to one media id *)

Lemma matches_mentions owner media_id e :
  mentions media_id e = false ->
  ArkivStorage.matches owner (chunk_query media_id) e = false
  /\ ArkivStorage.matches owner (metadata_query media_id) e = false.
Proof.
  unfold mentions, ArkivStorage.matches, chunk_query, metadata_query. intros H.
  cbn [forallb]. rewrite H. split; rewrite ?andb_false_r; reflexivity.
Qed.

Lemma stored_chunk_mentions w h d c x :
  x <> ChunkEntity.media_id c -> mentions x (stored_chunk w h d c) = false.
Proof.
  intros Hne. unfold mentions, ArkivStorage.has_attribute, stored_chunk.
  cbn [Entity.attributes existsb fst snd AttrValue_eqb].
  replace (String.eqb (ChunkEntity.media_id c) x) with false
    by (symmetry; apply String.eqb_neq; congruence).
  reflexivity.
Qed.

Lemma stored_metadata_mentions w h d md x :
  x <> MediaMetadata.media_id md -> mentions x (stored_metadata w h d md) = false.
Proof.
  intros Hne. unfold mentions, ArkivStorage.has_attribute, stored_metadata.
  cbn [Entity.attributes existsb fst snd AttrValue_eqb].
  replace (String.eqb (MediaMetadata.media_id md) x) with false
    by (symmetry; apply String.eqb_neq; congruence).
  reflexivity.
Qed.

(** Whatever a call of [initiateUpload] does to the store, it only appends
    entities that carry the id the call drew; it never rewinds the UUID
    generator nor touches the configuration. *)
Lemma initiateUpload_effect B fn ct key u btl s :
  let s' := snd (UploadService.initiateUpload B fn ct key u btl s) in
  uuid_source s' = uuid_source s
  /\ (uuid_count s <= uuid_count s')%nat
  /\ ownerAddress s' = ownerAddress s
  /\ walletClient s' = walletClient s
  /\ exists more,
       entities s' = entities s ++ more
       /\ Forall (fun e => forall x, x <> upload_id s -> mentions x e = false) more.
Proof.
  cbv zeta. destruct (admitted_dec s B ct u) as [Hadm|Hno].
  - destruct (uploadSessions s !! key) as [session|] eqn:Hkey.
    + rewrite (initiateUpload_replay _ _ _ _ _ _ _ _ Hadm Hkey). cbn [snd].
      repeat split; try reflexivity. exists []. rewrite app_nil_r. split; [reflexivity|constructor].
    + destruct (UploadService.initiateUpload B fn ct key u btl s) as [r s'] eqn:Hrun.
      destruct (initiateUpload_fresh _ _ _ _ _ _ _ _ _ Hadm Hkey Hrun)
        as (chunks & k & _ & Hall & _ & _ & Hsrc & Hcnt & Hw & Ho & Hcase).
      cbn [snd]. split; [exact Hsrc|]. split; [lia|]. split; [exact Ho|].
      split; [exact Hw|].
      assert (forall l,
                Forall (fun c => ChunkEntity.media_id c = upload_id s
                                 /\ ChunkEntity.expiration_block c = upload_expiration s btl
                                 /\ ChunkEntity.checksum c
                                    = ChunkingService.calculateChecksum (ChunkEntity.data c)) l ->
                Forall (fun e => forall x, x <> upload_id s -> mentions x e = false)
                  (map (stored_chunk (default EmptyString (walletClient s))
                          (block_height s) (block_duration s)) l)) as Hchunks.
      { intros l Hl. apply Forall_fmap. eapply Forall_impl; [exact Hl|].
        intros c (Hc & _) x Hx. apply stored_chunk_mentions. congruence. }
      destruct Hcase as [(_ & _ & Hent & _)|(e & _ & Hent & _)].
      * eexists. split; [exact Hent|]. apply Forall_app. split.
        -- apply Hchunks, Hall.
        -- constructor; [|constructor]. intros x Hx.
           apply stored_metadata_mentions. exact Hx.
      * eexists. split; [exact Hent|]. apply Hchunks, Forall_take, Hall.
  - destruct (initiateUpload_rejected B fn ct key u btl s Hno)
      as (e & s' & -> & (Hsrc & Hcnt & Hent & Hw & Ho & _)).
    cbn [snd]. split; [exact Hsrc|]. split; [lia|]. split; [exact Ho|]. split; [exact Hw|].
    exists []. rewrite app_nil_r. split; [exact Hent | constructor].
Qed.

Lemma filter_none {A} (f : A -> bool) (l : list A) :
  Forall (fun x => f x = false) l -> List.filter f l = [].
Proof.
  induction 1 as [|x l Hx _ IH]; [reflexivity|]. simpl. rewrite Hx. exact IH.
Qed.

(** What any event does to the store, the generator and the owner. *)
Lemma happen_effect s ev :
  uuid_source (happen s ev) = uuid_source s
  /\ (uuid_count s <= uuid_count (happen s ev))%nat
  /\ ownerAddress (happen s ev) = ownerAddress s
  /\ match ev with
     | Expire position => entities (happen s ev) = delete position (entities s)
     | _ => exists more,
              entities (happen s ev) = entities s ++ more
              /\ Forall (fun e => forall x, x <> upload_id s -> mentions x e = false) more
     end.
Proof.
  destruct ev as [[B fn ct key u btl|media_id|key|media_id]|position|now height duration|faults];
    cbn [happen call].
  - destruct (initiateUpload_effect B fn ct key u btl s) as (? & ? & ? & _ & ?). auto.
  - destruct (getMedia_only_rpc media_id s) as (-> & -> & -> & _ & -> & _).
    do 3 (split; [reflexivity || lia|]). exists []. rewrite app_nil_r. auto.
  - do 3 (split; [reflexivity || lia|]). exists []. rewrite app_nil_r. auto.
  - destruct (getChunkInfo_only_rpc media_id s) as (-> & -> & -> & _ & -> & _).
    do 3 (split; [reflexivity || lia|]). exists []. rewrite app_nil_r. auto.
  - do 3 (split; [reflexivity || lia|]). reflexivity.
  - do 3 (split; [reflexivity || lia|]). exists []. rewrite app_nil_r. auto.
  - do 3 (split; [reflexivity || lia|]). exists []. rewrite app_nil_r. auto.
Qed.

Section LostUpload.

Context (wallet media_id : string) (source : nat -> string) (from : nat).
Hypothesis never_reissued : forall n, (from <= n)%nat -> source n <> media_id.





End LostUpload.

Lemma stored_metadata_not_chunk w h d md x :
  ArkivStorage.matches w (chunk_query x) (stored_metadata w h d md) = false.
Proof.
  unfold ArkivStorage.matches, chunk_query, stored_metadata, ArkivStorage.has_attribute.
  cbn [forallb Entity.attributes Entity.owner existsb fst snd AttrValue_eqb].
  cbn. rewrite ?andb_false_r. reflexivity.
Qed.

Lemma stored_metadata_matches w h d md :
  ArkivStorage.matches w (metadata_query (MediaMetadata.media_id md))
    (stored_metadata w h d md) = true.
Proof.
  unfold ArkivStorage.matches, metadata_query, stored_metadata, ArkivStorage.has_attribute.
  cbn [forallb Entity.attributes Entity.owner existsb fst snd AttrValue_eqb].
  rewrite !String.eqb_refl. cbn. reflexivity.
Qed.


(** ** The concrete deployment at work *)

Example tiny_upload_and_retrieval :
  fst (upload_tiny "k1" boot) = Ok (UploadOk "uuid-0")
  /\ exists md, fst (UploadService.getMedia "uuid-0" (snd (upload_tiny "k1" boot)))
                = Ok (MediaOk tiny_png md).
Proof. split; [vm_compute; reflexivity|]. eexists. vm_compute. reflexivity. Qed.

Lemma C1_roundtrip_witness :
  exists chunks s',
    ChunkingService.chunkFile tiny_png "uuid-0" 850302400 boot = (Ok chunks, s')
    /\ ChunkingService.reassembleFile chunks = tiny_png.
Proof.
  apply (C1_chunk_reassemble_roundtrip tiny_png "uuid-0" 850302400 boot).
  vm_compute. split; [reflexivity | discriminate].
Defined.

Lemma C7_chunk_count_witness :
  exists chunks s',
    ChunkingService.chunkWith 3 tiny_png "uuid-0" 850302400 boot = (Ok chunks, s')
    /\ blen chunks = 3
    /\ (forall c, last chunks = Some c -> blen (ChunkEntity.data c) = 2).
Proof.
  destruct (C7_chunk_count_and_sizes tiny_png 3 "uuid-0" 850302400 boot eq_refl)
    as (chunks & s' & Hrun & Hcount & _ & _ & Hlast & _).
  exists chunks, s'. split; [exact Hrun|]. split; [exact Hcount|].
  intros c Hc. rewrite (Hlast c Hc). reflexivity.
Defined.

(** C3, refuted as stated: the anonymous user has made nine uploads; the
    tenth, under key "k10", succeeds; the same call made again is
    rejected by the quota check, which runs before the session lookup. *)
Lemma C3_replay_rejected_at_daily_limit :
  fst (upload_tiny "k10" after_nine_uploads) = Ok (UploadOk "uuid-18")
  /\ fst (upload_tiny "k10" (snd (upload_tiny "k10" after_nine_uploads)))
     = Ok (UploadFail "Daily upload limit exceeded. Used: 10/10 uploads").
Proof. vm_compute. split; reflexivity. Qed.

Lemma C3_replay_witness :
  exists s1 s2,
    upload_tiny "k1" boot = (Ok (UploadOk "uuid-0"), s1)
    /\ upload_tiny "k1" s1 = (Ok (UploadOk "uuid-0"), s2)
    /\ QuotaInfo.uploads_today (quota_of s2 "anonymous") = 1.
Proof.
  assert (upload_tiny "k1" boot = (Ok (UploadOk "uuid-0"), snd (upload_tiny "k1" boot)))
    as Hfirst by (vm_compute; reflexivity).
  destruct (C3_replay_returns_same_media_id tiny_png "tiny.png" "image/png" "k1"
              "anonymous" 7 boot (snd (upload_tiny "k1" boot)) "uuid-0")
    as ((s2 & Hsecond & Hcount & _) & _).
  - reflexivity.
  - exact Hfirst.
  - vm_compute. reflexivity.
  - exists (snd (upload_tiny "k1" boot)), s2.
    split; [exact Hfirst|]. split; [exact Hsecond|]. rewrite Hcount. reflexivity.
Defined.

Lemma C4_integrity_witness :
  exists md s2,
    UploadService.getMedia "uuid-0" (snd (upload_tiny "k1" boot))
    = (Ok (MediaOk tiny_png md), s2).
Proof.
  pose (s := snd (upload_tiny "k1" boot)).
  pose (r1 := ArkivStorage.getMetadata "uuid-0" s).
  pose (r2 := ArkivStorage.getAllChunks "uuid-0" (snd r1)).
  pose (md := upload_metadata boot tiny_png "tiny.png" "image/png" 7).
  pose (chunks := chunks_in_store "0xA11CE" "uuid-0" (entities s)).
  destruct (C4_integrity_failure_or_buffer "uuid-0" s (snd r1) (snd r2) md chunks)
    as (_ & Hgood & _).
  - vm_compute. reflexivity.
  - vm_compute. reflexivity.
  - vm_compute. discriminate.
  - exists md, (snd r2). fold s. rewrite Hgood; [|vm_compute; reflexivity].
    vm_compute. reflexivity.
Defined.



Lemma uuid_of_inj n n' : uuid_of n = uuid_of n' -> n = n'.
Proof.
  unfold uuid_of. intros H. simpl in H. injection H as H.
  exact (pretty_nat_inj _ _ H).
Qed.


(** Whenever the store returns at least one chunk, [getMedia] answers with
    the integrity error or with a buffer, whatever [chunk_count] says; the
    incomplete error is kept for the empty list. *)
Lemma getMedia_some_chunks media_id s s1 s2 metadata chunks :
  ArkivStorage.getMetadata media_id s = (Ok (Some metadata), s1) ->
  ArkivStorage.getAllChunks media_id s1 = (Ok chunks, s2) ->
  chunks <> [] ->
  fst (UploadService.getMedia media_id s) = Ok (MediaFail "File integrity check failed")
  \/ exists buffer, fst (UploadService.getMedia media_id s) = Ok (MediaOk buffer metadata).
Proof.
  intros Hmeta Hchunks Hne. rewrite getMedia_run, Hmeta, Hchunks.
  assert ((blen chunks =? 0) = false) as ->.
  { destruct chunks; [congruence|]. rewrite blen_cons. pose proof (blen_nonneg chunks). lia. }
  cbv zeta. destruct (ChunkingService.validateFileIntegrity _ _); cbn [fst]; eauto.
Qed.

(** C2, the failing input: a file of two chunks whose first chunk entity
    has expired.  The metadata still says two chunks, the store returns
    one, and [getMedia] reassembles that one and reports an integrity
    failure, not an incomplete file. *)
Theorem C2_missing_chunk_reported_as_integrity_failure :
  option_map MediaMetadata.chunk_count
    (metadata_in_store "0xA11CE" "uuid-0" (entities first_chunk_expired)) = Some 2
  /\ blen (chunks_in_store "0xA11CE" "uuid-0" (entities first_chunk_expired)) = 1
  /\ fst (UploadService.getMedia "uuid-0" first_chunk_expired)
     = Ok (MediaFail "File integrity check failed").
Proof. vm_compute. repeat split; reflexivity. Qed.

(** ** The platform's sort *)

Section Sort.

Context {A : Type} (key : A -> Z).

Lemma sort_insert_perm (a : A) (l : list A) :
  sort_insert (fun x y => key x - key y) a l ≡ₚ a :: l.
Proof.
  induction l as [|b l IH]; simpl; [reflexivity|].
  destruct (_ <=? 0); [reflexivity|].
  rewrite IH. apply Permutation_swap.
Qed.

Lemma sort_perm (l : list A) : sort (fun x y => key x - key y) l ≡ₚ l.
Proof.
  unfold sort. induction l as [|a l IH]; simpl; [reflexivity|].
  rewrite sort_insert_perm, IH. reflexivity.
Qed.

Lemma sort_insert_sorted (a : A) (l : list A) :
  StronglySorted (fun x y => key x <= key y) l ->
  StronglySorted (fun x y => key x <= key y)
    (sort_insert (fun x y => key x - key y) a l).
Proof.
  induction 1 as [|b l Hl IH Hb]; simpl.
  - repeat constructor.
  - destruct (Z.leb_spec (key a - key b) 0) as [Hle|Hgt].
    + constructor; [constructor; assumption|].
      constructor; [lia|]. eapply Forall_impl; [exact Hb|]. simpl. intros; lia.
    + constructor; [exact IH|].
      rewrite sort_insert_perm. constructor; [lia | exact Hb].
Qed.

Lemma sort_sorted (l : list A) :
  StronglySorted (fun x y => key x <= key y) (sort (fun x y => key x - key y) l).
Proof.
  unfold sort. induction l as [|a l IH]; simpl; [constructor|].
  apply sort_insert_sorted, IH.
Qed.

(** Elements with distinct keys come out in one order, whatever order
    they went in. *)
Lemma sort_perm_eq (l l' : list A) :
  l' ≡ₚ l -> NoDup (map key l) ->
  sort (fun x y => key x - key y) l' = sort (fun x y => key x - key y) l.
Proof.
  intros Hperm Hnodup.
  apply (StronglySorted_unique_strong (fun x y => key x <= key y)).
  - intros x y Hx Hy Hxy Hyx.
    rewrite sort_perm, Hperm in Hx. rewrite sort_perm in Hy.
    assert (key x = key y) as Hk by lia.
    clear Hxy Hyx Hperm. induction l as [|a l IH]; [inversion Hx|].
    simpl in Hnodup. apply NoDup_cons in Hnodup as [Hnotin Hnodup].
    apply elem_of_cons in Hx as [->|Hx]; apply elem_of_cons in Hy as [->|Hy].
    + reflexivity.
    + exfalso. apply Hnotin. rewrite Hk. apply (list_elem_of_fmap_2 key), Hy.
    + exfalso. apply Hnotin. rewrite <- Hk. apply (list_elem_of_fmap_2 key), Hx.
    + apply IH; assumption.
  - apply sort_sorted.
  - apply sort_sorted.
  - rewrite !sort_perm. exact Hperm.
Qed.

End Sort.

(** ** The upload loop, exactly *)

Lemma received_fields chunks : forall session,
  UploadSession.media_id (received chunks session) = UploadSession.media_id session
  /\ UploadSession.idempotency_key (received chunks session)
     = UploadSession.idempotency_key session
  /\ UploadSession.metadata (received chunks session) = UploadSession.metadata session
  /\ UploadSession.completed (received chunks session) = UploadSession.completed session
  /\ UploadSession.chunks_received (received chunks session)
     = list_to_set (map ChunkEntity.chunk_index chunks)
       ∪ UploadSession.chunks_received session.
Proof.
  induction chunks as [|c chunks IH]; intros session.
  - simpl. repeat split. rewrite (left_id_L ∅ (∪)). reflexivity.
  - destruct (IH (UploadService.add_received (ChunkEntity.chunk_index c) session))
      as (H1 & H2 & H3 & H4 & H5).
    unfold received in *. simpl. rewrite H1, H2, H3, H4, H5. repeat split.
    simpl. apply set_eq. intros x. rewrite !elem_of_union, elem_of_singleton. tauto.
Qed.

Lemma drop_tail {A} (n : nat) (l : list A) : drop n (tail l) = drop (S n) l.
Proof. destruct l; [destruct n|]; reflexivity. Qed.

Lemma storeChunks_exact key chunks : forall s r s',
  UploadService.storeChunks key chunks s = (r, s') ->
  exists k,
    (k <= length chunks)%nat
    /\ entities s'
       = entities s
         ++ map (stored_chunk (default EmptyString (walletClient s))
                   (block_height s) (block_duration s)) (take k chunks)
    /\ uploadSessions s' = alter (received (take k chunks)) key (uploadSessions s)
    /\ rpc_faults s' = drop (calls_of_stores k r (walletClient s)) (rpc_faults s)
    /\ (r = Ok tt -> k = length chunks)
    /\ (forall e, r = Thrown e -> (k < length chunks)%nat)
    /\ same_service s s'.
Proof.
  induction chunks as [|c chunks IH]; intros s r s' Hrun.
  - injection Hrun as <- <-. exists 0%nat. rewrite app_nil_r.
    split; [simpl; lia|]. split; [reflexivity|].
    split; [symmetry; apply alter_id; reflexivity|].
    split; [destruct (walletClient s); reflexivity|].
    repeat split; try done.
  - simpl in Hrun. unfold bind at 1 in Hrun. rewrite storeChunk_run in Hrun.
    destruct (walletClient s) as [wallet|] eqn:Hw.
    2:{ injection Hrun as <- <-. exists 0%nat. simpl. rewrite app_nil_r.
        split; [lia|]. split; [reflexivity|].
        split; [symmetry; apply alter_id; reflexivity|].
        split; [reflexivity|].
        repeat split; try done; simpl; lia. }
    destruct (head (rpc_faults s)) as [[e|]|] eqn:Hf.
    1:{ injection Hrun as <- <-. exists 0%nat. simpl. rewrite app_nil_r.
        split; [lia|]. split; [reflexivity|].
        split; [symmetry; apply alter_id; reflexivity|].
        split; [destruct (rpc_faults s); reflexivity|].
        repeat split; try done; simpl; lia. }
    all: unfold bind at 1, UploadService.update_session, modify in Hrun.
    all: apply IH in Hrun.
    all: destruct Hrun as (k & Hk & Hent & Hsess & Hrpc & Hok & Hthrown & Hsame).
    all: exists (S k); simpl in *; rewrite Hw in *; simpl in *.
    all: split; [lia|]; split; [rewrite Hent, <- app_assoc; reflexivity|].
    all: split; [rewrite Hsess, alter_alter_eq; reflexivity|].
    all: split; [rewrite Hrpc, drop_tail; destruct r; reflexivity|].
    all: split; [intros E; rewrite (Hok E); reflexivity|].
    all: split; [intros e0 E; specialize (Hthrown e0 E); lia|].
    all: destruct Hsame as (?&?&?&?&?&?&?&?); repeat split; assumption.
Qed.

(** The indices [chunkFile] gives its chunks are their positions. *)
Lemma chunk_indices chunkSize buf cs :
  0 < chunkSize ->
  map index_and_data cs = slices (length buf) chunkSize buf 0 ->
  map ChunkEntity.chunk_index cs = seqZ 0 (blen cs).
Proof.
  intros Hpos Hmap. apply list_eq. intros j. rewrite list_lookup_fmap.
  destruct (cs !! j) as [c|] eqn:Hj; simpl.
  - destruct (chunk_lookup _ Hpos _ _ _ _ Hmap Hj) as (-> & _).
    symmetry. apply lookup_seqZ. split; [lia|].
    apply lookup_lt_Some in Hj. unfold blen. lia.
  - symmetry. apply lookup_seqZ_ge. apply lookup_ge_None in Hj. unfold blen. lia.
Qed.

Lemma take_seqZ (k : nat) (n : Z) :
  Z.of_nat k <= n -> take k (seqZ 0 n) = seqZ 0 (Z.of_nat k).
Proof.
  intros Hk. apply list_eq. intros j.
  destruct (Nat.lt_ge_cases j k) as [Hlt|Hge].
  - rewrite lookup_take_lt by lia. rewrite !lookup_seqZ_lt by lia. reflexivity.
  - rewrite lookup_take_ge by lia. symmetry. apply lookup_seqZ_ge. lia.
Qed.

(** The number of chunks of a file is the [chunk_count] of its metadata. *)
Lemma chunk_count_of B cs :
  map index_and_data cs = slices (length B) CONFIG.CHUNK_SIZE B 0 ->
  blen cs = ceil_div (blen B) CONFIG.CHUNK_SIZE.
Proof.
  intros Hmap. apply ceil_div_unique; [reflexivity | apply blen_nonneg |].
  apply (chunk_count_bounds CONFIG.CHUNK_SIZE eq_refl B cs Hmap).
Qed.

Lemma session_ext (a b : UploadSession.t) :
  UploadSession.media_id a = UploadSession.media_id b ->
  UploadSession.idempotency_key a = UploadSession.idempotency_key b ->
  UploadSession.metadata a = UploadSession.metadata b ->
  UploadSession.chunks_received a = UploadSession.chunks_received b ->
  UploadSession.completed a = UploadSession.completed b ->
  a = b.
Proof. destruct a, b; simpl; intros; subst; reflexivity. Qed.

(** What a first upload under a key leaves behind, exactly: the session
    with the indices of the chunks that were stored, the entities of those
    chunks and, when every store succeeded, of the metadata. *)
Lemma initiateUpload_fresh_exact B fn ct key u btl s r s' :
  admitted s B ct u ->
  uploadSessions s !! key = None ->
  UploadService.initiateUpload B fn ct key u btl s = (r, s') ->
  let m := upload_id s in
  let md := upload_metadata s B fn ct btl in
  let stored := stored_chunk (default EmptyString (walletClient s))
                  (block_height s) (block_duration s) in
  exists chunks k completed,
    map index_and_data chunks = slices (length B) CONFIG.CHUNK_SIZE B 0
    /\ Forall (fun c =>
                 ChunkEntity.media_id c = m
                 /\ ChunkEntity.expiration_block c = upload_expiration s btl
                 /\ ChunkEntity.checksum c
                    = ChunkingService.calculateChecksum (ChunkEntity.data c)) chunks
    /\ (k <= length chunks)%nat
    /\ uploadSessions s'
       = <[key := session_after s B fn ct key btl (Z.of_nat k) completed]>
           (uploadSessions s)
    /\ entities s'
       = entities s ++ map stored (take k chunks)
         ++ (if completed
             then [stored_metadata (default EmptyString (walletClient s))
                     (block_height s) (block_duration s) md]
             else [])
    /\ uuid_source s' = uuid_source s
    /\ uuid_count s' = S (uuid_count s + length chunks)
    /\ walletClient s' = walletClient s
    /\ ownerAddress s' = ownerAddress s
    /\ now_ms s' = now_ms s
    /\ if completed
       then k = length chunks /\ r = Ok (UploadOk m) /\ is_Some (walletClient s)
            /\ forall u', quota_of s' u'
                          = if decide (u = u') then committed (quota_of s u') (blen B)
                            else quota_of s u'
       else (exists e, r = Ok (UploadFail ("Upload failed: " ++ e)))
            /\ forall u', quota_of s' u' = quota_of s u'.
Proof.
  intros Hadm Hfresh Hrun m md stored.
  rewrite (initiateUpload_admitted _ _ _ _ _ _ _ Hadm), Hfresh in Hrun.
  cbv zeta in Hrun. fold m md in Hrun.
  match type of Hrun with context [ChunkingService.chunkFile ?b ?i ?e ?s1] =>
    destruct (chunkWith_run CONFIG.CHUNK_SIZE b i e s1) as (chunks & Hchunk & Hmap & Hall);
    unfold ChunkingService.chunkFile in Hrun; rewrite Hchunk in Hrun;
    set (s2 := set_uuid_count (uuid_count s1 + length chunks) s1) in *
  end.
  destruct (UploadService.storeChunks key chunks s2) as [r3 s3] eqn:Hstore.
  destruct (storeChunks_exact key chunks s2 r3 s3 Hstore)
    as (k & Hk & Hent & Hsess & _ & Hok & Hthrown & Hsame).
  destruct Hsame as (Hsrc & Hcnt & Hnow & Hbh & Hbd & Hw & Ho & Hu).
  assert (uploadSessions s3
          = <[key := session_after s B fn ct key btl (Z.of_nat k) false]>
              (uploadSessions s)) as Hsess3.
  { rewrite Hsess. subst s2. cbn [uploadSessions set_uuid_count set_uploadSessions touch
                                   set_userUsage].
    rewrite alter_insert_eq. f_equal.
    destruct (received_fields (take k chunks) (UploadSession.mk m key md ∅ false))
      as (H1 & H2 & H3 & H4 & H5).
    apply session_ext; [exact H1 | exact H2 | exact H3 | | exact H4].
    rewrite H5. cbn [UploadSession.chunks_received session_after].
    rewrite (right_id_L ∅ (∪)), <- firstn_map.
    rewrite (chunk_indices CONFIG.CHUNK_SIZE B chunks eq_refl Hmap).
    rewrite take_seqZ by (unfold blen; lia). reflexivity. }
  assert (forall u', quota_of s3 u' = quota_of s u') as Hq3.
  { intros u'. rewrite (quota_of_ext _ _ _ Hu). subst s2.
    rewrite <- (quota_of_touch u s u'). apply quota_of_ext. reflexivity. }
  change (walletClient s2) with (walletClient s) in *.
  change (block_height s2) with (block_height s) in *.
  change (block_duration s2) with (block_duration s) in *.
  change (ownerAddress s2) with (ownerAddress s) in *.
  change (uuid_source s2) with (uuid_source s) in *.
  change (entities s2) with (entities s) in *.
  change (now_ms s2) with (now_ms s) in *.
  change (uuid_count s2) with (S (uuid_count s) + length chunks)%nat in *.
  exists chunks, k.
  destruct r3 as [[]|e].
  - rewrite storeMetadata_run, Hw in Hrun.
    destruct (walletClient s) as [wallet|] eqn:Hwallet.
    2:{ injection Hrun as <- <-. exists false.
        rewrite app_nil_r. repeat (split; [assumption || (simpl; lia)|]).
        split; [eauto | exact Hq3]. }
    destruct (head (rpc_faults s3)) as [[e|]|] eqn:Hf; injection Hrun as <- <-.
    1:{ exists false. rewrite app_nil_r.
        cbn [uploadSessions entities uuid_source uuid_count walletClient ownerAddress
             now_ms set_rpc_faults].
        repeat (split; [assumption || (simpl; lia)|]).
        split; [eauto|]. intros u'. rewrite <- Hq3. apply quota_of_ext. reflexivity. }
    all: exists true.
    all: match goal with |- context [QuotaService.updateUsage _ _ ?sx] =>
           assert (forall u', quota_of (snd (QuotaService.updateUsage u (blen B) sx)) u'
                              = if decide (u = u') then committed (quota_of s u') (blen B)
                                else quota_of s u') as Hq
             by (intros u'; rewrite quota_of_updateUsage;
                 destruct (decide (u = u')); [f_equal|]; rewrite <- Hq3;
                 apply quota_of_ext; reflexivity)
         end.
    all: rewrite updateUsage_run in Hq |- *; cbn [snd] in Hq |- *.
    all: cbn [entities uploadSessions uuid_source uuid_count walletClient ownerAddress
              now_ms set_uploadSessions set_entities set_rpc_faults set_userUsage touch].
    all: split; [exact Hmap|]; split; [exact Hall|]; split; [exact Hk|].
    all: split; [rewrite Hsess3, alter_insert_eq; reflexivity|].
    all: split; [rewrite Hent, Hbh, Hbd, (Hok eq_refl), <- app_assoc; reflexivity|].
    all: split; [exact Hsrc|]; split; [rewrite Hcnt; reflexivity|].
    all: split; [exact Hw|]; split; [exact Ho|]; split; [exact Hnow|].
    all: split; [exact (Hok eq_refl)|]; split; [reflexivity|]; split; [eauto | exact Hq].
  - injection Hrun as <- <-. exists false. rewrite app_nil_r.
    repeat (split; [assumption || (simpl; lia)|]).
    split; [eauto | exact Hq3].
Qed.

(** ** What the queries find after an upload *)

Lemma stored_chunk_matches w h d c :
  ArkivStorage.matches w (chunk_query (ChunkEntity.media_id c)) (stored_chunk w h d c)
  = true.
Proof.
  unfold ArkivStorage.matches, chunk_query, stored_chunk, ArkivStorage.has_attribute.
  cbn [forallb Entity.attributes Entity.owner existsb fst snd AttrValue_eqb].
  rewrite !String.eqb_refl. cbn. reflexivity.
Qed.

Lemma stored_chunk_not_metadata w h d c x :
  ArkivStorage.matches w (metadata_query x) (stored_chunk w h d c) = false.
Proof.
  unfold ArkivStorage.matches, metadata_query, stored_chunk, ArkivStorage.has_attribute.
  cbn [forallb Entity.attributes Entity.owner existsb fst snd AttrValue_eqb].
  cbn. rewrite ?andb_false_r. reflexivity.
Qed.

Lemma filter_all {A} (f : A -> bool) (l : list A) :
  Forall (fun x => f x = true) l -> List.filter f l = l.
Proof.
  induction 1 as [|x l Hx _ IH]; [reflexivity|]. simpl. rewrite Hx, IH. reflexivity.
Qed.

(** The store right after a completed upload of [chunks] and [md] whose id
    no older entity carries: the chunk query finds the chunk entities, in
    the order of the upload, and the metadata query the metadata entity. *)
Lemma queries_after_upload w h d m (md : MediaMetadata.t) chunks es :
  Forall (fun e => mentions m e = false) es ->
  Forall (fun c => ChunkEntity.media_id c = m) chunks ->
  MediaMetadata.media_id md = m ->
  let es' := es ++ map (stored_chunk w h d) chunks ++ [stored_metadata w h d md] in
  List.filter (ArkivStorage.matches w (chunk_query m)) es'
  = map (stored_chunk w h d) chunks
  /\ List.filter (ArkivStorage.matches w (metadata_query m)) es'
     = [stored_metadata w h d md].
Proof.
  intros Hold Hchunks Hmd es'. subst es'. rewrite !List.filter_app. split.
  - rewrite (filter_none _ es)
      by (eapply Forall_impl; [exact Hold|]; intros e He; apply matches_mentions, He).
    rewrite filter_all.
    + cbn [List.filter]. rewrite stored_metadata_not_chunk, app_nil_r. reflexivity.
    + apply Forall_fmap. eapply Forall_impl; [exact Hchunks|].
      intros c <-. apply stored_chunk_matches.
  - rewrite (filter_none _ es)
      by (eapply Forall_impl; [exact Hold|]; intros e He; apply matches_mentions, He).
    rewrite (filter_none _ (map _ chunks)).
    + cbn [List.filter app]. rewrite <- Hmd, stored_metadata_matches. reflexivity.
    + apply Forall_fmap, Forall_forall. intros c _. apply stored_chunk_not_metadata.
Qed.

Lemma chunk_of_stored w h d m c :
  ArkivStorage.chunk_of_entity m (stored_chunk w h d c) = fetched_chunk w h d m c.
Proof. reflexivity. Qed.

(** Chunks whose indices ascend are returned as they were stored. *)
Lemma chunks_in_store_ascending w h d m chunks es :
  List.filter (ArkivStorage.matches w (chunk_query m)) es
  = map (stored_chunk w h d) chunks ->
  (length chunks <= 1000)%nat ->
  map ChunkEntity.chunk_index chunks = seqZ 0 (blen chunks) ->
  chunks_in_store w m es = map (fetched_chunk w h d m) chunks.
Proof.
  intros Hfilter Hlen Hidx. unfold chunks_in_store. fold (chunk_query m).
  rewrite Hfilter, take_ge by (rewrite length_map; lia).
  rewrite map_map. rewrite sort_adjacent; [reflexivity|].
  intros j a b Ha Hb.
  rewrite list_lookup_fmap in Ha, Hb.
  destruct (chunks !! j) as [ca|] eqn:Hca; [|discriminate].
  destruct (chunks !! S j) as [cb|] eqn:Hcb; [|discriminate].
  injection Ha as <-. injection Hb as <-.
  rewrite !chunk_of_stored. cbn [fetched_chunk MediaChunk.chunk_index].
  assert (map ChunkEntity.chunk_index chunks !! j = Some (ChunkEntity.chunk_index ca)) as Hja
    by (rewrite list_lookup_fmap, Hca; reflexivity).
  assert (map ChunkEntity.chunk_index chunks !! S j = Some (ChunkEntity.chunk_index cb)) as Hjb
    by (rewrite list_lookup_fmap, Hcb; reflexivity).
  rewrite Hidx in Hja, Hjb.
  apply lookup_seqZ in Hja as [-> _]. apply lookup_seqZ in Hjb as [-> _]. lia.
Qed.

(** [getMedia] puts the fetched chunks of a stored file back together. *)
Lemma reassemble_fetched w h d m now B chunks :
  map index_and_data chunks = slices (length B) CONFIG.CHUNK_SIZE B 0 ->
  ChunkingService.reassembleFile
    (map (entity_of_chunk now) (map (fetched_chunk w h d m) chunks)) = B.
Proof.
  intros Hmap. assert (0 < CONFIG.CHUNK_SIZE) as Hpos by reflexivity.
  unfold ChunkingService.reassembleFile. rewrite sort_adjacent.
  - rewrite !map_map. cbn [entity_of_chunk fetched_chunk ChunkEntity.data MediaChunk.data
                            fromBase64 toBase64].
    transitivity (concat (map snd (map index_and_data chunks))).
    { rewrite map_map. reflexivity. }
    rewrite Hmap.
    rewrite (slices_concat _ Hpos); [reflexivity | lia | unfold blen; lia].
  - intros j a b Ha Hb. rewrite map_map in Ha, Hb.
    rewrite list_lookup_fmap in Ha, Hb.
    destruct (chunks !! j) as [ca|] eqn:Hca; [|discriminate].
    destruct (chunks !! S j) as [cb|] eqn:Hcb; [|discriminate].
    injection Ha as <-. injection Hb as <-.
    cbn [entity_of_chunk fetched_chunk ChunkEntity.chunk_index MediaChunk.chunk_index].
    destruct (chunk_lookup _ Hpos _ _ _ _ Hmap Hca) as (-> & _).
    destruct (chunk_lookup _ Hpos _ _ _ _ Hmap Hcb) as (-> & _). lia.
Qed.

(** An accepted file has at most 400 chunks, so the query limit of 1000
    never cuts its chunk list short. *)
Lemma accepted_chunks_within_limit B chunks :
  blen B <= CONFIG.MAX_FILE_SIZE ->
  map index_and_data chunks = slices (length B) CONFIG.CHUNK_SIZE B 0 ->
  (length chunks <= 400)%nat.
Proof.
  intros Hsize Hmap.
  pose proof (chunk_count_bounds CONFIG.CHUNK_SIZE eq_refl B chunks Hmap) as Hb.
  unfold blen in *. change CONFIG.CHUNK_SIZE with 65536 in Hb.
  change CONFIG.MAX_FILE_SIZE with 26214400 in Hsize. lia.
Qed.

(** ** Later events and one media id *)

Section Isolation.

Context (wallet media_id : string) (source : nat -> string) (from : nat).
Hypothesis never_reissued : forall n, (from <= n)%nat -> source n <> media_id.

(** Events other than expiry leave the answers to the two queries about
    [media_id] as they are. *)
Lemma queries_stable evs : forall s,
  uuid_source s = source -> (from <= uuid_count s)%nat ->
  Forall (fun ev => is_expiry ev = false) evs ->
  ownerAddress (after evs s) = ownerAddress s
  /\ List.filter (ArkivStorage.matches wallet (chunk_query media_id))
       (entities (after evs s))
     = List.filter (ArkivStorage.matches wallet (chunk_query media_id)) (entities s)
  /\ List.filter (ArkivStorage.matches wallet (metadata_query media_id))
       (entities (after evs s))
     = List.filter (ArkivStorage.matches wallet (metadata_query media_id)) (entities s).
Proof.
  unfold after. induction evs as [|ev evs IH]; intros s Hsrc Hfrom Hevs; [auto|].
  inversion Hevs as [|? ? Hev Hrest]; subst. simpl.
  destruct (happen_effect s ev) as (Hsrc' & Hcnt' & Ho' & Hent).
  destruct (IH (happen s ev)) as (Ho2 & Hc2 & Hm2); [congruence | lia | exact Hrest |].
  rewrite Ho2, Hc2, Hm2, Ho'. split; [reflexivity|].
  destruct ev as [op|position|now height duration|faults]; [|discriminate| |].
  all: destruct Hent as (more & -> & Hmore).
  all: assert (Forall (fun e => mentions media_id e = false) more) as Hnone
      by (eapply Forall_impl; [exact Hmore|]; intros e He; apply He;
          unfold upload_id; intros E;
          apply (never_reissued (uuid_count s)); [lia | congruence]).
  all: rewrite !List.filter_app.
  all: rewrite !(filter_none _ more)
      by (eapply Forall_impl; [exact Hnone|]; intros e He; apply matches_mentions, He).
  all: rewrite !app_nil_r; split; reflexivity.
Qed.

End Isolation.

(** ** Extra properties: uploads and retrieval *)

(** The state a completed first upload leaves, as the store and the
    generator show it. *)
Lemma completed_upload_store B fn ct key u btl s m s1 wallet :
  uploadSessions s !! key = None ->
  walletClient s = Some wallet ->
  unknown_id (upload_id s) s ->
  UploadService.initiateUpload B fn ct key u btl s = (Ok (UploadOk m), s1) ->
  let md := upload_metadata s B fn ct btl in
  let h := block_height s in
  let d := block_duration s in
  exists chunks,
    m = upload_id s
    /\ blen B <= CONFIG.MAX_FILE_SIZE
    /\ map index_and_data chunks = slices (length B) CONFIG.CHUNK_SIZE B 0
    /\ Forall (fun c => ChunkEntity.checksum c
                        = ChunkingService.calculateChecksum (ChunkEntity.data c)) chunks
    /\ Forall (fun c => ChunkEntity.expiration_block c = upload_expiration s btl) chunks
    /\ uuid_source s1 = uuid_source s
    /\ (uuid_count s < uuid_count s1)%nat
    /\ ownerAddress s1 = ownerAddress s
    /\ List.filter (ArkivStorage.matches wallet (chunk_query m)) (entities s1)
       = map (stored_chunk wallet h d) chunks
    /\ List.filter (ArkivStorage.matches wallet (metadata_query m)) (entities s1)
       = [stored_metadata wallet h d md].
Proof.
  intros Hfresh Hwallet Hunknown Hrun md h d.
  pose proof (success_admitted _ _ _ _ _ _ _ _ _ Hrun) as Hadm.
  destruct (initiateUpload_fresh_exact _ _ _ _ _ _ _ _ _ Hadm Hfresh Hrun)
    as (chunks & k & completed & Hmap & Hall & _ & _ & Hent & Hsrc & Hcnt & _ & Ho & _ & Hcase).
  destruct completed; [|destruct Hcase as ((e & He) & _); discriminate].
  destruct Hcase as (-> & Hm & _ & _). injection Hm as ->.
  rewrite firstn_all, Hwallet in Hent. cbn [default] in Hent.
  exists chunks. split; [reflexivity|]. split; [apply Hadm|]. split; [exact Hmap|].
  split; [eapply Forall_impl; [exact Hall|]; intros c (_ & _ & Hc); exact Hc|].
  split; [eapply Forall_impl; [exact Hall|]; intros c (_ & Hc & _); exact Hc|].
  split; [exact Hsrc|]. split; [lia|]. split; [exact Ho|].
  rewrite Hent. apply queries_after_upload; [exact Hunknown | | reflexivity].
  eapply Forall_impl; [exact Hall|]. intros c (Hc & _). exact Hc.
Qed.

(** X1.  Round trip through the store.  A non-empty file whose first upload
    succeeded is returned by [getMedia], byte for byte and with the metadata
    the upload computed -- right away and after any later uploads, reads,
    clock ticks and network changes -- provided the wallet is the owner the
    reads query, no entity has expired, the two queries are answered, and
    the id generator has not issued the id a second time. *)
Theorem X1_upload_then_getMedia_roundtrip (B : Buffer) (fn ct key u wallet : string)
    (btl : Z) (s s1 : Sys) (m : string) (evs : list Event) :
  B <> [] ->
  uploadSessions s !! key = None ->
  walletClient s = Some wallet ->
  ownerAddress s = Some wallet ->
  unknown_id (upload_id s) s ->
  (forall n, (uuid_count s < n)%nat -> uuid_source s n <> upload_id s) ->
  UploadService.initiateUpload B fn ct key u btl s = (Ok (UploadOk m), s1) ->
  Forall (fun ev => is_expiry ev = false) evs ->
  answered (after evs s1) ->
  answered (after_rpc (after evs s1)) ->
  fst (UploadService.getMedia m (after evs s1))
  = Ok (MediaOk B (upload_metadata s B fn ct btl)).
Proof.
  intros Hne Hfresh Hwallet Howner Hunknown Hnever Hrun Hevs Hans1 Hans2.
  destruct (completed_upload_store _ _ _ _ _ _ _ _ _ _ Hfresh Hwallet Hunknown Hrun)
    as (chunks & -> & Hsize & Hmap & _ & _ & Hsrc & Hcnt & Ho & Hcq & Hmq).
  destruct (queries_stable wallet (upload_id s) (uuid_source s) (S (uuid_count s))
              ltac:(intros n Hn; apply Hnever; lia) evs s1 Hsrc ltac:(lia) Hevs)
    as (Ho2 & Hcq2 & Hmq2).
  set (s2 := after evs s1) in *.
  rewrite getMedia_run, getMetadata_run, Ho2, Ho, Howner.
  unfold metadata_in_store. fold (metadata_query (upload_id s)). rewrite Hmq2, Hmq.
  cbn [stored_metadata Entity.payload]. rewrite metadata_eta.
  assert (match head (rpc_faults s2) with
          | Some (Some _) => Ok None
          | _ => Ok (Some (upload_metadata s B fn ct btl))
          end = Ok (Some (upload_metadata s B fn ct btl))) as ->.
  { unfold answered in Hans1. destruct (head (rpc_faults s2)) as [[e|]|];
      [destruct Hans1 | reflexivity | reflexivity]. }
  rewrite getAllChunks_run.
  change (ownerAddress (after_rpc s2)) with (ownerAddress s2).
  change (entities (after_rpc s2)) with (entities s2).
  rewrite Ho2, Ho, Howner.
  rewrite (chunks_in_store_ascending wallet (block_height s) (block_duration s)
             (upload_id s) chunks (entities s2)).
  2:{ rewrite Hcq2. exact Hcq. }
  2:{ pose proof (accepted_chunks_within_limit B chunks Hsize Hmap). lia. }
  2:{ apply (chunk_indices CONFIG.CHUNK_SIZE B chunks eq_refl Hmap). }
  assert (match head (rpc_faults (after_rpc s2)) with
          | Some (Some e) => Thrown e
          | _ => Ok (map (fetched_chunk wallet (block_height s) (block_duration s)
                            (upload_id s)) chunks)
          end = Ok (map (fetched_chunk wallet (block_height s) (block_duration s)
                           (upload_id s)) chunks)) as ->.
  { unfold answered in Hans2. destruct (head (rpc_faults (after_rpc s2))) as [[e|]|];
      [destruct Hans2 | reflexivity | reflexivity]. }
  assert ((blen (map (fetched_chunk wallet (block_height s) (block_duration s)
                        (upload_id s)) chunks) =? 0) = false) as ->.
  { apply Z.eqb_neq. unfold blen. rewrite length_map.
    destruct chunks as [|c chunks]; [|simpl; lia].
    exfalso. apply Hne.
    pose proof (chunk_count_bounds CONFIG.CHUNK_SIZE eq_refl B [] Hmap) as Hb.
    destruct B; [reflexivity|]. unfold blen in Hb. simpl length in Hb. lia. }
  cbv zeta. rewrite (reassemble_fetched _ _ _ _ _ B chunks Hmap).
  unfold ChunkingService.validateFileIntegrity.
  cbn [upload_metadata MediaMetadata.checksum]. rewrite String.eqb_refl. reflexivity.
Qed.

(** An error that begins with "Upload failed: " comes from storage: the
    call had passed the size, type and quota checks. *)
Lemma storage_failure_admitted B fn ct key u btl s e s' :
  UploadService.initiateUpload B fn ct key u btl s
  = (Ok (UploadFail ("Upload failed: " ++ e)), s') ->
  admitted s B ct u.
Proof.
  unfold UploadService.initiateUpload, admitted.
  destruct (Z.gtb_spec (blen B) CONFIG.MAX_FILE_SIZE) as [Hbig|Hsize]; [discriminate|].
  destruct (UploadService.isValidImageType ct); cbn [negb]; [|discriminate].
  unfold bind at 1. rewrite checkQuota_run. cbv zeta. cbn [fst].
  destruct (_ >? _); [discriminate|]. destruct (_ >=? _); [discriminate|].
  intros _. repeat split. lia.
Qed.

Lemma stored_chunk_never_metadata o w h d c x :
  ArkivStorage.matches o (metadata_query x) (stored_chunk w h d c) = false.
Proof.
  unfold ArkivStorage.matches, metadata_query, stored_chunk, ArkivStorage.has_attribute.
  cbn [forallb Entity.attributes Entity.owner existsb fst snd AttrValue_eqb].
  cbn. rewrite ?andb_false_r. reflexivity.
Qed.

(** X2.  A first upload that fails in storage is not rolled back.  The
    chunk entities stored before the failure stay in the store (no entity
    is removed and no metadata entity is written), the session stays under
    the key, not completed, with exactly the indices of the stored chunks,
    and no quota is charged.  The key remains bound: every later call with
    it that passes the checks answers success with the id of the failed
    upload, although [getMedia] finds nothing under that id. *)
Theorem X2_failed_upload_is_not_rolled_back (B : Buffer) (fn ct key u : string)
    (btl : Z) (s s1 : Sys) (e : string) :
  uploadSessions s !! key = None ->
  UploadService.initiateUpload B fn ct key u btl s
  = (Ok (UploadFail ("Upload failed: " ++ e)), s1) ->
  exists (chunks : list ChunkEntity.t) (k : nat),
    map index_and_data chunks = slices (length B) CONFIG.CHUNK_SIZE B 0
    /\ (k <= length chunks)%nat
    /\ entities s1
       = entities s
         ++ map (stored_chunk (default EmptyString (walletClient s))
                   (block_height s) (block_duration s)) (take k chunks)
    /\ UploadService.getUploadStatus key s1
       = (Ok (Some (UploadSession.mk (upload_id s) key
                      (upload_metadata s B fn ct btl)
                      (list_to_set (seqZ 0 (Z.of_nat k))) false)), s1)
    /\ (forall u', quota_of s1 u' = quota_of s u')
    /\ (forall B' fn' ct' u' btl',
          admitted s1 B' ct' u' ->
          fst (UploadService.initiateUpload B' fn' ct' key u' btl' s1)
          = Ok (UploadOk (upload_id s)))
    /\ (unknown_id (upload_id s) s ->
        fst (UploadService.getMedia (upload_id s) s1)
        = Ok (MediaFail "Media not found or expired")).
Proof.
  intros Hfresh Hrun.
  pose proof (storage_failure_admitted _ _ _ _ _ _ _ _ _ Hrun) as Hadm.
  destruct (initiateUpload_fresh_exact _ _ _ _ _ _ _ _ _ Hadm Hfresh Hrun)
    as (chunks & k & completed & Hmap & Hall & Hk & Hsess & Hent & _ & _ & _ & Ho & _ & Hcase).
  destruct completed; [destruct Hcase as (_ & Hr & _); discriminate|].
  destruct Hcase as (_ & Hq). rewrite app_nil_r in Hent.
  exists chunks, k. split; [exact Hmap|]. split; [exact Hk|]. split; [exact Hent|].
  split.
  { unfold UploadService.getUploadStatus, gets. rewrite Hsess, lookup_insert_eq.
    reflexivity. }
  split; [exact Hq|]. split.
  { intros B' fn' ct' u' btl' Hadm'.
    erewrite initiateUpload_replay; [|exact Hadm'|rewrite Hsess; apply lookup_insert_eq].
    reflexivity. }
  intros Hunknown. rewrite getMedia_run, getMetadata_run.
  destruct (ownerAddress s1) as [owner|]; [|reflexivity].
  assert (metadata_in_store owner (upload_id s) (entities s1) = None) as ->.
  { unfold metadata_in_store. fold (metadata_query (upload_id s)).
    rewrite Hent, List.filter_app.
    rewrite (filter_none _ (entities s))
      by (eapply Forall_impl; [exact Hunknown|]; intros x Hx; apply matches_mentions, Hx).
    rewrite filter_none; [reflexivity|].
    apply Forall_fmap, Forall_forall. intros c _. apply stored_chunk_never_metadata. }
  destruct (head (rpc_faults s1)) as [[e1|]|]; reflexivity.
Qed.

(** X3.  The session of a completed upload.  After a successful first
    upload [getUploadStatus] returns, under the upload's key, a session that
    carries the returned id and the metadata, is marked completed, and has
    received exactly the chunk indices [0 .. chunk_count - 1] -- zero-based,
    as many as the metadata's [chunk_count], which is
    [ceil(len / CHUNK_SIZE)]. *)
Theorem X3_completed_upload_status (B : Buffer) (fn ct key u : string)
    (btl : Z) (s s1 : Sys) (m : string) :
  uploadSessions s !! key = None ->
  UploadService.initiateUpload B fn ct key u btl s = (Ok (UploadOk m), s1) ->
  let md := upload_metadata s B fn ct btl in
  let received : gset Z := list_to_set (seqZ 0 (MediaMetadata.chunk_count md)) in
  UploadService.getUploadStatus key s1
  = (Ok (Some (UploadSession.mk m key md received true)), s1)
  /\ Z.of_nat (size received) = MediaMetadata.chunk_count md
  /\ MediaMetadata.chunk_count md = ceil_div (blen B) CONFIG.CHUNK_SIZE
  /\ (forall i, i ∈ received <-> 0 <= i < MediaMetadata.chunk_count md).
Proof.
  intros Hfresh Hrun md received.
  pose proof (success_admitted _ _ _ _ _ _ _ _ _ Hrun) as Hadm.
  destruct (initiateUpload_fresh_exact _ _ _ _ _ _ _ _ _ Hadm Hfresh Hrun)
    as (chunks & k & completed & Hmap & _ & _ & Hsess & _ & _ & _ & _ & _ & _ & Hcase).
  destruct completed; [|destruct Hcase as ((e & He) & _); discriminate].
  destruct Hcase as (-> & Hm & _). injection Hm as ->.
  assert (MediaMetadata.chunk_count md = Z.of_nat (length chunks)) as Hcount.
  { symmetry. apply (chunk_count_of B chunks Hmap). }
  split.
  { unfold UploadService.getUploadStatus, gets. rewrite Hsess, lookup_insert_eq.
    unfold session_after, received. rewrite Hcount. reflexivity. }
  split.
  { unfold received. rewrite size_list_to_set by apply NoDup_seqZ.
    rewrite length_seqZ, Hcount. lia. }
  split; [reflexivity|].
  intros i. unfold received. rewrite elem_of_list_to_set, elem_of_seqZ. lia.
Qed.

(** What a call of [initiateUpload] does to the sessions of other keys and
    of keys that are bound already: nothing. *)
Lemma initiateUpload_keeps_sessions B fn ct key' u btl s key session :
  uploadSessions s !! key = Some session ->
  uploadSessions (snd (UploadService.initiateUpload B fn ct key' u btl s)) !! key
  = Some session.
Proof.
  intros Hkey. destruct (admitted_dec s B ct u) as [Hadm|Hno].
  - destruct (uploadSessions s !! key') as [session'|] eqn:Hkey'.
    + rewrite (initiateUpload_replay _ _ _ _ _ _ _ _ Hadm Hkey'). exact Hkey.
    + destruct (UploadService.initiateUpload B fn ct key' u btl s) as [r s'] eqn:Hrun.
      destruct (initiateUpload_fresh_exact _ _ _ _ _ _ _ _ _ Hadm Hkey' Hrun)
        as (chunks & k & completed & _ & _ & _ & Hsess & _).
      cbn [snd]. rewrite Hsess, lookup_insert_ne; [exact Hkey | congruence].
  - destruct (initiateUpload_rejected B fn ct key' u btl s Hno)
      as (e & s' & -> & (_ & _ & _ & _ & _ & Hsess & _)).
    cbn [snd]. rewrite Hsess. exact Hkey.
Qed.

(** X4.  Sessions are permanent.  Once an idempotency key has a session,
    no later event -- uploads under this or any other key, reads, expiry
    in the store, the passing of time, network changes -- removes or
    changes it: the key stays bound to the same media id with the same
    progress, so an upload that failed part-way is never resumed. *)
Theorem X4_sessions_are_permanent (evs : list Event) (s : Sys) (key : string)
    (session : UploadSession.t) :
  uploadSessions s !! key = Some session ->
  UploadService.getUploadStatus key (after evs s) = (Ok (Some session), after evs s).
Proof.
  intros Hkey. unfold UploadService.getUploadStatus, gets. f_equal. f_equal.
  revert s Hkey. unfold after. induction evs as [|ev evs IH]; intros s Hkey; [exact Hkey|].
  simpl. apply IH.
  destruct ev as [[B fn ct key' u btl|media_id|key'|media_id]|position|now height duration|faults];
    cbn [happen call].
  - apply initiateUpload_keeps_sessions, Hkey.
  - destruct (getMedia_only_rpc media_id s) as (_ & _ & _ & _ & _ & _ & ->). exact Hkey.
  - exact Hkey.
  - destruct (getChunkInfo_only_rpc media_id s) as (_ & _ & _ & _ & _ & _ & ->). exact Hkey.
  - exact Hkey.
  - exact Hkey.
  - exact Hkey.
Qed.

(** ** Extra properties: quota over the life of the service *)

(** What one event does to a user's quota record: nothing, or one commit
    of a file that the quota check had admitted. *)
Lemma happen_quota s ev u :
  quota_of (happen s ev) u = quota_of s u
  \/ exists bytes,
       0 <= bytes
       /\ QuotaInfo.used_bytes (quota_of s u) + bytes <= QuotaInfo.max_bytes (quota_of s u)
       /\ QuotaInfo.uploads_today (quota_of s u)
          < QuotaInfo.max_uploads_per_day (quota_of s u)
       /\ quota_of (happen s ev) u = committed (quota_of s u) bytes.
Proof.
  destruct ev as [op|position|now height duration|faults]; cbn [happen];
    [|left; reflexivity..].
  pose proof (reads_leave_quota op s) as Hread.
  destruct op as [B fn ct key u0 btl|media_id|key|media_id]; [|left; apply Hread..].
  cbn [call].
  destruct (initiateUpload_outcome B fn ct key u0 btl s) as (r & s' & -> & Hcase & _).
  cbn [snd].
  destruct Hcase as [(chunks & wallet & _ & Hadm & _ & _ & _ & _ & _ & _ & Hq)|(Hq & _)];
    [|left; apply Hq].
  rewrite Hq. destruct (decide (u0 = u)) as [->|_]; [|left; reflexivity].
  right. exists (blen B). split; [apply blen_nonneg|].
  destruct Hadm as (_ & _ & Hcheck). rewrite checkQuota_run in Hcheck.
  cbn [fst] in Hcheck. cbv zeta in Hcheck.
  destruct (Z.gtb_spec (QuotaInfo.used_bytes (quota_of s u) + blen B)
              (QuotaInfo.max_bytes (quota_of s u))); [discriminate|].
  destruct (Z.geb_spec (QuotaInfo.uploads_today (quota_of s u))
              (QuotaInfo.max_uploads_per_day (quota_of s u))); [discriminate|].
  repeat split; lia.
Qed.


(** A user's counters never go down and the limits never change. *)
Lemma after_quota evs : forall s u,
  QuotaInfo.max_bytes (quota_of (after evs s) u) = QuotaInfo.max_bytes (quota_of s u)
  /\ QuotaInfo.max_uploads_per_day (quota_of (after evs s) u)
     = QuotaInfo.max_uploads_per_day (quota_of s u)
  /\ QuotaInfo.used_bytes (quota_of s u) <= QuotaInfo.used_bytes (quota_of (after evs s) u)
  /\ QuotaInfo.uploads_today (quota_of s u)
     <= QuotaInfo.uploads_today (quota_of (after evs s) u).
Proof.
  unfold after. induction evs as [|ev evs IH]; intros s u; [simpl; lia|].
  simpl. destruct (IH (happen s ev) u) as (H1 & H2 & H3 & H4).
  rewrite H1, H2.
  destruct (happen_quota s ev u) as [E|(bytes & Hpos & Hbytes & Hcount & E)];
    rewrite E in *; [lia|].
  unfold committed in *.
  cbn [QuotaInfo.used_bytes QuotaInfo.max_bytes QuotaInfo.uploads_today
       QuotaInfo.max_uploads_per_day] in *.
  lia.
Qed.

(** X6.  The daily limit is never reset.  No event takes a user's
    [uploads_today] or [used_bytes] down -- in particular not the passing
    of time -- so a user who has reached [max_uploads_per_day] is refused
    every later upload, and so is any file that did not fit the byte quota
    before. *)
Theorem X6_daily_limit_never_resets (evs : list Event) (s : Sys) (u : string)
    (B : Buffer) (fn ct key : string) (btl : Z) :
  QuotaInfo.max_uploads_per_day (quota_of s u) <= QuotaInfo.uploads_today (quota_of s u)
  \/ QuotaInfo.max_bytes (quota_of s u) < QuotaInfo.used_bytes (quota_of s u) + blen B ->
  exists e,
    fst (UploadService.initiateUpload B fn ct key u btl (after evs s))
    = Ok (UploadFail e).
Proof.
  intros Hfull. destruct (after_quota evs s u) as (H1 & H2 & H3 & H4).
  destruct (initiateUpload_rejected B fn ct key u btl (after evs s)) as (e & s' & -> & _).
  - intros (_ & _ & Hcheck). rewrite checkQuota_run in Hcheck.
    cbn [fst] in Hcheck. cbv zeta in Hcheck.
    destruct (Z.gtb_spec (QuotaInfo.used_bytes (quota_of (after evs s) u) + blen B)
                (QuotaInfo.max_bytes (quota_of (after evs s) u))); [discriminate|].
    destruct (Z.geb_spec (QuotaInfo.uploads_today (quota_of (after evs s) u))
                (QuotaInfo.max_uploads_per_day (quota_of (after evs s) u)));
      [discriminate|].
    lia.
  - exists e. reflexivity.
Qed.

(** ** Extra properties: chunking *)

(** X7.  Reassembly does not depend on the order of the chunks.  Whatever
    order the chunk records of a file arrive in, [reassembleFile] returns
    the file: it sorts by [chunk_index], and the indices [chunkFile] gives
    are distinct.  (Stated for every positive chunk size; [chunkFile] is
    the case [CONFIG.CHUNK_SIZE].) *)
Theorem X7_reassemble_in_any_order (C : Z) (B : Buffer) (media_id : string)
    (expiration_block : Z) (s s' : Sys) (chunks shuffled : list ChunkEntity.t) :
  0 < C ->
  ChunkingService.chunkWith C B media_id expiration_block s = (Ok chunks, s') ->
  shuffled ≡ₚ chunks ->
  ChunkingService.reassembleFile shuffled = B.
Proof.
  intros Hpos Hrun Hperm.
  destruct (chunkWith_run C B media_id expiration_block s) as (cs & Hrun' & Hmap & _).
  rewrite Hrun' in Hrun. injection Hrun as <- _.
  unfold ChunkingService.reassembleFile.
  rewrite (sort_perm_eq ChunkEntity.chunk_index cs shuffled Hperm).
  2:{ rewrite (chunk_indices C B cs Hpos Hmap). apply NoDup_seqZ. }
  rewrite sort_adjacent.
  - transitivity (concat (map snd (map index_and_data cs))).
    { rewrite map_map. reflexivity. }
    rewrite Hmap.
    rewrite (slices_concat _ Hpos); [reflexivity | lia | unfold blen; lia].
  - intros j a b Ha Hb.
    destruct (chunk_lookup _ Hpos _ _ _ _ Hmap Ha) as (-> & _).
    destruct (chunk_lookup _ Hpos _ _ _ _ Hmap Hb) as (-> & _). lia.
Qed.

(** ** Extra properties: expiry *)



(** ** Extra properties: chunk information and failures *)

Lemma blen_concat {A} (l : list (list A)) :
  blen (concat l) = foldr Z.add 0 (map blen l).
Proof.
  induction l as [|x l IH]; [reflexivity|].
  simpl. rewrite <- IH. unfold blen. rewrite length_app. lia.
Qed.

(** X9.  Chunk information after an upload.  For a non-empty file whose
    first upload succeeded, [getChunkInfo] reports the metadata's chunk
    count, size, type and name, and one entry per chunk in the order of
    the file: entry [j] carries the persisted, one-based index [j + 1], the
    size and the SHA-256 of the [j]-th window of the file, and the sizes
    add up to the file's length. *)
Theorem X9_chunk_info_after_upload (B : Buffer) (fn ct key u wallet : string)
    (btl : Z) (s s1 : Sys) (m : string) :
  B <> [] ->
  uploadSessions s !! key = None ->
  walletClient s = Some wallet ->
  ownerAddress s = Some wallet ->
  unknown_id (upload_id s) s ->
  UploadService.initiateUpload B fn ct key u btl s = (Ok (UploadOk m), s1) ->
  answered s1 ->
  answered (after_rpc s1) ->
  exists info,
    fst (UploadService.getChunkInfo m s1) = Ok (ChunkInfoOk info)
    /\ total_chunks info = ceil_div (blen B) CONFIG.CHUNK_SIZE
    /\ info_file_size info = blen B
    /\ info_content_type info = ct
    /\ info_filename info = fn
    /\ map info_chunk_index (info_entities info) = seqZ 1 (total_chunks info)
    /\ (forall (j : nat) entry,
          info_entities info !! j = Some entry ->
          let window := take (Z.to_nat CONFIG.CHUNK_SIZE)
                          (drop (Z.to_nat (Z.of_nat j * CONFIG.CHUNK_SIZE)) B) in
          info_size entry = blen window
          /\ info_size entry = Z.min CONFIG.CHUNK_SIZE (blen B - Z.of_nat j * CONFIG.CHUNK_SIZE)
          /\ info_checksum entry = SHA256.sha256_hex window)
    /\ foldr Z.add 0 (map info_size (info_entities info)) = blen B.
Proof.
  intros Hne Hfresh Hwallet Howner Hunknown Hrun Hans1 Hans2.
  destruct (completed_upload_store _ _ _ _ _ _ _ _ _ _ Hfresh Hwallet Hunknown Hrun)
    as (chunks & -> & Hsize & Hmap & Hsum & _ & _ & _ & Ho & Hcq & Hmq).
  assert (0 < CONFIG.CHUNK_SIZE) as Hpos by reflexivity.
  unfold UploadService.getChunkInfo, try_catch, bind at 1.
  rewrite getMetadata_run, Ho, Howner.
  unfold metadata_in_store. fold (metadata_query (upload_id s)). rewrite Hmq.
  cbn [stored_metadata Entity.payload]. rewrite metadata_eta.
  assert (match head (rpc_faults s1) with
          | Some (Some _) => Ok None
          | _ => Ok (Some (upload_metadata s B fn ct btl))
          end = Ok (Some (upload_metadata s B fn ct btl))) as ->.
  { unfold answered in Hans1. destruct (head (rpc_faults s1)) as [[e|]|];
      [destruct Hans1 | reflexivity | reflexivity]. }
  unfold bind at 1. rewrite getAllChunks_run.
  change (ownerAddress (after_rpc s1)) with (ownerAddress s1).
  change (entities (after_rpc s1)) with (entities s1).
  rewrite Ho, Howner.
  rewrite (chunks_in_store_ascending wallet (block_height s) (block_duration s)
             (upload_id s) chunks (entities s1) Hcq).
  2:{ pose proof (accepted_chunks_within_limit B chunks Hsize Hmap). lia. }
  2:{ apply (chunk_indices CONFIG.CHUNK_SIZE B chunks eq_refl Hmap). }
  assert (match head (rpc_faults (after_rpc s1)) with
          | Some (Some e) => Thrown e
          | _ => Ok (map (fetched_chunk wallet (block_height s) (block_duration s)
                            (upload_id s)) chunks)
          end = Ok (map (fetched_chunk wallet (block_height s) (block_duration s)
                           (upload_id s)) chunks)) as ->.
  { unfold answered in Hans2. destruct (head (rpc_faults (after_rpc s1))) as [[e|]|];
      [destruct Hans2 | reflexivity | reflexivity]. }
  assert ((blen (map (fetched_chunk wallet (block_height s) (block_duration s)
                        (upload_id s)) chunks) =? 0) = false) as ->.
  { apply Z.eqb_neq. unfold blen. rewrite length_map.
    destruct chunks as [|c chunks]; [|simpl; lia].
    exfalso. apply Hne.
    pose proof (chunk_count_bounds CONFIG.CHUNK_SIZE eq_refl B [] Hmap) as Hb.
    destruct B; [reflexivity|]. unfold blen in Hb. simpl length in Hb. lia. }
  unfold ret. cbn [fst]. eexists. split; [reflexivity|].
  cbn [total_chunks info_file_size info_content_type info_filename info_entities
       upload_metadata MediaMetadata.chunk_count MediaMetadata.file_size
       MediaMetadata.content_type MediaMetadata.filename].
  do 4 (split; [reflexivity|]).
  rewrite !map_map.
  cbn [info_chunk_index info_size fetched_chunk MediaChunk.chunk_index MediaChunk.data
       fromBase64 toBase64].
  split.
  { rewrite <- (chunk_count_of B chunks Hmap), <- seqZ_succ_shift.
    rewrite <- (chunk_indices CONFIG.CHUNK_SIZE B chunks eq_refl Hmap), map_map.
    reflexivity. }
  split.
  { intros j entry Hj. rewrite list_lookup_fmap in Hj.
    destruct (chunks !! j) as [c|] eqn:Hc; [|discriminate]. injection Hj as <-.
    cbn [info_size info_checksum fetched_chunk MediaChunk.data MediaChunk.checksum
         fromBase64 toBase64].
    destruct (chunk_lookup _ Hpos _ _ _ _ Hmap Hc) as (_ & _ & Hdata).
    pose proof (chunk_data_length _ Hpos _ _ _ _ Hmap Hc) as Hlen.
    rewrite Forall_forall in Hsum.
    rewrite (Hsum c (list_elem_of_lookup_2 _ _ _ Hc)), <- Hdata.
    cbv zeta. split; [reflexivity|]. split; [exact Hlen | reflexivity]. }
  transitivity (foldr Z.add 0 (map blen (map snd (map index_and_data chunks)))).
  { rewrite !map_map. reflexivity. }
  rewrite Hmap, <- blen_concat.
  rewrite (slices_concat _ Hpos); [reflexivity | lia | unfold blen; lia].
Qed.

(** X10.  How [getMedia] fails.  It never throws: every failure comes back
    as a result.  Without an owner address it answers "not found" without
    touching the network.  A network error on the metadata query is
    swallowed by [getMetadata] and also comes out as "not found", while a
    network error on the chunk query is reported with its text as a
    retrieval failure. *)
Theorem X10_getMedia_failure_modes (media_id : string) (s : Sys) :
  (exists r, fst (UploadService.getMedia media_id s) = Ok r)
  /\ (ownerAddress s = None ->
      UploadService.getMedia media_id s
      = (Ok (MediaFail "Media not found or expired"), s))
  /\ (forall owner e,
        ownerAddress s = Some owner ->
        head (rpc_faults s) = Some (Some e) ->
        UploadService.getMedia media_id s
        = (Ok (MediaFail "Media not found or expired"), after_rpc s))
  /\ (forall owner md e,
        ownerAddress s = Some owner ->
        answered s ->
        metadata_in_store owner media_id (entities s) = Some md ->
        head (rpc_faults (after_rpc s)) = Some (Some e) ->
        UploadService.getMedia media_id s
        = (Ok (MediaFail ("Retrieval failed: " ++ e)), after_rpc (after_rpc s))).
Proof.
  split.
  { rewrite getMedia_run.
    destruct (ArkivStorage.getMetadata media_id s) as [[[md|]|e] s1]; cbn [fst]; eauto.
    destruct (ArkivStorage.getAllChunks media_id s1) as [[chunks|e] s2]; cbn [fst]; eauto.
    destruct (blen chunks =? 0); cbn [fst]; eauto.
    cbv zeta. destruct (ChunkingService.validateFileIntegrity _ _); cbn [fst]; eauto. }
  split.
  { intros Ho. rewrite getMedia_run, getMetadata_run, Ho. reflexivity. }
  split.
  { intros owner e Ho Hf. rewrite getMedia_run, getMetadata_run, Ho, Hf. reflexivity. }
  intros owner md e Ho Hans Hmd Hf.
  rewrite getMedia_run, getMetadata_run, Ho, Hmd.
  assert (match head (rpc_faults s) with
          | Some (Some _) => Ok None
          | _ => Ok (Some md)
          end = Ok (Some md)) as ->.
  { unfold answered in Hans. destruct (head (rpc_faults s)) as [[e1|]|];
      [destruct Hans | reflexivity | reflexivity]. }
  rewrite getAllChunks_run.
  change (ownerAddress (after_rpc s)) with (ownerAddress s).
  rewrite Ho, Hf. reflexivity.
Qed.

(** X11.  Uploading without a wallet.  When no wallet client is configured,
    every first upload that passes the checks -- an empty file too -- fails
    with the wallet error, without a network call and without storing or
    charging anything; its session stays under the key, not completed and
    with no chunk received. *)
Theorem X11_upload_without_wallet (B : Buffer) (fn ct key u : string) (btl : Z)
    (s : Sys) :
  walletClient s = None ->
  admitted s B ct u ->
  uploadSessions s !! key = None ->
  exists s1,
    UploadService.initiateUpload B fn ct key u btl s
    = (Ok (UploadFail
             "Upload failed: Error: Write operations not available - wallet client is not configured"),
       s1)
    /\ entities s1 = entities s
    /\ rpc_faults s1 = rpc_faults s
    /\ (forall u', quota_of s1 u' = quota_of s u')
    /\ UploadService.getUploadStatus key s1
       = (Ok (Some (UploadSession.mk (upload_id s) key (upload_metadata s B fn ct btl)
                      ∅ false)), s1).
Proof.
  intros Hwallet Hadm Hfresh.
  pose proof (initiateUpload_admitted B fn ct key u btl s Hadm) as Hrun.
  rewrite Hfresh in Hrun. cbv zeta in Hrun.
  match type of Hrun with context [ChunkingService.chunkFile ?b ?i ?e ?s1] =>
    destruct (chunkWith_run CONFIG.CHUNK_SIZE b i e s1) as (chunks & Hchunk & _);
    unfold ChunkingService.chunkFile in Hrun; rewrite Hchunk in Hrun;
    set (s2 := set_uuid_count (uuid_count s1 + length chunks) s1) in *
  end.
  assert (walletClient s2 = None) as Hw2 by exact Hwallet.
  assert (match UploadService.storeChunks key chunks s2 with
          | (Thrown e, s3) =>
              e = Error "Write operations not available - wallet client is not configured"
              /\ s3 = s2
          | (Ok _, s3) => s3 = s2 /\ chunks = []
          end) as Hstore.
  { destruct chunks as [|c chunks]; [split; reflexivity|].
    cbn [UploadService.storeChunks]. unfold bind at 1.
    rewrite storeChunk_run, Hw2. split; reflexivity. }
  destruct (UploadService.storeChunks key chunks s2) as [[[]|e] s3].
  - destruct Hstore as (-> & _). rewrite storeMetadata_run, Hw2 in Hrun.
    rewrite Hrun. exists s2. split; [reflexivity|].
    split; [reflexivity|]. split; [reflexivity|].
    split; [intros u'; apply (quota_of_touch u s u')|].
    unfold UploadService.getUploadStatus, gets. subst s2.
    cbn [uploadSessions set_uuid_count set_uploadSessions].
    rewrite lookup_insert_eq. reflexivity.
  - destruct Hstore as (-> & ->). rewrite Hrun. exists s2. split; [reflexivity|].
    split; [reflexivity|]. split; [reflexivity|].
    split; [intros u'; apply (quota_of_touch u s u')|].
    unfold UploadService.getUploadStatus, gets. subst s2.
    cbn [uploadSessions set_uuid_count set_uploadSessions].
    rewrite lookup_insert_eq. reflexivity.
Qed.

(** ** Extra properties: the in-memory backend *)

Lemma chunk_key_inj m i j :
  ArkivMemoryStorage.chunk_key m i = ArkivMemoryStorage.chunk_key m j -> i = j.
Proof.
  unfold ArkivMemoryStorage.chunk_key. intros H.
  apply (inj (String.app m)) in H. apply (inj (String.app "_")) in H.
  apply (inj pretty) in H. exact H.
Qed.

Lemma memory_storeChunk_lookup c st key :
  ArkivMemoryStorage.chunks (snd (ArkivMemoryStorage.storeChunk c st)) !! key
  = match ArkivMemoryStorage.chunks st !! key with
    | Some old => Some old
    | None => if decide (memory_key c = key) then Some c else None
    end
  /\ ArkivMemoryStorage.metadata (snd (ArkivMemoryStorage.storeChunk c st))
     = ArkivMemoryStorage.metadata st
  /\ ArkivMemoryStorage.currentBlock (snd (ArkivMemoryStorage.storeChunk c st))
     = ArkivMemoryStorage.currentBlock st.
Proof.
  unfold ArkivMemoryStorage.storeChunk. cbv zeta. fold (memory_key c).
  destruct (ArkivMemoryStorage.chunks st !! memory_key c) as [existing|] eqn:Hk.
  - assert (ArkivMemoryStorage.chunks st !! key
            = match ArkivMemoryStorage.chunks st !! key with
              | Some old => Some old
              | None => if decide (memory_key c = key) then Some c else None
              end) as Hsame.
    { destruct (ArkivMemoryStorage.chunks st !! key) eqn:E; [reflexivity|].
      destruct (decide (memory_key c = key)) as [<-|]; [congruence | reflexivity]. }
    destruct (negb _); cbn [snd]; auto.
  - cbn [snd ArkivMemoryStorage.chunks ArkivMemoryStorage.metadata
         ArkivMemoryStorage.currentBlock].
    split; [|split; reflexivity].
    destruct (decide (memory_key c = key)) as [<-|Hne].
    + rewrite lookup_insert_eq, Hk. reflexivity.
    + rewrite lookup_insert_ne by exact Hne.
      destruct (ArkivMemoryStorage.chunks st !! key); reflexivity.
Qed.

(** X12.  In the in-memory backend the first write wins.  After any
    sequence of [storeChunk] calls a key holds the chunk it held before,
    or else the first chunk of the sequence that was stored under it: a
    stored chunk is never replaced, whatever the later chunk's data is.
    The metadata and the block number are not touched. *)
Theorem X12_memory_first_write_wins (calls : list ChunkEntity.t)
    (st : ArkivMemoryStorage.t) (key : string) :
  ArkivMemoryStorage.chunks (memory_stores calls st) !! key
  = match ArkivMemoryStorage.chunks st !! key with
    | Some old => Some old
    | None => List.find (fun c => bool_decide (memory_key c = key)) calls
    end
  /\ ArkivMemoryStorage.metadata (memory_stores calls st)
     = ArkivMemoryStorage.metadata st
  /\ ArkivMemoryStorage.currentBlock (memory_stores calls st)
     = ArkivMemoryStorage.currentBlock st.
Proof.
  revert st. unfold memory_stores.
  induction calls as [|c calls IH]; intros st; simpl.
  - destruct (ArkivMemoryStorage.chunks st !! key); auto.
  - destruct (IH (snd (ArkivMemoryStorage.storeChunk c st))) as (H1 & H2 & H3).
    destruct (memory_storeChunk_lookup c st key) as (E1 & E2 & E3).
    rewrite H1, H2, H3, E1, E2, E3. split; [|split; reflexivity].
    destruct (ArkivMemoryStorage.chunks st !! key); [reflexivity|].
    destruct (decide (memory_key c = key)) as [Heq|Hne].
    + rewrite bool_decide_eq_true_2 by exact Heq. reflexivity.
    + rewrite bool_decide_eq_false_2 by exact Hne. reflexivity.
Qed.

Lemma memory_getChunk_live st m i c :
  memory_live st m i c -> ArkivMemoryStorage.getChunk m i st = (Some c, st).
Proof.
  intros (Hk & Hexp). unfold ArkivMemoryStorage.getChunk. cbv zeta. rewrite Hk.
  unfold ArkivMemoryStorage.getCurrentBlock.
  destruct (Z.leb_spec (ChunkEntity.expiration_block c) (ArkivMemoryStorage.currentBlock st));
    [lia | reflexivity].
Qed.

Lemma memory_getChunk_some st m i c st' :
  ArkivMemoryStorage.getChunk m i st = (Some c, st') -> st' = st /\ memory_live st m i c.
Proof.
  unfold ArkivMemoryStorage.getChunk, memory_live. cbv zeta.
  destruct (ArkivMemoryStorage.chunks st !! _) as [x|]; [|discriminate].
  unfold ArkivMemoryStorage.getCurrentBlock.
  destruct (Z.leb_spec (ChunkEntity.expiration_block x) (ArkivMemoryStorage.currentBlock st));
    [discriminate|].
  intros [= -> ->]. auto.
Qed.

(** The loop of [getAllChunks]: it returns nothing, or it has found a live
    chunk for every remaining index and deleted nothing. *)
Lemma memory_loop m n fuel : forall i found st cs st',
  n - i <= Z.of_nat fuel ->
  ArkivMemoryStorage.getAllChunks_loop fuel m n i found st = (cs, st') ->
  cs = []
  \/ exists rest,
       cs = found ++ rest /\ st' = st
       /\ blen rest = Z.max (n - i) 0
       /\ forall (j : nat) c, rest !! j = Some c -> memory_live st m (i + Z.of_nat j) c.
Proof.
  induction fuel as [|fuel IH]; intros i found st cs st' Hfuel Hrun; simpl in Hrun.
  - injection Hrun as <- <-. right. exists []. rewrite app_nil_r.
    split; [reflexivity|]. split; [reflexivity|]. split; [rewrite blen_nil; lia|].
    intros j c Hj. discriminate.
  - destruct (Z.ltb_spec i n) as [Hlt|Hge].
    + destruct (ArkivMemoryStorage.getChunk m i st) as [[c|] st1] eqn:Hget.
      * apply memory_getChunk_some in Hget as (-> & Hlive).
        apply IH in Hrun; [|lia].
        destruct Hrun as [->|(rest & -> & -> & Hlen & Hall)]; [left; reflexivity|].
        right. exists (c :: rest). rewrite <- app_assoc. split; [reflexivity|].
        split; [reflexivity|]. split; [rewrite blen_cons; lia|].
        intros [|j] x Hj; simpl in Hj.
        -- injection Hj as <-. rewrite Z.add_0_r. exact Hlive.
        -- replace (i + Z.of_nat (S j)) with (i + 1 + Z.of_nat j) by lia.
           apply Hall, Hj.
      * injection Hrun as <- _. left. reflexivity.
    + injection Hrun as <- <-. right. exists []. rewrite app_nil_r.
      split; [reflexivity|]. split; [reflexivity|]. split; [rewrite blen_nil; lia|].
    intros j c Hj. discriminate.
Qed.

(** When every index has a live chunk the loop returns them all. *)
Lemma memory_loop_complete m n (chunk_at : Z -> ChunkEntity.t) st fuel : forall i found,
  0 <= i -> n - i <= Z.of_nat fuel ->
  (forall j, 0 <= j < n -> memory_live st m j (chunk_at j)) ->
  ArkivMemoryStorage.getAllChunks_loop fuel m n i found st
  = (found ++ map chunk_at (seqZ i (n - i)), st).
Proof.
  induction fuel as [|fuel IH]; intros i found Hi Hfuel Hlive; simpl.
  - rewrite seqZ_nil by lia. rewrite app_nil_r. reflexivity.
  - destruct (Z.ltb_spec i n) as [Hlt|Hge].
    + rewrite (memory_getChunk_live st m i (chunk_at i)) by (apply Hlive; lia).
      rewrite IH by (lia || exact Hlive). rewrite <- app_assoc. cbn [app].
      rewrite (seqZ_cons i) by lia. cbn [map].
      replace (Z.succ i) with (i + 1) by lia.
      replace (Z.pred (n - i)) with (n - (i + 1)) by lia. reflexivity.
    + rewrite seqZ_nil by lia. rewrite app_nil_r. reflexivity.
Qed.

(** X13.  The in-memory backend returns all chunks of a file or none.  A
    non-empty result of [getAllChunks] has exactly as many chunks as the
    metadata's [chunk_count], the chunk at position [j] being the live
    chunk stored under index [j], and nothing was deleted; so a missing or
    expired chunk, or missing or expired metadata, gives the empty list. *)
Theorem X13_memory_getAllChunks_all_or_nothing (media_id : string)
    (st : ArkivMemoryStorage.t) :
  let cs := fst (ArkivMemoryStorage.getAllChunks media_id st) in
  let st' := snd (ArkivMemoryStorage.getAllChunks media_id st) in
  cs = []
  \/ exists meta,
       ArkivMemoryStorage.metadata st !! media_id = Some meta
       /\ ArkivMemoryStorage.currentBlock st < MediaMetadata.expiration_block meta
       /\ st' = st
       /\ blen cs = MediaMetadata.chunk_count meta
       /\ forall (j : nat) c, cs !! j = Some c -> memory_live st media_id (Z.of_nat j) c.
Proof.
  cbv zeta. unfold ArkivMemoryStorage.getAllChunks, ArkivMemoryStorage.getMetadata.
  destruct (ArkivMemoryStorage.metadata st !! media_id) as [meta|] eqn:Hmeta;
    [|left; reflexivity].
  unfold ArkivMemoryStorage.getCurrentBlock.
  destruct (Z.leb_spec (MediaMetadata.expiration_block meta)
              (ArkivMemoryStorage.currentBlock st)) as [Hexp|Hlive];
    [left; reflexivity|].
  destruct (ArkivMemoryStorage.getAllChunks_loop _ _ _ _ _ _) as [cs st'] eqn:Hrun.
  apply memory_loop in Hrun; [|lia].
  destruct Hrun as [->|(rest & -> & -> & Hlen & Hall)]; [left; reflexivity|].
  cbn [fst snd app].
  destruct (Z.le_gt_cases (MediaMetadata.chunk_count meta) 0) as [Hle|Hgt].
  { left. destruct rest; [reflexivity|]. rewrite blen_cons in Hlen.
    pose proof (blen_nonneg rest). lia. }
  right. exists meta. split; [reflexivity|]. split; [exact Hlive|].
  split; [reflexivity|]. split; [lia|].
  intros j c Hj. specialize (Hall j c Hj). rewrite Z.add_0_l in Hall. exact Hall.
Qed.

(** The chunks of a file, stored into a backend that holds none of them. *)
Lemma memory_storeChunks_fresh m cs : forall st (i : Z),
  map ChunkEntity.chunk_index cs = seqZ i (blen cs) ->
  Forall (fun c => ChunkEntity.media_id c = m) cs ->
  (forall j, i <= j ->
     ArkivMemoryStorage.chunks st !! ArkivMemoryStorage.chunk_key m j = None) ->
  exists st',
    memory_storeChunks cs st = (Ok tt, st')
    /\ ArkivMemoryStorage.metadata st' = ArkivMemoryStorage.metadata st
    /\ ArkivMemoryStorage.currentBlock st' = ArkivMemoryStorage.currentBlock st
    /\ (forall key x, ArkivMemoryStorage.chunks st !! key = Some x ->
                      ArkivMemoryStorage.chunks st' !! key = Some x)
    /\ (forall (j : nat) c, cs !! j = Some c ->
          ArkivMemoryStorage.chunks st' !! ArkivMemoryStorage.chunk_key m (i + Z.of_nat j)
          = Some c).
Proof.
  induction cs as [|c cs IH]; intros st i Hidx Hm Hnone.
  - exists st. do 4 (split; [auto|]). intros j c Hj. discriminate.
  - rewrite blen_cons in Hidx. pose proof (blen_nonneg cs) as Hpos.
    rewrite (seqZ_cons i) in Hidx by lia. cbn [map] in Hidx.
    injection Hidx as Hc Hrest.
    replace (Z.pred (1 + blen cs)) with (blen cs) in Hrest by lia.
    apply Forall_cons in Hm as [Hmc Hmrest].
    cbn [memory_storeChunks]. unfold ArkivMemoryStorage.storeChunk. cbv zeta.
    rewrite Hmc, Hc, (Hnone i) by lia.
    destruct (IH (ArkivMemoryStorage.mk
                    (<[ArkivMemoryStorage.chunk_key m i := c]>
                       (ArkivMemoryStorage.chunks st))
                    (ArkivMemoryStorage.metadata st) (ArkivMemoryStorage.currentBlock st))
                (Z.succ i) Hrest Hmrest)
      as (st' & Hrun & Hmd & Hcb & Hkeep & Hall).
    { intros j Hj. cbn [ArkivMemoryStorage.chunks].
      rewrite lookup_insert_ne; [apply Hnone; lia|].
      intros E. apply chunk_key_inj in E. lia. }
    exists st'. split; [exact Hrun|]. split; [exact Hmd|]. split; [exact Hcb|].
    split.
    + intros key x Hx. apply Hkeep. cbn [ArkivMemoryStorage.chunks].
      rewrite lookup_insert_ne; [exact Hx|].
      intros <-. rewrite (Hnone i) in Hx by lia. discriminate.
    + intros [|j] x Hj; simpl in Hj.
      * injection Hj as <-. rewrite Z.add_0_r. apply Hkeep.
        cbn [ArkivMemoryStorage.chunks]. apply lookup_insert_eq.
      * replace (i + Z.of_nat (S j)) with (Z.succ i + Z.of_nat j) by lia.
        apply Hall, Hj.
Qed.

(** X14.  Round trip through the in-memory backend.  The chunks of a file
    and its metadata, stored into a backend that holds no chunk of that
    media id, with an expiration block that has not been reached: every
    [storeChunk] succeeds, [getAllChunks] then returns exactly those chunks
    and deletes nothing, and reassembling them gives the file back. *)
Theorem X14_memory_store_then_read (B : Buffer) (m fn ct : string) (btl e : Z)
    (s s1 s2 : Sys) (chunks : list ChunkEntity.t) (meta : MediaMetadata.t)
    (st : ArkivMemoryStorage.t) :
  ArkivMemoryStorage.currentBlock st < e ->
  (forall j, ArkivMemoryStorage.chunks st !! ArkivMemoryStorage.chunk_key m j = None) ->
  ChunkingService.chunkFile B m e s = (Ok chunks, s1) ->
  ChunkingService.createMetadata m fn ct B btl e s1 = (Ok meta, s2) ->
  exists st1,
    memory_storeChunks chunks st = (Ok tt, st1)
    /\ ArkivMemoryStorage.getAllChunks m (ArkivMemoryStorage.storeMetadata meta st1)
       = (chunks, ArkivMemoryStorage.storeMetadata meta st1)
    /\ ChunkingService.reassembleFile chunks = B.
Proof.
  intros Hexp Hnone Hchunk Hmeta.
  assert (0 < CONFIG.CHUNK_SIZE) as Hpos by reflexivity.
  destruct (chunkWith_run CONFIG.CHUNK_SIZE B m e s) as (cs & Hrun & Hmap & Hall).
  unfold ChunkingService.chunkFile in Hchunk. rewrite Hrun in Hchunk.
  injection Hchunk as <- _.
  pose proof (chunk_indices CONFIG.CHUNK_SIZE B cs Hpos Hmap) as Hidx.
  destruct (memory_storeChunks_fresh m cs st 0 Hidx) as (st1 & Hstore & Hmd & Hcb & _ & Hat).
  { eapply Forall_impl; [exact Hall|]. intros c (Hc & _). exact Hc. }
  { intros j _. apply Hnone. }
  exists st1. split; [exact Hstore|]. split.
  - unfold ChunkingService.createMetadata, bind, newDate, gets, ret in Hmeta.
    injection Hmeta as <- _.
    unfold ArkivMemoryStorage.getAllChunks, ArkivMemoryStorage.getMetadata,
      ArkivMemoryStorage.storeMetadata.
    cbn [ArkivMemoryStorage.metadata MediaMetadata.media_id].
    rewrite lookup_insert_eq.
    cbn [MediaMetadata.expiration_block MediaMetadata.chunk_count
         ArkivMemoryStorage.getCurrentBlock ArkivMemoryStorage.currentBlock].
    destruct (Z.leb_spec e (ArkivMemoryStorage.currentBlock st1)); [lia|].
    rewrite <- (chunk_count_of B cs Hmap).
    rewrite (memory_loop_complete m (blen cs)
               (fun j => default (ChunkEntity.mk EmptyString EmptyString 0 [] EmptyString 0 0)
                           (cs !! Z.to_nat j))).
    + cbn [app]. f_equal. rewrite Z.sub_0_r. apply list_eq. intros j.
      rewrite list_lookup_fmap.
      destruct (cs !! j) as [c|] eqn:Hc.
      * rewrite lookup_seqZ_lt by (apply lookup_lt_Some in Hc; unfold blen; lia).
        cbn [fmap option_fmap option_map]. rewrite Z.add_0_l, Nat2Z.id, Hc. reflexivity.
      * rewrite lookup_seqZ_ge by (apply lookup_ge_None in Hc; unfold blen; lia).
        reflexivity.
    + lia.
    + cbn [MediaMetadata.chunk_count]. unfold blen. lia.
    + intros j Hj. unfold memory_live. cbn [ArkivMemoryStorage.chunks
                                            ArkivMemoryStorage.currentBlock].
      destruct (cs !! Z.to_nat j) as [c|] eqn:Hc.
      2:{ apply lookup_ge_None in Hc. unfold blen in Hj. lia. }
      change (default _ (Some c)) with c. split.
      * specialize (Hat (Z.to_nat j) c Hc). rewrite Z.add_0_l, Z2Nat.id in Hat by lia.
        exact Hat.
      * rewrite Forall_forall in Hall.
        destruct (Hall c (list_elem_of_lookup_2 _ _ _ Hc)) as (_ & -> & _). lia.
  - unfold ChunkingService.reassembleFile. rewrite sort_adjacent.
    + transitivity (concat (map snd (map index_and_data cs))).
      { rewrite map_map. reflexivity. }
      rewrite Hmap.
      rewrite (slices_concat _ Hpos); [reflexivity | lia | unfold blen; lia].
    + intros j a b Ha Hb.
      destruct (chunk_lookup _ Hpos _ _ _ _ Hmap Ha) as (-> & _).
      destruct (chunk_lookup _ Hpos _ _ _ _ Hmap Hb) as (-> & _). lia.
Qed.

(** X15.  Expiry in the in-memory backend.  Metadata whose expiration block
    is not above the backend's block number is never returned: the first
    read deletes it, and [getAllChunks] gives the empty list.  That is the
    fate of everything stored with the block that
    [calculateExpirationBlock] computes for a lifetime of zero days or
    less, since the backend's block number never advances. *)
Theorem X15_memory_expired_metadata (meta : MediaMetadata.t) (st : ArkivMemoryStorage.t) :
  let m := MediaMetadata.media_id meta in
  let st1 := ArkivMemoryStorage.storeMetadata meta st in
  (forall btl_days, btl_days <= 0 ->
     ArkivMemoryStorage.calculateExpirationBlock btl_days st
     <= ArkivMemoryStorage.currentBlock st1)
  /\ (forall btl_days, 0 < btl_days ->
        ArkivMemoryStorage.currentBlock st1
        < ArkivMemoryStorage.calculateExpirationBlock btl_days st)
  /\ (MediaMetadata.expiration_block meta <= ArkivMemoryStorage.currentBlock st ->
      fst (ArkivMemoryStorage.getMetadata m st1) = None
      /\ ArkivMemoryStorage.metadata (snd (ArkivMemoryStorage.getMetadata m st1)) !! m = None
      /\ fst (ArkivMemoryStorage.getAllChunks m st1) = [])
  /\ (ArkivMemoryStorage.currentBlock st < MediaMetadata.expiration_block meta ->
      ArkivMemoryStorage.getMetadata m st1 = (Some meta, st1)).
Proof.
  cbv zeta.
  unfold ArkivMemoryStorage.calculateExpirationBlock, ArkivMemoryStorage.getAllChunks,
    ArkivMemoryStorage.getMetadata, ArkivMemoryStorage.storeMetadata,
    ArkivMemoryStorage.getCurrentBlock.
  cbn [ArkivMemoryStorage.metadata ArkivMemoryStorage.currentBlock
       ArkivMemoryStorage.chunks].
  rewrite lookup_insert_eq.
  split; [intros; lia|]. split; [intros; lia|]. split.
  - intros Hexp.
    destruct (Z.leb_spec (MediaMetadata.expiration_block meta)
                (ArkivMemoryStorage.currentBlock st)); [|lia].
    cbn [fst snd ArkivMemoryStorage.metadata]. rewrite lookup_delete_eq. auto.
  - intros Hlive.
    destruct (Z.leb_spec (MediaMetadata.expiration_block meta)
                (ArkivMemoryStorage.currentBlock st)); [lia|]. reflexivity.
Qed.

(** ** Extra properties: the client's validation and the server's *)

Lemma validateFile_valid (file : ImageDB.File) :
  ImageDB.valid (ImageDB.validateFile (Some file))
  = negb (ImageDB.size file >? CONFIG.MAX_FILE_SIZE)
    && UploadService.isValidImageType (ImageDB.type file).
Proof.
  unfold ImageDB.validateFile, UploadService.isValidImageType.
  change (25 * 1024 * 1024) with CONFIG.MAX_FILE_SIZE.
  assert (existsb (String.eqb (ImageDB.type file)) ["image/png"; "image/jpeg"]%string
          = existsb (String.eqb (ImageDB.type file)) ["image/jpeg"; "image/png"]%string)
    as ->.
  { cbn [existsb]. rewrite !orb_false_r. apply orb_comm. }
  destruct (ImageDB.size file >? CONFIG.MAX_FILE_SIZE);
    destruct (existsb _ _); reflexivity.
Qed.

(** The errors of a call that has passed the size and type checks are the
    quota reasons and the storage failures. *)
Lemma initiateUpload_later_errors B fn ct key u btl s e :
  blen B <= CONFIG.MAX_FILE_SIZE ->
  UploadService.isValidImageType ct = true ->
  fst (UploadService.initiateUpload B fn ct key u btl s) = Ok (UploadFail e) ->
  (exists rest, e = String "Q" rest) \/ (exists rest, e = String "D" rest)
  \/ (exists rest, e = String "U" rest).
Proof.
  intros Hsize Htype Hrun.
  destruct (admitted_dec s B ct u) as [Hadm|Hno].
  - destruct (uploadSessions s !! key) as [session|] eqn:Hkey.
    + rewrite (initiateUpload_replay _ _ _ _ _ _ _ _ Hadm Hkey) in Hrun. discriminate.
    + destruct (UploadService.initiateUpload B fn ct key u btl s) as [r s'] eqn:Hcall.
      destruct (initiateUpload_fresh_exact _ _ _ _ _ _ _ _ _ Hadm Hkey Hcall)
        as (chunks & k & completed & _ & _ & _ & _ & _ & _ & _ & _ & _ & _ & Hcase).
      cbn [fst] in Hrun. subst r.
      destruct completed; [destruct Hcase as (_ & Hr & _); discriminate|].
      destruct Hcase as ((e' & He') & _). injection He' as ->.
      right. right. eexists. reflexivity.
  - revert Hrun. unfold UploadService.initiateUpload.
    destruct (Z.gtb_spec (blen B) CONFIG.MAX_FILE_SIZE); [lia|].
    rewrite Htype. cbn [negb]. unfold bind at 1. rewrite checkQuota_run. cbv zeta.
    destruct (_ >? _) eqn:Hbytes.
    { intros [= <-]. left. eexists. reflexivity. }
    destruct (_ >=? _) eqn:Hcount.
    { intros [= <-]. right. left. eexists. reflexivity. }
    exfalso. apply Hno. unfold admitted. rewrite checkQuota_run. cbv zeta.
    rewrite Hbytes, Hcount. repeat split; assumption.
Qed.

(** X16.  The client's [validateFile] and the server agree on size and
    type.  For a file whose bytes are the uploaded buffer, [validateFile]
    accepts exactly when the buffer is within [MAX_FILE_SIZE] and the type
    passes [isValidImageType]; a file it rejects is refused by
    [initiateUpload] with the size or the type error and nothing changes;
    and no file it accepts is ever refused with either of those errors. *)
Theorem X16_client_validation_agrees_with_server (file : ImageDB.File) (B : Buffer)
    (fn key u : string) (btl : Z) (s : Sys) :
  blen B = ImageDB.size file ->
  let v := ImageDB.validateFile (Some file) in
  let upload := UploadService.initiateUpload B fn (ImageDB.type file) key u btl s in
  let too_large := "File too large. Max size: 26214400 bytes"%string in
  let bad_type := "Only JPEG and PNG files are supported"%string in
  (ImageDB.valid v = true
   <-> blen B <= CONFIG.MAX_FILE_SIZE
       /\ UploadService.isValidImageType (ImageDB.type file) = true)
  /\ (ImageDB.valid v = false ->
      upload = (Ok (UploadFail too_large), s) \/ upload = (Ok (UploadFail bad_type), s))
  /\ (ImageDB.valid v = true ->
      fst upload <> Ok (UploadFail too_large) /\ fst upload <> Ok (UploadFail bad_type)).
Proof.
  intros Hsize. cbv zeta. rewrite validateFile_valid, <- Hsize.
  destruct (Z.gtb_spec (blen B) CONFIG.MAX_FILE_SIZE) as [Hbig|Hfits]; cbn [negb andb].
  - split; [split; [discriminate | intros (? & _); lia]|].
    split; [|discriminate]. intros _. left. unfold UploadService.initiateUpload.
    destruct (Z.gtb_spec (blen B) CONFIG.MAX_FILE_SIZE); [reflexivity | lia].
  - destruct (UploadService.isValidImageType (ImageDB.type file)) eqn:Htype.
    + split; [split; [intros _; split; [lia | reflexivity] | reflexivity]|].
      split; [discriminate|]. intros _.
      split; intros Hrun;
        destruct (initiateUpload_later_errors _ _ _ _ _ _ _ _ Hfits Htype Hrun)
          as [(rest & E)|[(rest & E)|(rest & E)]]; discriminate.
    + split; [split; [discriminate | intros (_ & ?); discriminate]|].
      split; [|discriminate]. intros _. right. unfold UploadService.initiateUpload.
      destruct (Z.gtb_spec (blen B) CONFIG.MAX_FILE_SIZE); [lia|].
      rewrite Htype. reflexivity.
Qed.

(** ** Extra properties: the routes *)

Lemma get_quota_run request st :
  untouched st ->
  let userId := QuotaService'.getUserId request in
  Server.get_quota request st
  = (Server.json
       (Server.JsonQuota 0 CONFIG.FREE_TIER_MAX_BYTES 0
          CONFIG.FREE_TIER_MAX_UPLOADS_PER_DAY (Some "0.00"%string)) 200,
     Server.mk (Server.uploadService st)
       (match Server.quotaService st !! userId with
        | Some _ => Server.quotaService st
        | None => <[userId := fresh_quota]> (Server.quotaService st)
        end)).
Proof.
  intros Hinv userId. unfold Server.get_quota, Server.on_quotaService. fold userId.
  unfold QuotaService.getQuotaInfo. rewrite getUserQuota_run. cbn [fst snd].
  assert (quota_of (set_userUsage (Server.quotaService st) (Server.uploadService st)) userId
          = fresh_quota) as ->.
  { unfold quota_of. cbn [userUsage set_userUsage].
    destruct (Server.quotaService st !! userId) as [q|] eqn:E; [|reflexivity].
    apply (Hinv userId q E). }
  f_equal. destruct st as [s qs]. cbn [Server.uploadService Server.quotaService].
  destruct s. reflexivity.
Qed.

Lemma untouched_step st ev : untouched st -> untouched (server_step st ev).
Proof.
  intros Hinv. destruct ev as [ev|media_id|request|key|media_id]; cbn [server_step].
  - exact Hinv.
  - unfold Server.get_media, Server.on_uploadService.
    destruct (UploadService.getMedia media_id (Server.uploadService st)) as [[[b md|e]|e] s'];
      exact Hinv.
  - rewrite (get_quota_run request st Hinv). cbn [snd].
    intros u q. cbn [Server.quotaService].
    destruct (Server.quotaService st !! QuotaService'.getUserId request) eqn:E;
      [apply Hinv|].
    destruct (decide (QuotaService'.getUserId request = u)) as [<-|Hne].
    + rewrite lookup_insert_eq. congruence.
    + rewrite lookup_insert_ne by exact Hne. apply Hinv.
  - unfold Server.get_status, Server.on_uploadService.
    destruct (UploadService.getUploadStatus key (Server.uploadService st)) as [[[x|]|e] s'];
      exact Hinv.
  - unfold Server.get_chunks, Server.on_uploadService.
    destruct (UploadService.getChunkInfo media_id (Server.uploadService st))
      as [[[x|e]|e] s']; exact Hinv.
Qed.

(** X17.  The quota route never shows any usage.  The route asks the
    server module's own [QuotaService], while uploads are charged to the
    one inside [UploadService]: whatever has happened to the upload
    service and whatever routes have been requested since the server
    started, [GET /quota] answers 200 with [used_bytes = 0],
    [uploads_today = 0], the free-tier limits and a usage of 0.00 per
    cent, for every user. *)
Theorem X17_quota_route_never_shows_usage (history : list ServerEvent)
    (st : Server.t) (request : QuotaService'.Request) :
  Server.quotaService st = ∅ ->
  fst (Server.get_quota request (server_after history st))
  = Server.json
      (Server.JsonQuota 0 CONFIG.FREE_TIER_MAX_BYTES 0
         CONFIG.FREE_TIER_MAX_UPLOADS_PER_DAY (Some "0.00"%string)) 200.
Proof.
  intros Hempty.
  assert (untouched st) as Hinv.
  { intros u q. rewrite Hempty, lookup_empty. discriminate. }
  clear Hempty. revert st Hinv. unfold server_after.
  induction history as [|ev history IH]; intros st Hinv.
  - simpl. rewrite (get_quota_run request st Hinv). reflexivity.
  - simpl. apply IH, untouched_step, Hinv.
Qed.



Lemma includes_retrieval_failed cause :
  includes "not found" ("Retrieval failed: " ++ cause) = includes "not found" cause.
Proof. reflexivity. Qed.


Lemma getChunkInfo_returns media_id s :
  exists r, fst (UploadService.getChunkInfo media_id s) = Ok r.
Proof.
  unfold UploadService.getChunkInfo, try_catch, bind at 1.
  destruct (ArkivStorage.getMetadata media_id s) as [[[md|]|e] s1];
    [|unfold ret; cbn [fst]; eauto..].
  unfold bind at 1.
  destruct (ArkivStorage.getAllChunks media_id s1) as [[chunks|e] s2];
    [|unfold ret; cbn [fst]; eauto].
  destruct (blen chunks =? 0); unfold ret; cbn [fst]; eauto.
Qed.

(** X19.  A failed chunk query and the two routes.  When the metadata is
    found and the network then rejects the chunk query with an error whose
    text does not contain "not found", [GET /media/:media_id] answers 500
    with "Retrieval failed: ..." while [GET /chunks/:media_id] answers 404
    with "Failed to get chunk info: ...": the chunk route answers 404 for
    every failure of [getChunkInfo] and never 500. *)
Theorem X19_chunk_query_failure_status (media_id owner cause : string)
    (md : MediaMetadata.t) (st : Server.t) :
  let s := Server.uploadService st in
  ownerAddress s = Some owner ->
  answered s ->
  metadata_in_store owner media_id (entities s) = Some md ->
  head (rpc_faults (after_rpc s)) = Some (Some cause) ->
  includes "not found" cause = false ->
  fst (Server.get_media media_id st)
  = Server.json (Server.JsonError ("Retrieval failed: " ++ cause)) 500
  /\ fst (Server.get_chunks media_id st)
     = Server.json (Server.JsonError ("Failed to get chunk info: " ++ cause)) 404
  /\ forall st0 media_id0,
       Server.status (fst (Server.get_chunks media_id0 st0)) = 200
       \/ Server.status (fst (Server.get_chunks media_id0 st0)) = 404.
Proof.
  cbv zeta. intros Ho Hans Hmd Hfault Hnot.
  assert (ArkivStorage.getMetadata media_id (Server.uploadService st)
          = (Ok (Some md), after_rpc (Server.uploadService st))) as Hmeta.
  { rewrite getMetadata_run, Ho, Hmd. unfold answered in Hans.
    destruct (head (rpc_faults (Server.uploadService st))) as [[e1|]|];
      [destruct Hans | reflexivity | reflexivity]. }
  assert (ArkivStorage.getAllChunks media_id (after_rpc (Server.uploadService st))
          = (Thrown cause, after_rpc (after_rpc (Server.uploadService st)))) as Hchunks.
  { rewrite getAllChunks_run.
    change (ownerAddress (after_rpc (Server.uploadService st)))
      with (ownerAddress (Server.uploadService st)).
    rewrite Ho, Hfault. reflexivity. }
  split; [|split].
  - unfold Server.get_media, Server.on_uploadService.
    rewrite getMedia_run, Hmeta, Hchunks. cbn [fst snd].
    rewrite includes_retrieval_failed, Hnot. reflexivity.
  - unfold Server.get_chunks, Server.on_uploadService, UploadService.getChunkInfo,
      try_catch, bind at 1.
    rewrite Hmeta. unfold bind at 1. rewrite Hchunks. reflexivity.
  - intros st0 media_id0. unfold Server.get_chunks, Server.on_uploadService.
    destruct (getChunkInfo_returns media_id0 (Server.uploadService st0)) as (r & Hr).
    destruct (UploadService.getChunkInfo media_id0 (Server.uploadService st0)) as [r0 s0].
    cbn [fst] in Hr. subst r0. cbn [fst snd].
    destruct r; cbn [fst Server.status Server.json]; auto.
Qed.

(** X20.  [GET /status/:idempotency_key] after a completed upload.  For
    the key of a successful first upload the route answers 200 with the
    returned media id, [completed = true] and [chunks_received] equal to
    [total_chunks], both [ceil(len / CHUNK_SIZE)]; a key that was never
    used is answered 404. *)
Theorem X20_status_route_after_upload (B : Buffer) (fn ct key u : string) (btl : Z)
    (s s1 : Sys) (m : string) (qs : gmap string QuotaInfo.t) :
  uploadSessions s !! key = None ->
  UploadService.initiateUpload B fn ct key u btl s = (Ok (UploadOk m), s1) ->
  let n := ceil_div (blen B) CONFIG.CHUNK_SIZE in
  Server.get_status key (Server.mk s qs)
  = (Server.json (Server.JsonError "Upload session not found") 404, Server.mk s qs)
  /\ Server.get_status key (Server.mk s1 qs)
     = (Server.json (Server.JsonStatus m true n n) 200, Server.mk s1 qs).
Proof.
  intros Hfresh Hrun n.
  pose proof (success_admitted _ _ _ _ _ _ _ _ _ Hrun) as Hadm.
  destruct (initiateUpload_fresh_exact _ _ _ _ _ _ _ _ _ Hadm Hfresh Hrun)
    as (chunks & k & completed & Hmap & _ & _ & Hsess & _ & _ & _ & _ & _ & _ & Hcase).
  destruct completed; [|destruct Hcase as ((e & He) & _); discriminate].
  destruct Hcase as (-> & Hm & _). injection Hm as ->.
  unfold Server.get_status, Server.on_uploadService, UploadService.getUploadStatus, gets.
  cbn [Server.uploadService Server.quotaService fst snd].
  rewrite Hfresh, Hsess, lookup_insert_eq. split; [reflexivity|].
  cbn [session_after UploadSession.media_id UploadSession.completed
       UploadSession.chunks_received UploadSession.metadata upload_metadata
       MediaMetadata.chunk_count].
  rewrite size_list_to_set by apply NoDup_seqZ.
  rewrite length_seqZ, Nat2Z.id.
  subst n. rewrite <- (chunk_count_of B chunks Hmap). reflexivity.
Qed.

(** ** Extra properties: the client set-up *)








Section ClientSetup.

Context (privateKeyToAccount : string -> option string)
        (createWalletClient : string -> bool).

(** X22.  The client set-up.  On a new [ArkivStorage] (no wallet client,
    no owner address) [initializeClient] never throws, even when the
    connectivity check fails, and spends one network call.  Afterwards a
    wallet client, if there is one, belongs to the owner address that
    reads query, so the service reads what it wrote.  There is a wallet
    client exactly when the private key normalises to a key whose account
    the SDK derives and whose wallet client it builds.  A private key
    that is set but malformed switches reading off as well: the
    configured owner address is then ignored. *)
Theorem X22_client_setup (env : ArkivStorageSetup.Env) (s : Sys) :
  walletClient s = None ->
  ownerAddress s = None ->
  exists s1,
    ArkivStorageSetup.initializeClient privateKeyToAccount createWalletClient env s
    = (Ok tt, s1)
    /\ rpc_faults s1 = tail (rpc_faults s)
    /\ entities s1 = entities s
    /\ userUsage s1 = userUsage s
    /\ uploadSessions s1 = uploadSessions s
    /\ (forall wallet, walletClient s1 = Some wallet -> ownerAddress s1 = Some wallet)
    /\ (forall wallet,
          walletClient s1 = Some wallet
          <-> exists privateKey,
                ArkivStorageSetup.normalizePrivateKey
                  (ArkivStorageSetup.ARKIV_PRIVATE_KEY env) = Some privateKey
                /\ privateKeyToAccount privateKey = Some wallet
                /\ createWalletClient wallet = true)
    /\ (forall privateKey,
          ArkivStorageSetup.normalizePrivateKey
            (ArkivStorageSetup.ARKIV_PRIVATE_KEY env) = Some privateKey ->
          privateKeyToAccount privateKey = None ->
          walletClient s1 = None /\ ownerAddress s1 = None)
    /\ (ArkivStorageSetup.normalizePrivateKey
          (ArkivStorageSetup.ARKIV_PRIVATE_KEY env) = None ->
        walletClient s1 = None
        /\ ownerAddress s1
           = match ArkivStorageSetup.ARKIV_OWNER_ADDRESS env with
             | Some address => if String.eqb address EmptyString then None
                               else Some address
             | None => None
             end).
Proof.
  intros Hw Ho.
  unfold ArkivStorageSetup.initializeClient, try_catch, bind at 1.
  unfold ArkivStorage.rpc at 1.
  set (s0 := set_rpc_faults (tail (rpc_faults s)) s).
  assert (forall (A : Type) (k : unit -> Sys -> outcome A * Sys),
            match
              match (match head (rpc_faults s) with
                     | Some (Some e) => Thrown e
                     | _ => Ok tt
                     end, s0)
              with
              | (Ok a, s') => (Ok a, s')
              | (Thrown e, s') => ret tt s'
              end
            with
            | (Ok a, s') => k a s'
            | (Thrown e, s') => (Thrown e, s')
            end = k tt s0) as Hstep.
  { intros A k. destruct (head (rpc_faults s)) as [[e|]|]; reflexivity. }
  rewrite Hstep. clear Hstep.
  destruct (ArkivStorageSetup.normalizePrivateKey
              (ArkivStorageSetup.ARKIV_PRIVATE_KEY env)) as [privateKey|] eqn:Hkey.
  - destruct (privateKeyToAccount privateKey) as [address|] eqn:Hacc.
    + unfold bind, modify.
      destruct (createWalletClient address) eqn:Hwc; eexists; (split; [reflexivity|]);
        cbn [rpc_faults entities userUsage uploadSessions walletClient ownerAddress
             set_walletClient set_ownerAddress set_rpc_faults s0].
      * do 4 (split; [reflexivity|]). split; [intros w [= <-]; reflexivity|].
        split.
        { intros w. split.
          - intros [= <-]. exists privateKey. auto.
          - intros (pk & [= <-] & Hpk & _). congruence. }
        split; [intros pk [= <-] Hnone; congruence|]. discriminate.
      * do 4 (split; [reflexivity|]). split; [discriminate|].
        split.
        { intros w. split; [discriminate|].
          intros (pk & [= <-] & Hpk & Hok). congruence. }
        split; [intros pk [= <-] Hnone; congruence|]. discriminate.
    + unfold modify. eexists. split; [reflexivity|].
      cbn [rpc_faults entities userUsage uploadSessions walletClient ownerAddress
           set_walletClient set_ownerAddress set_rpc_faults s0].
      do 4 (split; [reflexivity|]). split; [discriminate|].
      split.
      { intros w. split; [discriminate|].
        intros (pk & [= <-] & Hpk & _). congruence. }
      split; [intros pk _ _; split; [reflexivity | exact Ho]|]. discriminate.
  - assert (forall s1,
              rpc_faults s1 = tail (rpc_faults s) -> entities s1 = entities s ->
              userUsage s1 = userUsage s -> uploadSessions s1 = uploadSessions s ->
              walletClient s1 = None ->
              ownerAddress s1
              = match ArkivStorageSetup.ARKIV_OWNER_ADDRESS env with
                | Some address => if String.eqb address EmptyString then None
                                  else Some address
                | None => None
                end ->
              rpc_faults s1 = tail (rpc_faults s)
              /\ entities s1 = entities s
              /\ userUsage s1 = userUsage s
              /\ uploadSessions s1 = uploadSessions s
              /\ (forall wallet, walletClient s1 = Some wallet ->
                                 ownerAddress s1 = Some wallet)
              /\ (forall wallet,
                    walletClient s1 = Some wallet
                    <-> exists privateKey,
                          @None string = Some privateKey
                          /\ privateKeyToAccount privateKey = Some wallet
                          /\ createWalletClient wallet = true)
              /\ (forall privateKey,
                    @None string = Some privateKey ->
                    privateKeyToAccount privateKey = None ->
                    walletClient s1 = None /\ ownerAddress s1 = None)
              /\ (@None string = None ->
                  walletClient s1 = None
                  /\ ownerAddress s1
                     = match ArkivStorageSetup.ARKIV_OWNER_ADDRESS env with
                       | Some address => if String.eqb address EmptyString then None
                                         else Some address
                       | None => None
                       end)) as Hall.
    { intros s1 H1 H2 H3 H4 H5 H6. do 4 (split; [assumption|]).
      split; [intros w; rewrite H5; discriminate|].
      split.
      { intros w. rewrite H5. split; [discriminate|]. intros (pk & E & _). discriminate. }
      split; [discriminate|]. auto. }
    destruct (ArkivStorageSetup.ARKIV_OWNER_ADDRESS env) as [address|].
    + destruct (String.eqb address EmptyString) eqn:Hempty.
      * exists s0. split; [reflexivity|]. apply Hall; try reflexivity; assumption.
      * eexists. split; [reflexivity|]. apply Hall; try reflexivity. exact Hw.
    + exists s0. split; [reflexivity|]. apply Hall; try reflexivity; assumption.
Qed.

End ClientSetup.

(** * The network calls of the service *)






Lemma getMetadata_calls media_id s :
  let s1 := snd (ArkivStorage.getMetadata media_id s) in
  ownerAddress s1 = ownerAddress s
  /\ network_calls (match ownerAddress s with Some _ => 1 | None => 0 end) s s1
  /\ (ownerAddress s = None -> fst (ArkivStorage.getMetadata media_id s) = Ok None).
Proof.
  cbv zeta. rewrite getMetadata_run. unfold network_calls.
  destruct (ownerAddress s) eqn:Ho; cbn [fst snd].
  - split; [exact Ho|]. split; [|discriminate].
    unfold after_rpc. cbn [rpc_faults set_rpc_faults].
    destruct (rpc_faults s); reflexivity.
  - split; [exact Ho|]. split; reflexivity.
Qed.

Lemma getAllChunks_calls media_id s :
  network_calls (match ownerAddress s with Some _ => 1 | None => 0 end) s
    (snd (ArkivStorage.getAllChunks media_id s)).
Proof.
  rewrite getAllChunks_run. unfold network_calls.
  destruct (ownerAddress s); cbn [snd]; [|reflexivity].
  unfold after_rpc. cbn [rpc_faults set_rpc_faults].
  destruct (rpc_faults s); reflexivity.
Qed.

Lemma network_calls_trans n m s1 s2 s3 :
  network_calls n s1 s2 -> network_calls m s2 s3 -> network_calls (n + m) s1 s3.
Proof.
  unfold network_calls. intros H1 H2. rewrite H2, H1, drop_drop. reflexivity.
Qed.

(** [getChunkInfo], step by step. *)
Lemma getChunkInfo_run media_id s :
  UploadService.getChunkInfo media_id s
  = match ArkivStorage.getMetadata media_id s with
    | (Thrown e, s1) => (Ok (ChunkInfoFail ("Failed to get chunk info: " ++ e)), s1)
    | (Ok None, s1) => (Ok (ChunkInfoFail "Media not found or expired"), s1)
    | (Ok (Some metadata), s1) =>
        match ArkivStorage.getAllChunks media_id s1 with
        | (Thrown e, s2) => (Ok (ChunkInfoFail ("Failed to get chunk info: " ++ e)), s2)
        | (Ok chunks, s2) =>
            if blen chunks =? 0 then
              (Ok (ChunkInfoFail "Media chunks not found or incomplete"), s2)
            else
              (Ok (ChunkInfoOk
                     (mkChunkInfo (MediaMetadata.chunk_count metadata)
                        (MediaMetadata.file_size metadata)
                        (MediaMetadata.content_type metadata)
                        (MediaMetadata.filename metadata)
                        (map (fun chunk =>
                                mkChunkInfoEntry (MediaChunk.chunk_index chunk)
                                  (blen (fromBase64 (MediaChunk.data chunk)))
                                  (MediaChunk.checksum chunk)
                                  (MediaChunk.expiration_block chunk))
                             chunks))), s2)
        end
    end.
Proof.
  unfold UploadService.getChunkInfo, try_catch, bind at 1.
  destruct (ArkivStorage.getMetadata media_id s) as [[[metadata|]|e] s1]; try reflexivity.
  unfold bind at 1.
  destruct (ArkivStorage.getAllChunks media_id s1) as [[chunks|e] s2]; [|reflexivity].
  destruct (blen chunks =? 0); reflexivity.
Qed.

Ltac stops_after_metadata Hc :=
  split; [first [discriminate | intros _; exact Hc]|];
  split; [first [intros [? ?]; discriminate | intros _; left; exact Hc]|];
  intros; discriminate.

(** X24 (network calls of a read): [getMedia] and [getChunkInfo] make no
    network call when no owner address is configured and otherwise one or
    two, two whenever they succeed; [getUploadStatus] makes none and changes
    nothing. None of them changes the store, the sessions, the usage
    records or the identifiers still to be issued. *)
Theorem X24_reads_only_use_the_network media_id key s :
  (let r := fst (UploadService.getMedia media_id s) in
   let s' := snd (UploadService.getMedia media_id s) in
   only_rpc s s'
   /\ (ownerAddress s = None -> network_calls 0 s s')
   /\ (is_Some (ownerAddress s) -> network_calls 1 s s' \/ network_calls 2 s s')
   /\ forall buffer metadata, r = Ok (MediaOk buffer metadata) ->
        is_Some (ownerAddress s) /\ network_calls 2 s s')
  /\ (let r := fst (UploadService.getChunkInfo media_id s) in
      let s' := snd (UploadService.getChunkInfo media_id s) in
      only_rpc s s'
      /\ (ownerAddress s = None -> network_calls 0 s s')
      /\ (is_Some (ownerAddress s) -> network_calls 1 s s' \/ network_calls 2 s s')
      /\ forall info, r = Ok (ChunkInfoOk info) ->
           is_Some (ownerAddress s) /\ network_calls 2 s s')
  /\ snd (UploadService.getUploadStatus key s) = s.
Proof.
  cbv zeta. split; [|split; [|reflexivity]].
  - split; [apply getMedia_only_rpc|].
    rewrite getMedia_run.
    destruct (getMetadata_calls media_id s) as (Ho1 & Hc1 & Hnone). cbv zeta in *.
    destruct (ArkivStorage.getMetadata media_id s) as [[[md|]|e] s1]; cbn [fst snd] in *.
    2,3: destruct (ownerAddress s); stops_after_metadata Hc1.
    destruct (ownerAddress s) as [owner|] eqn:Ho; [|specialize (Hnone eq_refl); discriminate].
    pose proof (getAllChunks_calls media_id s1) as Hc2. rewrite Ho1 in Hc2.
    pose proof (network_calls_trans _ _ _ _ _ Hc1 Hc2) as Hc. simpl in Hc.
    split; [discriminate|].
    assert (network_calls 2 s (snd (ArkivStorage.getAllChunks media_id s1))) as H2 by exact Hc.
    destruct (ArkivStorage.getAllChunks media_id s1) as [[chunks|e] s2]; cbn [fst snd] in *.
    2:{ split; [intros _; right; exact H2 | intros ? ? ?; discriminate]. }
    destruct (blen chunks =? 0); cbv zeta.
    { split; [intros _; right; exact H2 | intros ? ? ?; discriminate]. }
    destruct (ChunkingService.validateFileIntegrity _ _); cbn [fst snd].
    all: split; [intros _; right; exact H2 | intros ? ? ?; split; [eauto | exact H2]].
  - split; [apply getChunkInfo_only_rpc|].
    rewrite getChunkInfo_run.
    destruct (getMetadata_calls media_id s) as (Ho1 & Hc1 & Hnone). cbv zeta in *.
    destruct (ArkivStorage.getMetadata media_id s) as [[[md|]|e] s1]; cbn [fst snd] in *.
    2,3: destruct (ownerAddress s); stops_after_metadata Hc1.
    destruct (ownerAddress s) as [owner|] eqn:Ho; [|specialize (Hnone eq_refl); discriminate].
    pose proof (getAllChunks_calls media_id s1) as Hc2. rewrite Ho1 in Hc2.
    pose proof (network_calls_trans _ _ _ _ _ Hc1 Hc2) as Hc. simpl in Hc.
    split; [discriminate|].
    assert (network_calls 2 s (snd (ArkivStorage.getAllChunks media_id s1))) as H2 by exact Hc.
    destruct (ArkivStorage.getAllChunks media_id s1) as [[chunks|e] s2]; cbn [fst snd] in *.
    2:{ split; [intros _; right; exact H2 | intros ? ?; discriminate]. }
    destruct (blen chunks =? 0); cbn [fst snd].
    { split; [intros _; right; exact H2 | intros ? ?; discriminate]. }
    split; [intros _; right; exact H2 | intros ? ?; split; [eauto | exact H2]].
Qed.

(** * The in-memory backend: files are kept apart *)

Lemma has_char_app c s t : has_char c (s ++ t) = has_char c s || has_char c t.
Proof.
  induction s as [|d s IH]; [reflexivity|].
  change (String d s ++ t)%string with (String d (s ++ t)). simpl.
  rewrite IH, orb_assoc. reflexivity.
Qed.

Lemma pretty_N_go_no_underscore x : forall s,
  has_char "_" s = false -> has_char "_" (pretty_N_go x s) = false.
Proof.
  induction (N.lt_wf_0 x) as [x _ IH]. intros s Hs.
  destruct (N.eq_dec x 0%N) as [->|Hx]; [exact Hs|].
  rewrite pretty_N_go_step by lia. apply IH; [apply N.div_lt; lia|].
  simpl. rewrite Hs. unfold pretty_N_char.
  destruct (x `mod` 10)%N as [|p]; [reflexivity|].
  do 4 (destruct p as [p|p|]; try reflexivity).
Qed.

Lemma pretty_Z_no_underscore (i : Z) : has_char "_" (pretty i) = false.
Proof.
  assert (forall p : positive, has_char "_" (pretty p) = false) as Hpos.
  { intros p. unfold pretty, pretty_positive, pretty, pretty_N.
    destruct (decide (N.pos p = 0%N)); [reflexivity|].
    apply pretty_N_go_no_underscore. reflexivity. }
  destruct i as [|p|p]; [reflexivity | apply Hpos |].
  unfold pretty, pretty_Z. change ("-" +:+ pretty p)%string with (String "-" (pretty p)).
  simpl. apply Hpos.
Qed.

(** Two strings that end in an underscore and a part without one are equal
    only if both parts are. *)
Lemma split_at_last_underscore a : forall a' p p',
  has_char "_" p = false -> has_char "_" p' = false ->
  (a ++ String "_" p = a' ++ String "_" p')%string ->
  a = a' /\ p = p'.
Proof.
  induction a as [|c a IH]; intros [|c' a'] p p' Hp Hp' Heq.
  - injection Heq as ->. split; reflexivity.
  - change (String c' a' ++ String "_" p')%string
      with (String c' (a' ++ String "_" p')) in Heq.
    injection Heq as <- ->. rewrite has_char_app in Hp. simpl in Hp.
    rewrite orb_true_r in Hp. discriminate.
  - change (String c a ++ String "_" p)%string
      with (String c (a ++ String "_" p)) in Heq.
    injection Heq as -> <-. rewrite has_char_app in Hp'. simpl in Hp'.
    rewrite orb_true_r in Hp'. discriminate.
  - change (String c a ++ String "_" p)%string
      with (String c (a ++ String "_" p)) in Heq.
    change (String c' a' ++ String "_" p')%string
      with (String c' (a' ++ String "_" p')) in Heq.
    injection Heq as -> Heq. destruct (IH _ _ _ Hp Hp' Heq) as [-> ->].
    split; reflexivity.
Qed.

Lemma chunk_key_inj2 m i m' j :
  ArkivMemoryStorage.chunk_key m i = ArkivMemoryStorage.chunk_key m' j ->
  m = m' /\ i = j.
Proof.
  unfold ArkivMemoryStorage.chunk_key. intros H.
  change ("_" ++ pretty i)%string with (String "_" (pretty i)) in H.
  change ("_" ++ pretty j)%string with (String "_" (pretty j)) in H.
  apply split_at_last_underscore in H as [-> H];
    [|apply pretty_Z_no_underscore..].
  split; [reflexivity | exact (inj pretty _ _ H)].
Qed.

Lemma agree_getChunk m i st st' :
  agree_on m st st' ->
  fst (ArkivMemoryStorage.getChunk m i st') = fst (ArkivMemoryStorage.getChunk m i st).
Proof.
  intros (_ & Hb & Hc). unfold ArkivMemoryStorage.getChunk. cbv zeta.
  rewrite Hc. unfold ArkivMemoryStorage.getCurrentBlock. rewrite Hb.
  destruct (ArkivMemoryStorage.chunks st !! _) as [c|]; [|reflexivity].
  destruct (_ <=? _); reflexivity.
Qed.

Lemma agree_loop m n fuel : forall i found st st',
  agree_on m st st' ->
  fst (ArkivMemoryStorage.getAllChunks_loop fuel m n i found st')
  = fst (ArkivMemoryStorage.getAllChunks_loop fuel m n i found st).
Proof.
  induction fuel as [|fuel IH]; intros i found st st' Hagree; [reflexivity|].
  simpl. destruct (i <? n); [|reflexivity].
  pose proof (agree_getChunk m i st st' Hagree) as Hget.
  destruct (ArkivMemoryStorage.getChunk m i st) as [[c|] st1] eqn:H1;
    destruct (ArkivMemoryStorage.getChunk m i st') as [[c'|] st1'] eqn:H1';
    cbn [fst] in Hget; try discriminate; [|reflexivity].
  injection Hget as ->.
  apply memory_getChunk_some in H1 as [-> _].
  apply memory_getChunk_some in H1' as [-> _].
  apply IH. exact Hagree.
Qed.

Lemma agree_getAllChunks m st st' :
  agree_on m st st' ->
  fst (ArkivMemoryStorage.getAllChunks m st') = fst (ArkivMemoryStorage.getAllChunks m st).
Proof.
  intros Hagree. pose proof Hagree as (Hm & Hb & Hc).
  unfold ArkivMemoryStorage.getAllChunks, ArkivMemoryStorage.getMetadata.
  rewrite Hm. unfold ArkivMemoryStorage.getCurrentBlock. rewrite Hb.
  destruct (ArkivMemoryStorage.metadata st !! m) as [meta|]; [|reflexivity].
  destruct (_ <=? _); [reflexivity|].
  apply agree_loop. exact Hagree.
Qed.

Lemma agree_write m w st :
  written_media w <> m -> agree_on m st (memory_write st w).
Proof.
  intros Hne. destruct w as [c|meta]; simpl in *.
  - destruct (memory_storeChunk_lookup c st (ArkivMemoryStorage.chunk_key m 0))
      as (_ & Hm & Hb).
    split; [rewrite Hm; reflexivity|]. split; [exact Hb|].
    intros j.
    destruct (memory_storeChunk_lookup c st (ArkivMemoryStorage.chunk_key m j))
      as (Hc & _ & _).
    rewrite Hc. destruct (ArkivMemoryStorage.chunks st !! _); [reflexivity|].
    destruct (decide _) as [Hk|]; [|reflexivity].
    unfold memory_key in Hk. apply chunk_key_inj2 in Hk as [Hk _]. contradiction.
  - unfold ArkivMemoryStorage.storeMetadata, agree_on.
    cbn [ArkivMemoryStorage.metadata ArkivMemoryStorage.chunks
         ArkivMemoryStorage.currentBlock].
    split; [apply lookup_insert_ne; exact Hne|]. split; reflexivity.
Qed.

Lemma agree_trans m st1 st2 st3 :
  agree_on m st1 st2 -> agree_on m st2 st3 -> agree_on m st1 st3.
Proof.
  intros (H1 & H2 & H3) (H1' & H2' & H3'). split; [congruence|]. split; [congruence|].
  intros j. rewrite H3', H3. reflexivity.
Qed.

(** X25 (the in-memory backend keeps files apart): two chunks share a key
    only if they have the same media id and the same index; so whatever is
    written for other media ids, chunks or metadata, accepted or refused,
    [getChunk] and [getAllChunks] of a media id return what they returned
    before. *)
Theorem X25_memory_files_are_kept_apart (m : string) (ws : list MemoryWrite)
    (st : ArkivMemoryStorage.t) :
  Forall (fun w => written_media w <> m) ws ->
  let st' := foldl memory_write st ws in
  (forall m1 i1 m2 i2,
     ArkivMemoryStorage.chunk_key m1 i1 = ArkivMemoryStorage.chunk_key m2 i2 ->
     m1 = m2 /\ i1 = i2)
  /\ (forall i, fst (ArkivMemoryStorage.getChunk m i st')
                = fst (ArkivMemoryStorage.getChunk m i st))
  /\ fst (ArkivMemoryStorage.getAllChunks m st')
     = fst (ArkivMemoryStorage.getAllChunks m st)
  /\ fst (ArkivMemoryStorage.getMetadata m st')
     = fst (ArkivMemoryStorage.getMetadata m st).
Proof.
  intros Hws. cbv zeta.
  assert (agree_on m st (foldl memory_write st ws)) as Hagree.
  { revert st. induction Hws as [|w ws Hw _ IH]; intros st.
    - repeat split.
    - simpl. apply (agree_trans m st (memory_write st w)); [|apply IH].
      apply agree_write. exact Hw. }
  split; [intros m1 i1 m2 i2; apply chunk_key_inj2|].
  split; [intros i; apply agree_getChunk; exact Hagree|].
  split; [apply agree_getAllChunks; exact Hagree|].
  destruct Hagree as (Hm & Hb & _). unfold ArkivMemoryStorage.getMetadata.
  rewrite Hm. unfold ArkivMemoryStorage.getCurrentBlock. rewrite Hb.
  destruct (ArkivMemoryStorage.metadata st !! m); [|reflexivity].
  destruct (_ <=? _); reflexivity.
Qed.

(** ** The extra properties at work on the concrete deployment *)

Lemma X1_roundtrip_witness :
  fst (UploadService.getMedia "uuid-0" (after later_events (snd (upload_tiny "k1" boot))))
  = Ok (MediaOk tiny_png (upload_metadata boot tiny_png "tiny.png" "image/png" 7)).
Proof.
  apply (X1_upload_then_getMedia_roundtrip tiny_png "tiny.png" "image/png" "k1"
           "anonymous" "0xA11CE" 7 boot (snd (upload_tiny "k1" boot)) "uuid-0"
           later_events).
  - discriminate.
  - reflexivity.
  - reflexivity.
  - reflexivity.
  - constructor.
  - intros n Hn E. apply uuid_of_inj in E. cbn in E, Hn. lia.
  - vm_compute. reflexivity.
  - repeat constructor.
  - vm_compute. exact I.
  - vm_compute. exact I.
Defined.

Lemma X2_failed_upload_witness :
  exists (chunks : list ChunkEntity.t) (k : nat),
    (k <= length chunks)%nat
    /\ map Entity.contentType (entities (snd (upload_tiny "k1" second_call_fails)))
       = map (fun _ => "application/octet-stream"%string) (take k chunks)
    /\ fst (UploadService.getMedia "uuid-0" (snd (upload_tiny "k1" second_call_fails)))
       = Ok (MediaFail "Media not found or expired").
Proof.
  destruct (X2_failed_upload_is_not_rolled_back tiny_png "tiny.png" "image/png" "k1"
              "anonymous" 7 second_call_fails (snd (upload_tiny "k1" second_call_fails))
              "Error: connection reset")
    as (chunks & k & _ & Hk & Hent & _ & _ & _ & Hget).
  - reflexivity.
  - vm_compute. reflexivity.
  - exists chunks, k. split; [exact Hk|]. split.
    + rewrite Hent. cbn [entities second_call_fails happen set_rpc_faults boot app].
      rewrite !map_map. reflexivity.
    + apply Hget. constructor.
Defined.

Lemma X3_status_witness :
  fst (UploadService.getUploadStatus "k1" (snd (upload_tiny "k1" boot)))
  = Ok (Some (UploadSession.mk "uuid-0" "k1"
                (upload_metadata boot tiny_png "tiny.png" "image/png" 7)
                (list_to_set (seqZ 0 1)) true)).
Proof.
  destruct (X3_completed_upload_status tiny_png "tiny.png" "image/png" "k1" "anonymous"
              7 boot (snd (upload_tiny "k1" boot)) "uuid-0")
    as (Hstatus & _).
  - reflexivity.
  - vm_compute. reflexivity.
  - rewrite Hstatus. reflexivity.
Defined.

Lemma X4_permanent_session_witness :
  fst (UploadService.getUploadStatus "k1"
         (after later_events (snd (upload_tiny "k1" second_call_fails))))
  = fst (UploadService.getUploadStatus "k1" (snd (upload_tiny "k1" second_call_fails)))
  /\ exists session,
       uploadSessions (snd (upload_tiny "k1" second_call_fails)) !! "k1"%string
       = Some session
       /\ UploadSession.completed session = false.
Proof.
  assert (exists session,
            uploadSessions (snd (upload_tiny "k1" second_call_fails)) !! "k1"%string
            = Some session /\ UploadSession.completed session = false)
    as (session & Hsession & Hopen).
  { eexists. split; [vm_compute; reflexivity | reflexivity]. }
  split; [|exists session; auto].
  rewrite (X4_sessions_are_permanent later_events _ "k1" session Hsession).
  unfold UploadService.getUploadStatus, gets. cbn [fst]. rewrite Hsession. reflexivity.
Defined.


Lemma X6_no_reset_witness :
  exists e,
    fst (UploadService.initiateUpload tiny_png "tiny.png" "image/png" "k9" "anonymous" 7
           (after [Tick 1800000000000 900000000 2] at_daily_limit))
    = Ok (UploadFail e).
Proof.
  apply (X6_daily_limit_never_resets [Tick 1800000000000 900000000 2] at_daily_limit
           "anonymous" tiny_png "tiny.png" "image/png" "k9" 7).
  left. vm_compute. discriminate.
Defined.

Lemma X7_any_order_witness :
  length tiny_chunks = 3%nat
  /\ ChunkingService.reassembleFile (rev tiny_chunks) = tiny_png.
Proof.
  split; [vm_compute; reflexivity|].
  apply (X7_reassemble_in_any_order 3 tiny_png "uuid-0" 850302400 boot
           (snd (ChunkingService.chunkWith 3 tiny_png "uuid-0" 850302400 boot))
           tiny_chunks (rev tiny_chunks)).
  - lia.
  - vm_compute. reflexivity.
  - symmetry. apply Permutation_rev.
Defined.


Lemma X9_chunk_info_witness :
  exists info,
    fst (UploadService.getChunkInfo "uuid-0" (snd (upload_tiny "k1" boot)))
    = Ok (ChunkInfoOk info)
    /\ total_chunks info = 1
    /\ map info_chunk_index (info_entities info) = [1]
    /\ map info_size (info_entities info) = [8].
Proof.
  destruct (X9_chunk_info_after_upload tiny_png "tiny.png" "image/png" "k1" "anonymous"
              "0xA11CE" 7 boot (snd (upload_tiny "k1" boot)) "uuid-0")
    as (info & Hinfo & Htotal & _ & _ & _ & Hidx & Hentry & _).
  - discriminate.
  - reflexivity.
  - reflexivity.
  - reflexivity.
  - constructor.
  - vm_compute. reflexivity.
  - vm_compute. exact I.
  - vm_compute. exact I.
  - exists info. split; [exact Hinfo|].
    change (ceil_div (blen tiny_png) CONFIG.CHUNK_SIZE) with 1 in Htotal.
    split; [exact Htotal|]. rewrite Htotal in Hidx. split; [exact Hidx|].
    destruct (info_entities info) as [|entry [|entry' rest]]; try discriminate Hidx.
    destruct (Hentry 0%nat entry eq_refl) as (Hsize & _).
    cbn [map]. rewrite Hsize. reflexivity.
Defined.

Lemma X11_no_wallet_witness :
  fst (upload_tiny "k1" read_only)
  = Ok (UploadFail
          "Upload failed: Error: Write operations not available - wallet client is not configured")
  /\ entities (snd (upload_tiny "k1" read_only)) = [].
Proof.
  destruct (X11_upload_without_wallet tiny_png "tiny.png" "image/png" "k1" "anonymous" 7
              read_only)
    as (s1 & Hrun & Hent & _).
  - reflexivity.
  - split; [vm_compute; discriminate|]. split; vm_compute; reflexivity.
  - reflexivity.
  - unfold upload_tiny. rewrite Hrun. split; [reflexivity | exact Hent].
Defined.

Lemma X14_memory_roundtrip_witness :
  exists chunks st1,
    memory_storeChunks chunks ArkivMemoryStorage.new = (Ok tt, st1)
    /\ fst (ArkivMemoryStorage.getAllChunks "uuid-0"
              (ArkivMemoryStorage.storeMetadata memory_example_metadata st1))
       = chunks
    /\ ChunkingService.reassembleFile chunks = tiny_png.
Proof.
  pose (r := ChunkingService.chunkFile tiny_png "uuid-0" 1020160 boot).
  pose (chunks := match fst r with Ok cs => cs | Thrown _ => [] end).
  destruct (X14_memory_store_then_read tiny_png "uuid-0" "tiny.png" "image/png" 7
              1020160 boot (snd r) (snd r) chunks memory_example_metadata
              ArkivMemoryStorage.new)
    as (st1 & Hstore & Hread & Hback).
  - vm_compute. reflexivity.
  - intros j. apply lookup_empty.
  - vm_compute. reflexivity.
  - vm_compute. reflexivity.
  - exists chunks, st1. split; [exact Hstore|]. split; [|exact Hback].
    rewrite Hread. reflexivity.
Defined.

Lemma X16_client_validation_witness :
  ImageDB.valid (ImageDB.validateFile (Some (ImageDB.mkFile 8 "image/gif" "tiny.gif")))
  = false
  /\ UploadService.initiateUpload tiny_png "tiny.gif" "image/gif" "k1" "anonymous" 7 boot
     = (Ok (UploadFail "Only JPEG and PNG files are supported"), boot).
Proof.
  destruct (X16_client_validation_agrees_with_server
              (ImageDB.mkFile 8 "image/gif" "tiny.gif") tiny_png "tiny.gif" "k1"
              "anonymous" 7 boot eq_refl)
    as (_ & Hrejected & _).
  split; [reflexivity|].
  destruct (Hrejected eq_refl) as [H|H]; [|exact H].
  exfalso. revert H. vm_compute. discriminate.
Defined.

Lemma X17_quota_route_witness :
  QuotaInfo.uploads_today
    (quota_of (Server.uploadService (server_after server_history (Server.mk boot ∅)))
       "bob") = 1
  /\ fst (Server.get_quota request_of_bob (server_after server_history (Server.mk boot ∅)))
     = Server.json (Server.JsonQuota 0 104857600 0 10 (Some "0.00"%string)) 200.
Proof.
  split; [vm_compute; reflexivity|].
  apply (X17_quota_route_never_shows_usage server_history (Server.mk boot ∅)
           request_of_bob).
  reflexivity.
Defined.

Lemma X19_chunk_query_failure_witness :
  Server.status (fst (Server.get_media "uuid-0" server_with_failing_chunk_query)) = 500
  /\ Server.status (fst (Server.get_chunks "uuid-0" server_with_failing_chunk_query)) = 404.
Proof.
  destruct (X19_chunk_query_failure_status "uuid-0" "0xA11CE" "Error: timeout"
              (upload_metadata boot tiny_png "tiny.png" "image/png" 7)
              server_with_failing_chunk_query)
    as (Hmedia & Hchunks & _).
  - reflexivity.
  - vm_compute. exact I.
  - vm_compute. reflexivity.
  - vm_compute. reflexivity.
  - vm_compute. reflexivity.
  - rewrite Hmedia, Hchunks. split; reflexivity.
Defined.

Lemma X20_status_route_witness :
  fst (Server.get_status "k1" (Server.mk boot ∅))
  = Server.json (Server.JsonError "Upload session not found") 404
  /\ fst (Server.get_status "k1" (Server.mk (snd (upload_tiny "k1" boot)) ∅))
     = Server.json (Server.JsonStatus "uuid-0" true 1 1) 200.
Proof.
  destruct (X20_status_route_after_upload tiny_png "tiny.png" "image/png" "k1"
              "anonymous" 7 boot (snd (upload_tiny "k1" boot)) "uuid-0" ∅)
    as (Hbefore & Hafter).
  - reflexivity.
  - vm_compute. reflexivity.
  - rewrite Hbefore, Hafter. split; reflexivity.
Defined.

Lemma X22_client_setup_witness :
  exists s1,
    ArkivStorageSetup.initializeClient example_account (fun _ => true)
      (ArkivStorageSetup.mkEnv (Some " c0ffee ") (Some "0xB0B")) unconfigured
    = (Ok tt, s1)
    /\ walletClient s1 = Some "account-of-0xc0ffee"%string
    /\ ownerAddress s1 = Some "account-of-0xc0ffee"%string.
Proof.
  destruct (X22_client_setup example_account (fun _ => true)
              (ArkivStorageSetup.mkEnv (Some " c0ffee ") (Some "0xB0B")) unconfigured
              eq_refl eq_refl)
    as (s1 & Hrun & _ & _ & _ & _ & Howner & Hwallet & _).
  assert (walletClient s1 = Some "account-of-0xc0ffee"%string) as Hw.
  { apply Hwallet. exists "0xc0ffee"%string. repeat split; reflexivity. }
  exists s1. split; [exact Hrun|]. split; [exact Hw | apply Howner, Hw].
Defined.

Lemma X25_kept_apart_witness :
  fst (ArkivMemoryStorage.getAllChunks "uuid-0"
         (foldl memory_write memory_with_tiny writes_for_another_file))
  = fst (ArkivMemoryStorage.getAllChunks "uuid-0" memory_with_tiny).
Proof.
  destruct (X25_memory_files_are_kept_apart "uuid-0" writes_for_another_file
              memory_with_tiny)
    as (_ & _ & Hall & _).
  - apply Forall_cons; split; [simpl; discriminate|].
    apply Forall_cons; split; [simpl; discriminate | apply Forall_nil; exact I].
  - exact Hall.
Defined.
